(** * GLBConverter: the security layer of the AR automation server

    A shallow embedding of the hardened server (the utility functions, the
    [/api/create-zip], [/api/proxy-image] and [/download] handlers and
    [createZip]) together with the properties its specification states.

    Conventions.
    - JavaScript strings are [string]; byte buffers are [list byte].
    - [path] is Node's [path.posix]: the separator is ["/"] and a backslash is
      an ordinary character of a file name.
    - The file system is an explicit state threaded through the handlers; every
      [fs.*] call is recorded in a log, so that "no file-system access" is the
      statement that the log did not grow.  The calls are taken to succeed: a
      call that throws leaves the handler through its [catch] with a 500
      response, and that path is not part of the model.
    - A request body is typed: a session identifier and the path of an entry
      are strings, and the content of an entry comes with its encoding.
    - What the environment decides (the random bytes of [crypto.randomBytes],
      the WHATWG URL parser, [validator.isURL], the buffer codecs and the
      events emitted by the archiver) is an explicit argument. *)

From Stdlib Require Import String Ascii List ZArith Lia Bool.
From Stdlib Require Import Strings.Byte.
From stdpp Require Import base gmap strings list.

Local Open Scope string_scope.

(** ** JavaScript string primitives *)

Module JS.

(** [s.split(sep)] for a one-character separator. *)
Fixpoint split_on (sep : ascii) (s : string) : list string :=
  match s with
  | EmptyString => [""]
  | String c s' =>
      if Ascii.eqb c sep then "" :: split_on sep s'
      else match split_on sep s' with
           | [] => [String c ""]
           | seg :: segs => String c seg :: segs
           end
  end.

(** [l.join(sep)]. *)
Fixpoint join_with (sep : string) (l : list string) : string :=
  match l with
  | [] => ""
  | [x] => x
  | x :: rest => x +:+ sep +:+ join_with sep rest
  end.

(** [s.startsWith(search)]. *)
Definition startsWith (s search : string) : bool := String.prefix search s.

(** [s.charCodeAt(s.length - 1) === c]. *)
Fixpoint last_char_is (c : ascii) (s : string) : bool :=
  match s with
  | EmptyString => false
  | String a EmptyString => Ascii.eqb a c
  | String _ s' => last_char_is c s'
  end.

(** [s.slice(n)]. *)
Fixpoint drop (n : nat) (s : string) : string :=
  match n, s with
  | 0, _ => s
  | S n', String _ s' => drop n' s'
  | S _, EmptyString => ""
  end.

Definition in_range (lo hi c : ascii) : bool := Ascii.leb lo c && Ascii.leb c hi.

Definition lower_char (c : ascii) : ascii :=
  if in_range "A" "Z" c then ascii_of_nat (nat_of_ascii c + 32) else c.

(** [s.toLowerCase()] on the ASCII range. *)
Fixpoint toLowerCase (s : string) : string :=
  match s with
  | EmptyString => ""
  | String c s' => String (lower_char c) (toLowerCase s')
  end.

(** [l.includes(x)] on an array of strings. *)
Definition includes (l : list string) (x : string) : bool :=
  existsb (String.eqb x) l.

End JS.

(** ** Node's [path] module (POSIX flavour)

    The functions of [path] the server calls, after [lib/path.js]:
    [normalizeString] is given on the list of segments, [dirname] and
    [extname] follow the loops of the library index by index. *)

Module Path.

Definition sep : ascii := "/".

(** One segment of [normalizeString]: empty and ["."] segments are dropped, a
    [".."] removes the segment before it unless there is none or it is itself
    a [".."], in which case it is kept only when [allowAboveRoot].  The
    result is kept with its last segment first. *)
Definition norm_step (allowAboveRoot : bool) (res : list string) (seg : string)
  : list string :=
  if String.eqb seg "" then res
  else if String.eqb seg "." then res
  else if String.eqb seg ".." then
    match res with
    | last_seg :: before =>
        if String.eqb last_seg ".."
        then (if allowAboveRoot then ".." :: res else res)
        else before
    | [] => if allowAboveRoot then [".."] else []
    end
  else seg :: res.

Definition norm_segments (allowAboveRoot : bool) (segs : list string) (res : list string)
  : list string :=
  fold_left (norm_step allowAboveRoot) segs res.

Definition normalizeString (path : string) (allowAboveRoot : bool) : string :=
  JS.join_with "/" (rev (norm_segments allowAboveRoot (JS.split_on sep path) [])).

(** [path.normalize]. *)
Definition normalize (path : string) : string :=
  if String.eqb path "" then "."
  else
    let isAbsolute := JS.startsWith path "/" in
    let trailingSeparator := JS.last_char_is "/" path in
    let p := normalizeString path (negb isAbsolute) in
    if String.eqb p "" then
      (if isAbsolute then "/" else if trailingSeparator then "./" else ".")
    else
      let p' := if trailingSeparator then p +:+ "/" else p in
      if isAbsolute then "/" +:+ p' else p'.

(** [path.join(a, b)]: empty arguments are skipped. *)
Definition join (a b : string) : string :=
  if String.eqb a "" then (if String.eqb b "" then "." else normalize b)
  else if String.eqb b "" then normalize a
  else normalize (a +:+ "/" +:+ b).

(** [path.resolve(p)] in a process whose working directory is [cwd]. *)
Definition resolve (cwd : string) (p : string) : string :=
  let '(resolvedPath, resolvedAbsolute) :=
    if String.eqb p "" then ("", false) else (p +:+ "/", JS.startsWith p "/") in
  let '(resolvedPath, resolvedAbsolute) :=
    if resolvedAbsolute then (resolvedPath, true)
    else if String.eqb cwd "" then (resolvedPath, false)
    else (cwd +:+ "/" +:+ resolvedPath, JS.startsWith cwd "/") in
  let normalized := normalizeString resolvedPath (negb resolvedAbsolute) in
  if resolvedAbsolute then "/" +:+ normalized
  else if String.eqb normalized "" then "." else normalized.

(** The scan of [path.dirname]: from the last character down to index 1,
    the index of the separator that ends the directory part. *)
Fixpoint dirname_scan (path : string) (n : nat) (matchedSlash : bool) : option nat :=
  match n with
  | 0 => None
  | S i =>
      match i with
      | 0 => None
      | S _ =>
          match String.get i path with
          | Some c =>
              if Ascii.eqb c "/" then
                if negb matchedSlash then Some i
                else dirname_scan path i matchedSlash
              else dirname_scan path i false
          | None => None
          end
      end
  end.

(** [path.dirname]. *)
Definition dirname (path : string) : string :=
  if String.eqb path "" then "."
  else
    let hasRoot := JS.startsWith path "/" in
    match dirname_scan path (String.length path) true with
    | None => if hasRoot then "/" else "."
    | Some end_ =>
        if hasRoot && Nat.eqb end_ 1 then "//" else String.substring 0 end_ path
    end.

(** The state of the scan of [path.extname]. *)
Record ExtScan := {
  startDot : Z;
  startPart : Z;
  end_ : Z;
  matchedSlash : bool;
  preDotState : Z
}.

Definition ext_init : ExtScan :=
  {| startDot := -1; startPart := 0; end_ := -1; matchedSlash := true; preDotState := 0 |}.

Fixpoint extname_scan (path : string) (n : nat) (st : ExtScan) : ExtScan :=
  match n with
  | 0 => st
  | S i =>
      match String.get i path with
      | None => st
      | Some code =>
          if Ascii.eqb code "/" then
            if negb (matchedSlash st)
            then {| startDot := startDot st; startPart := Z.of_nat i + 1; end_ := end_ st;
                    matchedSlash := matchedSlash st; preDotState := preDotState st |}
            else extname_scan path i st
          else
            let st1 :=
              if (end_ st =? -1)%Z
              then {| startDot := startDot st; startPart := startPart st;
                      end_ := Z.of_nat i + 1; matchedSlash := false;
                      preDotState := preDotState st |}
              else st in
            let st2 :=
              if Ascii.eqb code "." then
                if (startDot st1 =? -1)%Z
                then {| startDot := Z.of_nat i; startPart := startPart st1; end_ := end_ st1;
                        matchedSlash := matchedSlash st1; preDotState := preDotState st1 |}
                else if negb (preDotState st1 =? 1)%Z
                then {| startDot := startDot st1; startPart := startPart st1; end_ := end_ st1;
                        matchedSlash := matchedSlash st1; preDotState := 1 |}
                else st1
              else if negb (startDot st1 =? -1)%Z
              then {| startDot := startDot st1; startPart := startPart st1; end_ := end_ st1;
                      matchedSlash := matchedSlash st1; preDotState := -1 |}
              else st1 in
            extname_scan path i st2
      end
  end.

(** [path.extname]. *)
Definition extname (path : string) : string :=
  let st := extname_scan path (String.length path) ext_init in
  if (startDot st =? -1)%Z || (end_ st =? -1)%Z || (preDotState st =? 0)%Z
     || ((preDotState st =? 1)%Z && (startDot st =? end_ st - 1)%Z
         && (startDot st =? startPart st + 1)%Z)
  then ""
  else String.substring (Z.to_nat (startDot st)) (Z.to_nat (end_ st - startDot st)) path.

End Path.

(** ** Utility functions of the server *)

(** [buf.toString('hex')]: two lowercase hexadecimal digits per byte. *)
Definition hex_digit (n : N) : ascii :=
  (match n with
   | 0 => "0" | 1 => "1" | 2 => "2" | 3 => "3" | 4 => "4" | 5 => "5" | 6 => "6" | 7 => "7"
   | 8 => "8" | 9 => "9" | 10 => "a" | 11 => "b" | 12 => "c" | 13 => "d" | 14 => "e"
   | _ => "f"
   end%N)%char.

Fixpoint toString_hex (buf : list byte) : string :=
  match buf with
  | [] => ""
  | b :: rest =>
      String (hex_digit (Byte.to_N b / 16)) (String (hex_digit (Byte.to_N b mod 16))
        (toString_hex rest))
  end.

(** [crypto.randomBytes(32).toString('hex')]; [randomBytes] is the entropy
    source, which returns as many bytes as it is asked for. *)
Definition generateSecureSessionId (randomBytes : nat -> list byte) : string :=
  toString_hex (randomBytes 32).

(** [s.replace(/^(\.\.[\/\\])+/, '')]: the longest leading run of [../]
    and [..\] is removed. *)
Fixpoint replace_leading_parents (s : string) : string :=
  match s with
  | String "." (String "." (String c rest)) =>
      if Ascii.eqb c "/" || Ascii.eqb c "\" then replace_leading_parents rest else s
  | _ => s
  end.

Definition sanitizePath (unsafePath : string) : string :=
  let normalized := replace_leading_parents (Path.normalize unsafePath) in
  JS.join_with "/" (JS.split_on Path.sep normalized).

Definition validatePath (cwd : string) (basePath targetPath : string) : bool :=
  let resolvedBase := Path.resolve cwd basePath in
  let resolvedTarget := Path.resolve cwd targetPath in
  JS.startsWith resolvedTarget resolvedBase.

Definition is_filename_char (c : ascii) : bool :=
  JS.in_range "a" "z" c || JS.in_range "A" "Z" c || JS.in_range "0" "9" c
  || Ascii.eqb c "_" || Ascii.eqb c "-" || Ascii.eqb c ".".

Fixpoint all_chars (p : ascii -> bool) (s : string) : bool :=
  match s with
  | EmptyString => true
  | String c s' => p c && all_chars p s'
  end.

(** [/^[a-zA-Z0-9_\-\.]+$/.test(filename)]. *)
Definition isValidFilename (filename : string) : bool :=
  negb (String.eqb filename "") && all_chars is_filename_char filename.

Definition is_lower_hex (c : ascii) : bool :=
  JS.in_range "a" "f" c || JS.in_range "0" "9" c.

(** [c{n}$]: exactly [n] characters of the class, then the end of input. *)
Fixpoint match_exactly (p : ascii -> bool) (n : nat) (s : string) : bool :=
  match n, s with
  | 0, EmptyString => true
  | S n', String c s' => p c && match_exactly p n' s'
  | _, _ => false
  end.

(** [/^[a-f0-9]{64}$/.test(sessionId)]. *)
Definition isValidSessionId (sessionId : string) : bool :=
  match_exactly is_lower_hex 64 sessionId.

Definition isAllowedFileExtension (filename : string) : bool :=
  let allowed := [".glb"; ".mind"; ".json"] in
  let ext := JS.toLowerCase (Path.extname filename) in
  JS.includes allowed ext.

(** What [validateImageBuffer] returns: [{ valid, type }]. *)
Record ImageCheck := { valid : bool; type : option string }.

(** [uint8[i] === b]; reading past the end gives [undefined], which is
    equal to no byte. *)
Definition byte_at (uint8 : list byte) (i : nat) (b : byte) : bool :=
  match nth_error uint8 i with
  | Some x => Byte.eqb x b
  | None => false
  end.

Definition validateImageBuffer (buffer : list byte) : ImageCheck :=
  let uint8 := firstn 4 buffer in
  if byte_at uint8 0 x89 && byte_at uint8 1 x50 && byte_at uint8 2 x4e && byte_at uint8 3 x47
  then {| valid := true; type := Some "image/png" |}
  else if byte_at uint8 0 xff && byte_at uint8 1 xd8 && byte_at uint8 2 xff
  then {| valid := true; type := Some "image/jpeg" |}
  else if byte_at uint8 0 x52 && byte_at uint8 1 x49 && byte_at uint8 2 x46 && byte_at uint8 3 x46
  then {| valid := true; type := Some "image/webp" |}
  else {| valid := false; type := None |}.

(** [isAllowedDomain]; [URL_hostname url] is the [hostname] of [new URL(url)],
    or [None] when the constructor throws. *)
Definition isAllowedDomain (URL_hostname : string -> option string) (url : string) : bool :=
  match URL_hostname url with
  | Some hostname =>
      let allowedDomains := ["drive.google.com"; "lh3.googleusercontent.com"] in
      JS.includes allowedDomains hostname
  | None => false
  end.

(** [/^172\.(1[6-9]|2[0-9]|3[0-1])\./.test(h)]. *)
Definition matches_class_b (h : string) : bool :=
  match h with
  | String "1" (String "7" (String "2" (String "." (String a (String b (String "." _)))))) =>
      (Ascii.eqb a "1" && JS.in_range "6" "9" b)
      || (Ascii.eqb a "2" && JS.in_range "0" "9" b)
      || (Ascii.eqb a "3" && JS.in_range "0" "1" b)
  | _ => false
  end.

Definition isPrivateIP (hostname : string) : bool :=
  let privateRanges : list (string -> bool) :=
    [ (fun h => JS.startsWith h "127.");
      (fun h => JS.startsWith h "10.");
      matches_class_b;
      (fun h => JS.startsWith h "192.168.");
      (fun h => JS.startsWith h "169.254.");
      (fun h => String.eqb h "::1");
      (fun h => JS.startsWith h "fc00:");
      (fun h => JS.startsWith h "fe80:") ] in
  existsb (fun pattern => pattern hostname) privateRanges.

(** ** The file system *)

(** The calls of [fs] the server makes. *)
Inductive FsOp :=
| ExistsSync (p : string)
| MkdirSync (p : string)
| WriteFileSync (p : string) (data : list byte)
| CreateWriteStream (p : string).

(** Directories and regular files, keyed by their resolved path, and the log
    of the calls made so far (oldest first). *)
Record FileSystem := {
  dirs : gset string;
  files : gmap string (list byte);
  log : list FsOp
}.

Definition record_op (op : FsOp) (fs : FileSystem) : FileSystem :=
  {| dirs := dirs fs; files := files fs; log := (log fs ++ [op])%list |}.

(** A path that holds a NUL character: the calls of [fs] that change the
    file system refuse it (ERR_INVALID_ARG_VALUE). *)
Definition has_nul (p : string) : bool :=
  negb (all_chars (fun c => negb (Ascii.eqb c "000")) p).

(** A regular file sits at the resolved path [key]. *)
Definition is_file (fs : FileSystem) (key : string) : bool :=
  bool_decide (is_Some (files fs !! key)).

Section FileSystemCalls.
Variable cwd : string.

Definition existsSync (p : string) (fs : FileSystem) : bool * FileSystem :=
  let key := Path.resolve cwd p in
  (bool_decide (key ∈ dirs fs) || bool_decide (is_Some (files fs !! key)),
   record_op (ExistsSync p) fs).

(** The directories [mkdirSync(p, { recursive: true })] makes sure exist:
    [p] and each of its ancestors below the root. *)
Definition ancestors (p : string) : list string :=
  let segs := filter (fun s => s ≠ "") (JS.split_on Path.sep (Path.resolve cwd p)) in
  map (fun k => "/" +:+ JS.join_with "/" (take k segs)) (seq 1 (length segs)).

(** The ancestors of [p] below the root, [p] itself left out. *)
Definition proper_ancestors (p : string) : list string :=
  let segs := filter (fun s => s ≠ "") (JS.split_on Path.sep (Path.resolve cwd p)) in
  map (fun k => "/" +:+ JS.join_with "/" (take k segs)) (seq 1 (length segs - 1)).

(** When [mkdirSync(p, { recursive: true })] throws: [p] holds a NUL, or [p]
    or one of its ancestors is a regular file (EEXIST, ENOTDIR). *)
Definition mkdirSync_throws (p : string) (fs : FileSystem) : bool :=
  has_nul p || existsb (is_file fs) (ancestors p).

(** [mkdirSync(p, { recursive: true })]: [None] when the call throws, the
    file system being then as it was. *)
Definition mkdirSync (p : string) (fs : FileSystem) : option FileSystem :=
  if mkdirSync_throws p fs then None
  else Some (record_op (MkdirSync p)
               {| dirs := dirs fs ∪ list_to_set (ancestors p); files := files fs;
                  log := log fs |}).

(** The directory a file at the resolved path [key] is created in is
    missing; the root always exists. *)
Definition parent_missing (key : string) (fs : FileSystem) : bool :=
  let parent := Path.dirname key in
  negb (String.eqb parent "/") && negb (bool_decide (parent ∈ dirs fs)).

(** When [writeFileSync(p, data)] throws: [p] holds a NUL, [p] ends with a
    separator or is a directory (EISDIR), one of its ancestors is a regular
    file (ENOTDIR), or the directory it would be created in is missing
    (ENOENT). *)
Definition writeFileSync_throws (p : string) (fs : FileSystem) : bool :=
  has_nul p
  || JS.last_char_is "/" p
  || bool_decide (Path.resolve cwd p ∈ dirs fs)
  || existsb (is_file fs) (proper_ancestors p)
  || parent_missing (Path.resolve cwd p) fs.

(** [writeFileSync(p, data)]: [None] when the call throws, the file system
    being then as it was. *)
Definition writeFileSync (p : string) (data : list byte) (fs : FileSystem)
  : option FileSystem :=
  if writeFileSync_throws p fs then None
  else Some (record_op (WriteFileSync p data)
               {| dirs := dirs fs; files := <[Path.resolve cwd p := data]> (files fs);
                  log := log fs |}).

(** [fs.createWriteStream(p)]: the file is created, or truncated, in place. *)
Definition createWriteStream (p : string) (fs : FileSystem) : FileSystem :=
  record_op (CreateWriteStream p)
    {| dirs := dirs fs; files := <[Path.resolve cwd p := []]> (files fs); log := log fs |}.

(** A chunk piped into the stream opened on [p]. *)
Definition stream_write (p : string) (chunk : list byte) (fs : FileSystem) : FileSystem :=
  {| dirs := dirs fs;
     files := <[Path.resolve cwd p := (default [] (files fs !! Path.resolve cwd p) ++ chunk)%list]>
                (files fs);
     log := log fs |}.
End FileSystemCalls.

(** How a statement of a handler ends: it completes, or it throws, and the
    [catch] of the handler takes over. *)
Inductive Completion := Completed | Thrown.

(** The outcome of a call that may throw, with the file system it leaves. *)
Definition attempt (call : option FileSystem) (fs : FileSystem) : Completion * FileSystem :=
  match call with
  | Some fs' => (Completed, fs')
  | None => (Thrown, fs)
  end.

(** ** Buffers and request bodies *)

(** The encodings the server delegates to the runtime. *)
Class Codec := {
  JsonValue : Type;
  (** [JSON.stringify(content, null, 2)] *)
  JSON_stringify : JsonValue -> string;
  (** [Buffer.from(s)] *)
  Buffer_from : string -> list byte;
  (** [Buffer.from(s, 'base64')] *)
  Buffer_from_base64 : string -> list byte
}.

(** [content] together with the [type] that says how to decode it. *)
Inductive Payload `{Codec} :=
| Base64 (content : string)        (* type === 'base64' *)
| JsonData (content : JsonValue)   (* type === 'json' *)
| Raw (content : string)           (* any other type *)
| Undecodable.                     (* a [content] on which the decoding of its
                                      type throws a TypeError: it is missing,
                                      or not a string where one is needed *)

(** One element of [files]: [{ path, content, type }].  [fd_path] is [None]
    when the element has no [path] that is a string (or is not an object):
    [path.normalize] then throws a TypeError. *)
Record FileData `{Codec} := {
  fd_path : option string;
  fd_payload : Payload
}.

(** The body of [POST /api/create-zip]. *)
Record CreateZipBody `{Codec} := {
  sessionId : string;
  body_files : list FileData
}.

Inductive Response :=
| ErrorJson (status : nat) (error : string)
| ZipReady (downloadUrl : string)
| SendText (status : nat) (text : string)
| Download (filePath filename : string) (data : list byte)
| NoResponse.

Definition is_line_terminator (c : ascii) : bool :=
  Ascii.eqb c "010" || Ascii.eqb c "013".

(** The lazy [.*?;base64,] after the leading [data:]: what follows the first
    [;base64,] that no line terminator precedes. *)
Fixpoint after_base64_marker (s : string) : option string :=
  if JS.startsWith s ";base64," then Some (JS.drop 8 s)
  else match s with
       | EmptyString => None
       | String c s' => if is_line_terminator c then None else after_base64_marker s'
       end.

(** [content.replace(/^data:.*?;base64,/, '')]. *)
Definition strip_data_url (content : string) : string :=
  if JS.startsWith content "data:" then
    match after_base64_marker (JS.drop 5 content) with
    | Some rest => rest
    | None => content
    end
  else content.

Definition MAX_FILE_BYTES : Z := 20 * 1024 * 1024.

(** ** [createZip] *)

(** What the archiver and the output stream emit while an archive is built. *)
Inductive StreamEvent :=
| ArchiveData (chunk : list byte)   (* a chunk piped from the archive into the output *)
| ArchiveError                      (* archive 'error' *)
| OutputClose.                      (* output 'close' *)

Inductive Promise := PromisePending | Fulfilled | Rejected.

(** [resolve()] and [reject(err)] settle a promise once. *)
Definition settle (p outcome : Promise) : Promise :=
  match p with
  | PromisePending => outcome
  | _ => p
  end.

Fixpoint run_stream (cwd outputPath : string) (events : list StreamEvent)
    (closed : bool) (p : Promise) (fs : FileSystem) : Promise * FileSystem :=
  match events with
  | [] => (p, fs)
  | ArchiveData chunk :: rest =>
      run_stream cwd outputPath rest closed p
        (if closed then fs else stream_write cwd outputPath chunk fs)
  | ArchiveError :: rest =>
      run_stream cwd outputPath rest closed (settle p Rejected) fs
  | OutputClose :: rest =>
      run_stream cwd outputPath rest true (settle p Fulfilled) fs
  end.

(** [createZip(sourceDir, outputPath)]: the output stream is opened on
    [outputPath] itself, [output.on('close')] resolves and
    [archive.on('error')] rejects. *)
Definition createZip (cwd : string) (events : list StreamEvent)
    (sourceDir outputPath : string) (fs : FileSystem) : Promise * FileSystem :=
  let fs := createWriteStream cwd outputPath fs in
  run_stream cwd outputPath events false PromisePending fs.

(** ** The handlers *)

Section Handlers.
Context `{Codec}.
Variables (cwd __dirname : string).

Definition TEMP_DIR : string := Path.join __dirname "temp".

(** [if (!fs.existsSync(p)) fs.mkdirSync(p, { recursive: true })]. *)
Definition ensure_dir (p : string) (fs : FileSystem) : Completion * FileSystem :=
  let '(found, fs) := existsSync cwd p fs in
  if found then (Completed, fs) else attempt (mkdirSync cwd p fs) fs.

(** The body of the loop over [files]: each [continue] completes with the
    file system as it is at that point, and a call that throws leaves the
    loop. *)
Definition save_file (outputDir : string) (fs : FileSystem) (fileData : FileData)
  : Completion * FileSystem :=
  match fd_path fileData with
  | None => (Thrown, fs)
  | Some filePath =>
      let safePath := sanitizePath filePath in
      if String.eqb safePath "" || Nat.ltb 255 (String.length safePath) then (Completed, fs)
      else
        let fullPath := Path.join outputDir safePath in
        if negb (validatePath cwd outputDir fullPath) then (Completed, fs)
        else if negb (isAllowedFileExtension fullPath) then (Completed, fs)
        else
          let dirPath := Path.dirname fullPath in
          match ensure_dir dirPath fs with
          | (Thrown, fs) => (Thrown, fs)
          | (Completed, fs) =>
              match fd_payload fileData with
              | Base64 content =>
                  if (Z.of_nat (String.length content) >? MAX_FILE_BYTES)%Z
                  then (Completed, fs)
                  else
                    let base64Data := strip_data_url content in
                    let buffer := Buffer_from_base64 base64Data in
                    if (Z.of_nat (length buffer) >? MAX_FILE_BYTES)%Z then (Completed, fs)
                    else attempt (writeFileSync cwd fullPath buffer fs) fs
              | JsonData content =>
                  let buffer := Buffer_from (JSON_stringify content) in
                  if (Z.of_nat (length buffer) >? MAX_FILE_BYTES)%Z then (Completed, fs)
                  else attempt (writeFileSync cwd fullPath buffer fs) fs
              | Raw content =>
                  let buffer := Buffer_from content in
                  if (Z.of_nat (length buffer) >? MAX_FILE_BYTES)%Z then (Completed, fs)
                  else attempt (writeFileSync cwd fullPath buffer fs) fs
              | Undecodable => (Thrown, fs)
              end
          end
  end.

(** [for (const fileData of files) { ... }]: the loop ends with the first
    entry that throws. *)
Fixpoint save_files (outputDir : string) (files : list FileData) (fs : FileSystem)
  : Completion * FileSystem :=
  match files with
  | [] => (Completed, fs)
  | fileData :: rest =>
      match save_file outputDir fs fileData with
      | (Completed, fs) => save_files outputDir rest fs
      | (Thrown, fs) => (Thrown, fs)
      end
  end.

(** [POST /api/create-zip]; [events] is what the archiver and the output
    stream emit once [createZip] has started them.  Whatever is thrown
    inside the [try] is answered by the [catch]. *)
Definition create_zip (events : list StreamEvent) (body : CreateZipBody)
    (fs : FileSystem) : Response * FileSystem :=
  let sessionId := sessionId body in
  let files := body_files body in
  if String.eqb sessionId "" || negb (isValidSessionId sessionId)
  then (ErrorJson 400 "Invalid session ID", fs)
  else if Nat.eqb (length files) 0
  then (ErrorJson 400 "Invalid files array", fs)
  else if Nat.ltb 1000 (length files)
  then (ErrorJson 400 "Too many files", fs)
  else
    let sessionDir := Path.join TEMP_DIR sessionId in
    let outputDir := Path.join sessionDir "output" in
    if negb (validatePath cwd TEMP_DIR sessionDir)
    then (ErrorJson 400 "Invalid path", fs)
    else
      match ensure_dir outputDir fs with
      | (Thrown, fs) => (ErrorJson 500 "Internal server error", fs)
      | (Completed, fs) =>
          match save_files outputDir files fs with
          | (Thrown, fs) => (ErrorJson 500 "Internal server error", fs)
          | (Completed, fs) =>
              let zipPath := Path.join sessionDir "ar_output.zip" in
              match createZip cwd events outputDir zipPath fs with
              | (Fulfilled, fs) =>
                  (ZipReady ("/download/" +:+ sessionId +:+ "/ar_output.zip"), fs)
              | (Rejected, fs) => (ErrorJson 500 "Internal server error", fs)
              | (PromisePending, fs) => (NoResponse, fs)
              end
          end
      end.

(** [GET /download/:sessionId/:filename], up to the response; the deferred
    removal of the session directory is a timer and is left out. *)
Definition download (sessionId filename : string) (fs : FileSystem)
  : Response * FileSystem :=
  if negb (isValidSessionId sessionId) then (SendText 400 "Invalid session ID", fs)
  else if negb (isValidFilename filename) then (SendText 400 "Invalid filename", fs)
  else
    let sessionDir := Path.join TEMP_DIR sessionId in
    let filePath := Path.join sessionDir filename in
    if negb (validatePath cwd sessionDir filePath) then (SendText 400 "Invalid path", fs)
    else
      let '(found, fs) := existsSync cwd filePath fs in
      if found then
        match files fs !! Path.resolve cwd filePath with
        | Some data => (Download filePath filename data, fs)
        | None => (SendText 500 "Download failed", fs)
        end
      else (SendText 404 "File not found", fs).
End Handlers.

(** ** [GET /api/proxy-image] *)

Definition is_id_char (c : ascii) : bool :=
  JS.in_range "a" "z" c || JS.in_range "A" "Z" c || JS.in_range "0" "9" c
  || Ascii.eqb c "_" || Ascii.eqb c "-".

Fixpoint take_while (p : ascii -> bool) (s : string) : string :=
  match s with
  | EmptyString => ""
  | String c s' => if p c then String c (take_while p s') else ""
  end.

(** The capture of [s.match(/LIT([a-zA-Z0-9_-]+)/)] anchored at the start of
    [s]: [lit], then the longest non-empty run of identifier characters. *)
Definition capture_here (lit s : string) : option string :=
  if JS.startsWith s lit then
    let id := take_while is_id_char (JS.drop (String.length lit) s) in
    if String.eqb id "" then None else Some id
  else None.

(** The leftmost match. *)
Fixpoint capture_after (lit s : string) : option string :=
  match capture_here lit s with
  | Some id => Some id
  | None =>
      match s with
      | EmptyString => None
      | String _ s' => capture_after lit s'
      end
  end.

Definition driveMatch1 (url : string) : option string :=
  capture_after "drive.google.com/file/d/" url.

Definition driveMatch2 (url : string) : option string :=
  capture_after "drive.google.com/open?id=" url.

Definition direct_download (fileId : string) : string :=
  "https://drive.google.com/uc?export=download&id=" +:+ fileId +:+ "&confirm=t".

(** "Convert Google Drive URL if needed". *)
Definition fetchUrl (url : string) : string :=
  match driveMatch1 url with
  | Some fileId => direct_download fileId
  | None =>
      match driveMatch2 url with
      | Some fileId => direct_download fileId
      | None => url
      end
  end.

(** What the handler has decided when validation is over: an error response,
    or the URL it is about to fetch. *)
Inductive ProxyDecision :=
| ProxyReject (status : nat) (error : string)
| ProxyFetch (target : string).

Section Proxy.
(** [validator.isURL(url, { protocols: ['https'], require_protocol: true })]
    and the [hostname] of [new URL(url)]. *)
Variable isURL_https : string -> bool.
Variable URL_hostname : string -> option string.

(** [url] is [None] when the query parameter is missing or not a string. *)
Definition proxy_image_validate (url : option string) : ProxyDecision :=
  match url with
  | None => ProxyReject 400 "Invalid URL parameter"
  | Some url =>
      if String.eqb url "" then ProxyReject 400 "Invalid URL parameter"
      else if negb (isURL_https url)
      then ProxyReject 400 "Invalid URL format. Only HTTPS URLs are allowed."
      else if negb (isAllowedDomain URL_hostname url)
      then ProxyReject 403 "Domain not allowed"
      else ProxyFetch (fetchUrl url)
  end.
End Proxy.

(** The upstream answer: [response.ok], [response.status], the body and the
    Content-Type the remote server declared. *)
Record Upstream := {
  up_ok : bool;
  up_status : nat;
  up_body : list byte;
  up_declared_type : option string
}.

Inductive ProxyResponse :=
| ProxyError (status : nat) (error : string)
| ProxyImage (contentType : string) (body : list byte).

(** The handler once the fetch has returned. *)
Definition proxy_image_respond (response : Upstream) : ProxyResponse :=
  if negb (up_ok response) then ProxyError (up_status response) "Failed to fetch image"
  else
    let buffer := up_body response in
    let MAX_SIZE := (10 * 1024 * 1024)%Z in
    if (Z.of_nat (length buffer) >? MAX_SIZE)%Z then ProxyError 413 "File too large"
    else
      let validation := validateImageBuffer buffer in
      if negb (valid validation) then ProxyError 400 "Invalid image file"
      else ProxyImage (default "" (type validation)) buffer.

(** ** Notions the properties are stated with *)

(** What the specification calls a session identifier: 64 characters, each a
    lowercase hexadecimal digit. *)
Definition is_session_identifier (s : string) : Prop :=
  String.length s = 64 /\ all_chars is_lower_hex s = true.

Definition png_check : ImageCheck := {| valid := true; type := Some "image/png" |}.
Definition jpeg_check : ImageCheck := {| valid := true; type := Some "image/jpeg" |}.
Definition webp_check : ImageCheck := {| valid := true; type := Some "image/webp" |}.
Definition invalid_check : ImageCheck := {| valid := false; type := None |}.

(** [buffer] begins with the bytes [magic]. *)
Fixpoint begins_with (magic buffer : list byte) : bool :=
  match magic, buffer with
  | [], _ => true
  | m :: magic', b :: buffer' => Byte.eqb m b && begins_with magic' buffer'
  | _ :: _, [] => false
  end.


(** A path segment that [normalizeString] keeps as it is: not empty, not
    ["."], not [".."], and without a separator. *)
Definition no_slash (s : string) : bool :=
  all_chars (fun c => negb (Ascii.eqb c "/")) s.

Definition is_ordinary (s : string) : bool :=
  negb (String.eqb s "") && negb (String.eqb s ".") && negb (String.eqb s "..")
  && no_slash s.

(** The absolute path with the given segments; [abs_path []] is the root. *)
Definition abs_path (segs : list string) : string := "/" +:+ JS.join_with "/" segs.

(** The non-empty segments of a path. *)
Definition segments (p : string) : list string :=
  filter (fun s => s ≠ "") (JS.split_on Path.sep p).

(** [target] is [base] or lies below it, segment by segment. *)
Definition path_within (base target : string) : Prop :=
  segments base `prefix_of` segments target.

(** The segments [normalizeString] pushes when there is no [".."] among them. *)
Definition kept_segments (segs : list string) : list string :=
  filter (fun s => s ≠ "" /\ s ≠ ".") segs.

(** The segments of [t] are some [".."] followed by segments none of which
    is [".."]: the shape [path.normalize] gives to a path. *)
Definition parents_first (t : string) : Prop :=
  exists (k : nat) (l : list string),
    JS.split_on Path.sep t = (repeat ".." k ++ l)%list /\ Forall (fun seg => seg <> "..") l.

(** The result of [normalizeString], last segment first: ordinary segments
    above a run of [".."], which is empty unless [allowAboveRoot]. *)
Definition stack_shape (allowAboveRoot : bool) (res : list string) : Prop :=
  exists (ords : list string) (k : nat),
    res = (ords ++ repeat ".." k)%list
    /\ Forall (fun seg => is_ordinary seg = true) ords
    /\ (allowAboveRoot = false -> k = 0).

(** The calls made between two states of the file system. *)
Definition log_since (before after : FileSystem) : list FsOp :=
  drop (length (log before)) (log after).

(** The files a sequence of calls writes with [writeFileSync], in order. *)
Definition written (ops : list FsOp) : list (string * list byte) :=
  omap (fun op => match op with
                  | WriteFileSync p data => Some (p, data)
                  | _ => None
                  end) ops.

(** [op] changes nothing outside [base], the archive apart: a directory it
    makes and a file it writes with [writeFileSync] are [base] or lie below
    it, and a stream it opens is the one of the archive, at [zipPath]. *)
Definition stays_within (cwd base zipPath : string) (op : FsOp) : Prop :=
  match op with
  | ExistsSync _ => True
  | MkdirSync p | WriteFileSync p _ =>
      path_within (Path.resolve cwd base) (Path.resolve cwd p)
  | CreateWriteStream p => p = zipPath
  end.

Section Entries.
Context `{Codec}.

(** The path of an entry, when it has one. *)
Definition entry_path (entry : FileData) : string := default "" (fd_path entry).

(** The bytes an entry decodes to. *)
Definition decoded (payload : Payload) : list byte :=
  match payload with
  | Base64 content => Buffer_from_base64 (strip_data_url content)
  | JsonData content => Buffer_from (JSON_stringify content)
  | Raw content => Buffer_from content
  | Undecodable => []
  end.

(** Oversized before decoding (the base64 text) or after it. *)
Definition oversized (payload : Payload) : bool :=
  match payload with
  | Base64 content => (Z.of_nat (String.length content) >? MAX_FILE_BYTES)%Z
  | _ => false
  end
  || (Z.of_nat (length (decoded payload)) >? MAX_FILE_BYTES)%Z.

(** The checks on the path of an entry: its sanitized path is empty or
    longer than 255 characters, the joined path fails the containment check,
    or its extension is not allowed. *)
Definition fails_path_checks (cwd outputDir : string) (entry : FileData) : bool :=
  let safePath := sanitizePath (entry_path entry) in
  let fullPath := Path.join outputDir safePath in
  String.eqb safePath ""
  || Nat.ltb 255 (String.length safePath)
  || negb (validatePath cwd outputDir fullPath)
  || negb (isAllowedFileExtension fullPath).

(** The ways an entry fails validation: one of the checks on its path, or
    its content is oversized. *)
Definition fails_validation (cwd outputDir : string) (entry : FileData) : bool :=
  fails_path_checks cwd outputDir entry || oversized (fd_payload entry).

(** What a valid entry puts on disk. *)
Definition saved_as (outputDir : string) (entry : FileData) : string * list byte :=
  (Path.join outputDir (sanitizePath (entry_path entry)), decoded (fd_payload entry)).

(** What makes the handling of an entry throw: the entry has no string
    path; or its path passes the checks and its directory cannot be made,
    its content cannot be decoded, or, the content not being oversized, the
    file cannot be written. *)
Definition throws_on (cwd outputDir : string) (entry : FileData) : Prop :=
  fd_path entry = None
  \/ (fails_path_checks cwd outputDir entry = false
      /\ ((exists fs, mkdirSync cwd (Path.dirname (saved_as outputDir entry).1) fs = None)
          \/ fd_payload entry = Undecodable
          \/ (oversized (fd_payload entry) = false
              /\ exists fs, writeFileSync cwd (saved_as outputDir entry).1
                              (saved_as outputDir entry).2 fs = None))).
End Entries.

(** The first event that settles the promise of [createZip]. *)
Fixpoint first_settling (events : list StreamEvent) : Promise :=
  match events with
  | [] => PromisePending
  | ArchiveData _ :: rest => first_settling rest
  | ArchiveError :: _ => Rejected
  | OutputClose :: _ => Fulfilled
  end.

(** The bytes piped into the output before it closes. *)
Fixpoint streamed (events : list StreamEvent) : list byte :=
  match events with
  | [] => []
  | ArchiveData chunk :: rest => (chunk ++ streamed rest)%list
  | ArchiveError :: rest => streamed rest
  | OutputClose :: _ => []
  end.

(** *** Instances used in the examples *)

Module Examples.

(** A runtime whose JSON values are strings and whose buffers hold the
    characters of a string as bytes. *)
#[local] Instance text_codec : Codec := {|
  JsonValue := string;
  JSON_stringify := fun v => v;
  Buffer_from := String.list_byte_of_string;
  Buffer_from_base64 := String.list_byte_of_string
|}.

(** The host of [https://host/...]. *)
Fixpoint until_slash (s : string) : string :=
  match s with
  | EmptyString => ""
  | String c s' => if Ascii.eqb c "/" then "" else String c (until_slash s')
  end.

Definition https_hostname (url : string) : option string :=
  if JS.startsWith url "https://" then Some (until_slash (JS.drop 8 url)) else None.

Definition zero_bytes (n : nat) : list byte := repeat x00 n.

Definition sid : string :=
  "0123456789abcdef0123456789abcdef0123456789abcdef0123456789abcdef".

Definition empty_fs : FileSystem := {| dirs := ∅; files := ∅; log := [] |}.

Definition good_entry : FileData :=
  {| fd_path := Some "a/b.json"; fd_payload := JsonData "{}" |}.

Definition traversal_entry : FileData :=
  {| fd_path := Some "../../etc/passwd"; fd_payload := Raw "root" |}.

Definition batch : CreateZipBody :=
  {| sessionId := sid; body_files := [traversal_entry; good_entry] |}.



End Examples.

(** The answer of [POST /api/create-zip] for each outcome of the build. *)
Definition build_response (sessionId : string) (outcome : Promise) : Response :=
  match outcome with
  | Fulfilled => ZipReady ("/download/" +:+ sessionId +:+ "/ar_output.zip")
  | Rejected => ErrorJson 500 "Internal server error"
  | PromisePending => NoResponse
  end.

(** A Drive file identifier, and a remainder of the URL that does not
    continue it. *)
Definition is_file_id (id : string) : Prop :=
  id <> "" /\ all_chars is_id_char id = true.

Definition ends_id (rest : string) : Prop :=
  match rest with
  | EmptyString => True
  | String c _ => is_id_char c = false
  end.

(** ** The rest of the server *)

(** The [filename] callback of the upload storage:
    [file.originalname.replace(/[^a-zA-Z0-9_\-\.]/g, '_')]. *)
Fixpoint sanitize_filename (originalname : string) : string :=
  match originalname with
  | EmptyString => ""
  | String c rest =>
      String (if is_filename_char c then c else "_"%char) (sanitize_filename rest)
  end.

(** The [fileFilter] of the upload: the declared MIME type is one of three. *)
Definition fileFilter (mimetype : string) : bool :=
  let allowedTypes := ["image/jpeg"; "image/png"; "image/webp"] in
  JS.includes allowedTypes mimetype.

Section Upload.
Variables (cwd __dirname : string) (randomBytes : nat -> list byte).

End Upload.

(** ** Notions the further properties are stated with *)

(** A file name without a separator of either kind. *)
Definition no_backslash (s : string) : bool :=
  all_chars (fun c => negb (Ascii.eqb c "\")) s.

(** An ordinary segment that is also free of backslashes. *)
Definition is_plain (s : string) : bool := is_ordinary s && no_backslash s.

(** A name part without a separator and without a dot. *)
Definition no_dot_no_slash (s : string) : bool :=
  all_chars (fun c => negb (Ascii.eqb c "/") && negb (Ascii.eqb c ".")) s.

(** The [error] field of an error response. *)
Definition response_error (r : Response) : string :=
  match r with
  | ErrorJson _ e => e
  | _ => ""
  end.

(** The text between [data:] and [;base64,] of a data URL: no [;] and no
    line terminator. *)
Definition is_media_type (s : string) : bool :=
  all_chars (fun c => negb (Ascii.eqb c ";") && negb (is_line_terminator c)) s.

(** The decimal digit [d]. *)
Definition digit_char (d : nat) : ascii := ascii_of_nat (48 + d).

(** The value of a lowercase hexadecimal digit. *)
Definition hex_value (c : ascii) : N :=
  let n := N_of_ascii c in
  (if JS.in_range "0" "9" c then n - 48 else n - 87)%N.

(** The bytes a hexadecimal rendering stands for. *)
Fixpoint from_hex (s : string) : option (list byte) :=
  match s with
  | EmptyString => Some []
  | String hi (String lo rest) =>
      match Byte.of_N (16 * hex_value hi + hex_value lo), from_hex rest with
      | Some b, Some buf => Some (b :: buf)
      | _, _ => None
      end
  | String _ EmptyString => None
  end.

(** [fs'] differs from [fs] only within [base]: every file outside [base]
    is as it was, and no directory and no file has gone. *)
Definition changes_only_within (base : string) (fs fs' : FileSystem) : Prop :=
  (forall key, ~ path_within base key -> files fs' !! key = files fs !! key)
  /\ dirs fs ⊆ dirs fs'
  /\ (forall key, is_Some (files fs !! key) -> is_Some (files fs' !! key)).


(** The file map after the files [ws] have been written with
    [writeFileSync], in order. *)
Definition write_all (cwd : string) (ws : list (string * list byte))
    (m : gmap string (list byte)) : gmap string (list byte) :=
  fold_left (fun m w => <[Path.resolve cwd w.1 := w.2]> m) ws m.

(** No regular file sits at the directory with segments [N] or at one of
    its ancestors: nothing stands in the way of making it. *)
Definition clear_of_files (fs : FileSystem) (N : list string) : Prop :=
  forall k, 1 <= k <= length N -> files fs !! abs_path (take k N) = None.

(** ** The earlier server ([server.js])

    The server as it was before validation was added: the same routes, with
    [path.join] of three arguments and no check on identifiers or paths. *)

Module Legacy.

(** [path.join(a, b, c)]: the non-empty arguments joined by [/], then
    normalized. *)
Definition join3 (a b c : string) : string :=
  match filter (fun s => s ≠ "") [a; b; c] with
  | [] => "."
  | args => Path.normalize (JS.join_with "/" args)
  end.

Section Handlers.
Context `{Codec}.
Variables (cwd __dirname : string).

(** [error.message] of the error that reaches the [catch]. *)
Variable error_message : string.

(** The body of the loop over [files]; a call that throws leaves the loop. *)
Definition save_file (outputDir : string) (fs : FileSystem) (fileData : FileData)
  : Completion * FileSystem :=
  match fd_path fileData with
  | None => (Thrown, fs)
  | Some filePath =>
      let fullPath := Path.join outputDir filePath in
      let dirPath := Path.dirname fullPath in
      match ensure_dir cwd dirPath fs with
      | (Thrown, fs) => (Thrown, fs)
      | (Completed, fs) =>
          match fd_payload fileData with
          | Base64 content =>
              let base64Data := strip_data_url content in
              let buffer := Buffer_from_base64 base64Data in
              attempt (writeFileSync cwd fullPath buffer fs) fs
          | JsonData content =>
              let buffer := Buffer_from (JSON_stringify content) in
              attempt (writeFileSync cwd fullPath buffer fs) fs
          | Raw content =>
              let buffer := Buffer_from content in
              attempt (writeFileSync cwd fullPath buffer fs) fs
          | Undecodable => (Thrown, fs)
          end
      end
  end.

(** [for (const fileData of files) { ... }]. *)
Fixpoint save_files (outputDir : string) (files : list FileData) (fs : FileSystem)
  : Completion * FileSystem :=
  match files with
  | [] => (Completed, fs)
  | fileData :: rest =>
      match save_file outputDir fs fileData with
      | (Completed, fs) => save_files outputDir rest fs
      | (Thrown, fs) => (Thrown, fs)
      end
  end.

(** [POST /api/create-zip]. *)
Definition create_zip (events : list StreamEvent) (body : CreateZipBody)
    (fs : FileSystem) : Response * FileSystem :=
  let sessionId := sessionId body in
  let files := body_files body in
  let outputDir := join3 (TEMP_DIR __dirname) sessionId "output" in
  match ensure_dir cwd outputDir fs with
  | (Thrown, fs) => (ErrorJson 500 error_message, fs)
  | (Completed, fs) =>
      match save_files outputDir files fs with
      | (Thrown, fs) => (ErrorJson 500 error_message, fs)
      | (Completed, fs) =>
          let zipPath := join3 (TEMP_DIR __dirname) sessionId "ar_output.zip" in
          match createZip cwd events outputDir zipPath fs with
          | (Fulfilled, fs) =>
              (ZipReady ("/download/" +:+ sessionId +:+ "/ar_output.zip"), fs)
          | (Rejected, fs) => (ErrorJson 500 error_message, fs)
          | (PromisePending, fs) => (NoResponse, fs)
          end
      end
  end.

(** [GET /download/:sessionId/:filename], up to the response; a failing
    [res.download] is only logged. *)
Definition download (sessionId filename : string) (fs : FileSystem)
  : Response * FileSystem :=
  let filePath := join3 (TEMP_DIR __dirname) sessionId filename in
  let '(found, fs) := existsSync cwd filePath fs in
  if found then
    match files fs !! Path.resolve cwd filePath with
    | Some data => (Download filePath filename data, fs)
    | None => (NoResponse, fs)
    end
  else (SendText 404 "File not found", fs).
End Handlers.

End Legacy.

(** * Properties *)

(** ** Strings *)

#[local] Arguments String.append !s1 s2 : simpl nomatch.

Module StrFacts.

Lemma str_app_nil_r (s : string) : s +:+ "" = s.
Proof. induction s as [|c s IH]; simpl; [reflexivity | now rewrite IH]. Qed.

Lemma str_app_assoc (a b c : string) : (a +:+ b) +:+ c = a +:+ (b +:+ c).
Proof. induction a as [|x a IH]; simpl; [reflexivity | now rewrite IH]. Qed.

Lemma str_length_app (a b : string) :
  String.length (a +:+ b) = String.length a + String.length b.
Proof. induction a as [|x a IH]; simpl; [reflexivity | now rewrite IH]. Qed.

Lemma startsWith_app (a b : string) : JS.startsWith (a +:+ b) a = true.
Proof.
  unfold JS.startsWith. induction a as [|x a IH]; simpl.
  - now destruct b.
  - destruct (ascii_dec x x) as [_|ne]; [exact IH | now elim ne].
Qed.

Lemma startsWith_inv (s a : string) :
  JS.startsWith s a = true -> exists rest, s = a +:+ rest.
Proof.
  unfold JS.startsWith. revert s. induction a as [|x a IH]; intros s Hp.
  - exists s. reflexivity.
  - destruct s as [|y s]; simpl in Hp; [discriminate|].
    destruct (ascii_dec x y) as [->|]; [|discriminate].
    destruct (IH s Hp) as [rest ->]. now exists rest.
Qed.

Lemma startsWith_length (s a : string) :
  JS.startsWith s a = true -> String.length a <= String.length s.
Proof.
  intros Hp. destruct (startsWith_inv _ _ Hp) as [rest ->].
  rewrite str_length_app. lia.
Qed.

Lemma all_chars_length_match (p : ascii -> bool) (s : string) :
  match_exactly p (String.length s) s = all_chars p s.
Proof. induction s as [|c s IH]; simpl; [reflexivity | now rewrite IH]. Qed.

Lemma match_exactly_spec (p : ascii -> bool) (n : nat) (s : string) :
  match_exactly p n s = true <-> String.length s = n /\ all_chars p s = true.
Proof.
  revert s. induction n as [|n IH]; intros [|c s]; simpl; try (split; [discriminate | intros [? ?]; discriminate]).
  - split; auto.
  - rewrite andb_true_iff, IH. split.
    + intros [Hc [Hl Ha]]. rewrite Hc, Ha. split; [congruence | reflexivity].
    + intros [Hl Ha]. apply andb_true_iff in Ha as [Hc Ha]. repeat split; congruence.
Qed.

End StrFacts.

(** ** Session identifiers *)

Lemma isValidSessionId_spec (s : string) :
  isValidSessionId s = true <-> is_session_identifier s.
Proof. apply StrFacts.match_exactly_spec. Qed.

Lemma hex_digits_lower (b : byte) :
  is_lower_hex (hex_digit (Byte.to_N b / 16)) = true
  /\ is_lower_hex (hex_digit (Byte.to_N b mod 16)) = true.
Proof. destruct b; split; reflexivity. Qed.

Lemma toString_hex_length (buf : list byte) :
  String.length (toString_hex buf) = 2 * length buf.
Proof. induction buf as [|b buf IH]; simpl; [reflexivity | rewrite IH; lia]. Qed.

Lemma toString_hex_lower (buf : list byte) :
  all_chars is_lower_hex (toString_hex buf) = true.
Proof.
  induction buf as [|b buf IH]; [reflexivity|].
  destruct (hex_digits_lower b) as [Hhi Hlo].
  cbn [toString_hex all_chars]. now rewrite Hhi, Hlo, IH.
Qed.

(** C9: whatever 32 bytes the entropy source returns, the generated
    identifier has 64 characters, all of them lowercase hexadecimal digits,
    and [isValidSessionId] accepts it. *)
Theorem generated_session_id_is_valid (randomBytes : nat -> list byte) :
  (forall n, length (randomBytes n) = n) ->
  is_session_identifier (generateSecureSessionId randomBytes)
  /\ isValidSessionId (generateSecureSessionId randomBytes) = true.
Proof.
  intros Hlen.
  assert (Hid : is_session_identifier (generateSecureSessionId randomBytes)).
  { unfold generateSecureSessionId. split.
    - rewrite toString_hex_length, Hlen. reflexivity.
    - apply toString_hex_lower. }
  split; [exact Hid | now apply isValidSessionId_spec].
Qed.

Lemma generated_session_id_is_valid_witness :
  is_session_identifier (generateSecureSessionId (fun n => repeat xa7 n))
  /\ isValidSessionId (generateSecureSessionId (fun n => repeat xa7 n)) = true.
Proof.
  apply (generated_session_id_is_valid (fun n => repeat xa7 n)).
  intros n. apply repeat_length.
Defined.

(** ** Magic bytes *)

Lemma byte_eqb_sym (a b : byte) : Byte.eqb a b = Byte.eqb b a.
Proof.
  destruct (Byte.eqb a b) eqn:E.
  - apply Byte.byte_dec_bl in E. subst. symmetry. now apply Byte.byte_dec_lb.
  - destruct (Byte.eqb b a) eqn:E'; [|reflexivity].
    apply Byte.byte_dec_bl in E'. subst.
    rewrite (Byte.byte_dec_lb eq_refl) in E. discriminate.
Qed.

Lemma validateImageBuffer_unfold (buffer : list byte) :
  validateImageBuffer buffer =
    if begins_with [x89; x50; x4e; x47] buffer then png_check
    else if begins_with [xff; xd8; xff] buffer then jpeg_check
    else if begins_with [x52; x49; x46; x46] buffer then webp_check
    else invalid_check.
Proof.
  unfold validateImageBuffer, byte_at.
  destruct buffer as [|a [|b [|c [|d rest]]]]; cbn [firstn nth_error begins_with];
    rewrite ?andb_false_r, ?andb_true_r, ?andb_false_l;
    rewrite ?(byte_eqb_sym a), ?(byte_eqb_sym b), ?(byte_eqb_sym c), ?(byte_eqb_sym d);
    rewrite ?andb_assoc; reflexivity.
Qed.

(** C4: the signature alone decides the class.  A buffer that begins
    89 50 4E 47 is PNG, one that begins FF D8 FF is JPEG whatever follows, one
    that begins 52 49 46 46 is WebP, and a buffer that begins with none of the
    three is invalid; the response of the proxy takes its Content-Type from
    this classification and ignores the type the remote server declared. *)
Theorem magic_bytes_decide_the_type :
  (forall rest, validateImageBuffer (x89 :: x50 :: x4e :: x47 :: rest) = png_check)
  /\ (forall rest, validateImageBuffer (xff :: xd8 :: xff :: rest) = jpeg_check)
  /\ (forall rest, validateImageBuffer (x52 :: x49 :: x46 :: x46 :: rest) = webp_check)
  /\ (forall buffer,
        begins_with [x89; x50; x4e; x47] buffer = false ->
        begins_with [xff; xd8; xff] buffer = false ->
        begins_with [x52; x49; x46; x46] buffer = false ->
        validateImageBuffer buffer = invalid_check)
  /\ (forall ok status body declared declared',
        proxy_image_respond
          {| up_ok := ok; up_status := status; up_body := body; up_declared_type := declared |}
        = proxy_image_respond
          {| up_ok := ok; up_status := status; up_body := body; up_declared_type := declared' |}).
Proof.
  repeat split; try (intros rest; rewrite validateImageBuffer_unfold; reflexivity).
  intros buffer Hpng Hjpeg Hwebp.
  rewrite validateImageBuffer_unfold, Hpng, Hjpeg, Hwebp. reflexivity.
Qed.

Lemma magic_bytes_decide_the_type_witness :
  validateImageBuffer [x47; x49; x46; x38] = invalid_check.
Proof.
  destruct magic_bytes_decide_the_type as (_ & _ & _ & Hother & _).
  apply Hother; reflexivity.
Defined.

(** C10 as stated fails: the three bytes FF D8 FF are shorter than four bytes
    and are classified as JPEG. *)
Lemma short_buffer_can_be_jpeg :
  ~ (forall buffer, length buffer < 4 -> validateImageBuffer buffer = invalid_check).
Proof.
  intros Hall. specialize (Hall [xff; xd8; xff]).
  assert (Hlt : length [xff; xd8; xff] < 4) by (simpl; lia).
  specialize (Hall Hlt). discriminate Hall.
Qed.

(** C10, amended: on a buffer shorter than four bytes the classifier returns
    a result (reads past the end compare unequal), never PNG or WebP; the
    result is invalid unless the buffer is exactly FF D8 FF, which is JPEG. *)
Theorem short_buffer_classification (buffer : list byte) :
  length buffer < 4 ->
  (buffer = [xff; xd8; xff] /\ validateImageBuffer buffer = jpeg_check)
  \/ (buffer <> [xff; xd8; xff] /\ validateImageBuffer buffer = invalid_check).
Proof.
  intros Hlen. rewrite validateImageBuffer_unfold.
  destruct buffer as [|a [|b [|c [|d rest]]]]; simpl in Hlen; try lia;
    try (right; split; [discriminate|]; cbn [begins_with];
         rewrite ?andb_false_r; reflexivity).
  cbn [begins_with]. rewrite ?andb_false_r, ?andb_true_r.
  destruct (Byte.eqb xff a) eqn:Ea; [apply Byte.byte_dec_bl in Ea; subst a|].
  2:{ right. split; [|reflexivity]. intros Heq. inversion Heq; subst.
      rewrite (Byte.byte_dec_lb eq_refl) in Ea. discriminate. }
  destruct (Byte.eqb xd8 b) eqn:Eb; [apply Byte.byte_dec_bl in Eb; subst b|].
  2:{ right. split; [|reflexivity]. intros Heq. inversion Heq; subst.
      rewrite (Byte.byte_dec_lb eq_refl) in Eb. discriminate. }
  destruct (Byte.eqb xff c) eqn:Ec; [apply Byte.byte_dec_bl in Ec; subst c|].
  2:{ right. split; [|reflexivity]. intros Heq. inversion Heq; subst.
      rewrite (Byte.byte_dec_lb eq_refl) in Ec. discriminate. }
  left. split; reflexivity.
Qed.

Lemma short_buffer_classification_witness :
  ([x89; x50; x4e] = [xff; xd8; xff] /\ validateImageBuffer [x89; x50; x4e] = jpeg_check)
  \/ ([x89; x50; x4e] <> [xff; xd8; xff]
      /\ validateImageBuffer [x89; x50; x4e] = invalid_check).
Proof.
  apply (short_buffer_classification [x89; x50; x4e]). simpl. lia.
Defined.

(** ** Containment by string prefix *)

(** C2, at the input the specification names: [validatePath] compares the
    resolved strings with [startsWith], so [/base-evil], which is a sibling
    of the base [/base] and not within it, is accepted. *)
Theorem validatePath_accepts_sibling_prefix (cwd : string) :
  validatePath cwd "/base" "/base-evil" = true
  /\ ~ path_within (Path.resolve cwd "/base") (Path.resolve cwd "/base-evil").
Proof.
  split; [reflexivity|].
  unfold path_within.
  change (segments (Path.resolve cwd "/base")) with ["base"].
  change (segments (Path.resolve cwd "/base-evil")) with ["base-evil"].
  intros [rest Hrest]. discriminate Hrest.
Qed.

(** ** The proxy *)

Lemma includes_inv (l : list string) (x : string) :
  JS.includes l x = true -> In x l.
Proof.
  unfold JS.includes. intros Hex. apply existsb_exists in Hex as [y [Hin Heq]].
  apply String.eqb_eq in Heq. now subst.
Qed.

Lemma allowed_hosts_are_public (isURL_https : string -> bool)
    (URL_hostname : string -> option string) (url hostname : string) :
  URL_hostname url = Some hostname ->
  isAllowedDomain URL_hostname url = true ->
  isPrivateIP hostname = false.
Proof.
  unfold isAllowedDomain. intros ->. intros Hin. apply includes_inv in Hin.
  destruct Hin as [<-|[<-|[]]]; reflexivity.
Qed.

(** C3: a URL whose host name matches one of the private, loopback or
    link-local patterns is answered with an error and no fetch is started,
    whatever [validator.isURL] says about its syntax; the four addresses the
    specification names match the patterns. *)
Theorem private_hosts_are_rejected (isURL_https : string -> bool)
    (URL_hostname : string -> option string) (url hostname : string) :
  URL_hostname url = Some hostname ->
  isPrivateIP hostname = true ->
  (exists status error,
      proxy_image_validate isURL_https URL_hostname (Some url) = ProxyReject status error)
  /\ isPrivateIP "127.0.0.1" = true /\ isPrivateIP "10.0.0.5" = true
  /\ isPrivateIP "192.168.1.1" = true /\ isPrivateIP "169.254.0.1" = true.
Proof.
  intros Hhost Hprivate. split; [|repeat split; reflexivity].
  unfold proxy_image_validate.
  destruct (String.eqb url ""); [eauto|].
  destruct (isURL_https url); cbn [negb]; [|eauto].
  destruct (isAllowedDomain URL_hostname url) eqn:Hallowed; cbn [negb]; [|eauto].
  pose proof (allowed_hosts_are_public isURL_https _ _ _ Hhost Hallowed). congruence.
Qed.

(** ** Paths *)

Module PathFacts.
Import StrFacts.

Lemma split_on_not_nil (sep : ascii) (s : string) : JS.split_on sep s <> [].
Proof.
  destruct s as [|c s]; simpl; [discriminate|].
  destruct (Ascii.eqb c sep); [discriminate|].
  destruct (JS.split_on sep s); discriminate.
Qed.

Lemma split_on_app_sep (a b : string) :
  JS.split_on "/" (a +:+ String "/" b) = (JS.split_on "/" a ++ JS.split_on "/" b)%list.
Proof.
  induction a as [|c a IH]; [reflexivity|].
  simpl. rewrite IH. destruct (Ascii.eqb c "/"); [reflexivity|].
  pose proof (split_on_not_nil "/" a) as Hne.
  destruct (JS.split_on "/" a); [contradiction | reflexivity].
Qed.

Lemma split_on_slash_cons (s : string) :
  JS.split_on "/" (String "/" s) = "" :: JS.split_on "/" s.
Proof. reflexivity. Qed.

Lemma split_on_app_slash (a : string) :
  JS.split_on "/" (a +:+ "/") = (JS.split_on "/" a ++ [""])%list.
Proof. apply (split_on_app_sep a ""). Qed.

Lemma split_on_no_slash (s : string) :
  no_slash s = true -> JS.split_on "/" s = [s].
Proof.
  unfold no_slash. induction s as [|c s IH]; [reflexivity|].
  simpl. intros Hc. apply andb_true_iff in Hc as [Hc Hs].
  apply negb_true_iff in Hc. rewrite Hc, (IH Hs). reflexivity.
Qed.

Lemma split_on_segments_no_slash (s : string) :
  Forall (fun seg => no_slash seg = true) (JS.split_on "/" s).
Proof.
  induction s as [|c s IH]; simpl; [repeat constructor|].
  destruct (Ascii.eqb c "/") eqn:Hc; [constructor; [reflexivity | exact IH]|].
  destruct (JS.split_on "/" s) as [|h t]; [repeat constructor; unfold no_slash; simpl; now rewrite Hc|].
  inversion IH as [|? ? Hh Ht]; subst. constructor; [|exact Ht].
  unfold no_slash in *. simpl. now rewrite Hc, Hh.
Qed.

Lemma join_with_cons (x : string) (rest : list string) :
  rest <> [] -> JS.join_with "/" (x :: rest) = x +:+ String "/" (JS.join_with "/" rest).
Proof. destruct rest; [contradiction | reflexivity]. Qed.

Lemma join_split (s : string) : JS.join_with "/" (JS.split_on "/" s) = s.
Proof.
  induction s as [|c s IH]; [reflexivity|].
  simpl. pose proof (split_on_not_nil "/" s) as Hne.
  destruct (Ascii.eqb c "/") eqn:Hc.
  - apply Ascii.eqb_eq in Hc. subst c. rewrite join_with_cons by exact Hne.
    now rewrite IH.
  - destruct (JS.split_on "/" s) as [|h t]; [contradiction|].
    destruct t as [|h' t]; simpl in *; now rewrite <- IH.
Qed.

Lemma split_join (l : list string) :
  l <> [] -> Forall (fun seg => no_slash seg = true) l ->
  JS.split_on "/" (JS.join_with "/" l) = l.
Proof.
  induction l as [|x l IH]; [contradiction|]. intros _ Hall.
  inversion Hall as [|? ? Hx Hl]; subst.
  destruct l as [|y l]; [now apply split_on_no_slash|].
  rewrite join_with_cons by discriminate.
  rewrite split_on_app_sep, split_on_no_slash by exact Hx.
  rewrite IH by (discriminate || exact Hl). reflexivity.
Qed.

Lemma join_with_app (l1 l2 : list string) :
  l1 <> [] -> l2 <> [] ->
  JS.join_with "/" (l1 ++ l2) = JS.join_with "/" l1 +:+ String "/" (JS.join_with "/" l2).
Proof.
  induction l1 as [|x l1 IH]; [contradiction|]. intros _ Hl2.
  destruct l1 as [|y l1].
  - simpl app. now rewrite join_with_cons.
  - change ((x :: y :: l1) ++ l2)%list with (x :: ((y :: l1) ++ l2))%list.
    rewrite join_with_cons by discriminate.
    rewrite IH by (discriminate || exact Hl2).
    rewrite (join_with_cons x (y :: l1)) by discriminate.
    simpl. now rewrite str_app_assoc.
Qed.

Lemma startsWith_slash (q : string) : JS.startsWith (String "/" q) "/" = true.
Proof. unfold JS.startsWith. simpl. now destruct q. Qed.

Lemma normalizeString_absolute (q : string) (allow : bool) :
  Path.normalizeString (String "/" q) allow
  = JS.join_with "/" (rev (Path.norm_segments allow (JS.split_on "/" q) [])).
Proof. reflexivity. Qed.

Lemma resolve_absolute (cwd q : string) :
  Path.resolve cwd (String "/" q)
  = "/" +:+ JS.join_with "/"
              (rev (Path.norm_segments false (JS.split_on "/" (q +:+ "/")) [])).
Proof.
  unfold Path.resolve. cbn [String.eqb]. rewrite startsWith_slash. reflexivity.
Qed.

Lemma normalize_absolute_eq (q : string) :
  Path.normalize (String "/" q)
  = let p := JS.join_with "/" (rev (Path.norm_segments false (JS.split_on "/" q) [])) in
    if String.eqb p "" then "/"
    else "/" +:+ (if JS.last_char_is "/" (String "/" q) then p +:+ "/" else p).
Proof.
  unfold Path.normalize. cbn [String.eqb]. rewrite startsWith_slash. reflexivity.
Qed.

(** *** Ordinary segments *)

Lemma is_ordinary_inv (s : string) :
  is_ordinary s = true -> s <> "" /\ s <> "." /\ s <> ".." /\ no_slash s = true.
Proof.
  unfold is_ordinary. rewrite !andb_true_iff, !negb_true_iff.
  intros [[[H1 H2] H3] H4]. repeat split; try exact H4;
    intros ->; discriminate.
Qed.

Lemma norm_step_ordinary (allow : bool) (res : list string) (seg : string) :
  is_ordinary seg = true -> Path.norm_step allow res seg = seg :: res.
Proof.
  unfold is_ordinary, Path.norm_step.
  rewrite !andb_true_iff, !negb_true_iff. intros [[[-> ->] ->] _]. reflexivity.
Qed.

Lemma norm_step_parent (allow : bool) (top : string) (rest : list string) :
  top <> ".." -> Path.norm_step allow (top :: rest) ".." = rest.
Proof.
  intros Htop. unfold Path.norm_step.
  change (String.eqb ".." "") with false. change (String.eqb ".." ".") with false.
  change (String.eqb ".." "..") with true. cbv iota.
  destruct (String.eqb_spec top ".."); [contradiction | reflexivity].
Qed.

Lemma norm_segments_app (allow : bool) (l1 l2 res : list string) :
  Path.norm_segments allow (l1 ++ l2) res
  = Path.norm_segments allow l2 (Path.norm_segments allow l1 res).
Proof. apply fold_left_app. Qed.

Lemma norm_segments_ordinary (allow : bool) (l res : list string) :
  Forall (fun seg => is_ordinary seg = true) l ->
  Path.norm_segments allow l res = (rev l ++ res)%list.
Proof.
  revert res. induction l as [|x l IH]; intros res Hall; [reflexivity|].
  inversion Hall as [|? ? Hx Hl]; subst.
  cbn [Path.norm_segments fold_left]. rewrite norm_step_ordinary by exact Hx.
  change (fold_left (Path.norm_step allow) l (x :: res))
    with (Path.norm_segments allow l (x :: res)).
  rewrite IH by exact Hl. simpl. now rewrite <- List.app_assoc.
Qed.

(** Without a [".."] among them, the segments are pushed one after the
    other, the empty ones and the ["."] left out. *)
Lemma norm_segments_no_parent (allow : bool) (l res : list string) :
  Forall (fun seg => seg <> "..") l ->
  Path.norm_segments allow l res = (rev (kept_segments l) ++ res)%list.
Proof.
  revert res. induction l as [|x l IH]; intros res Hall; [reflexivity|].
  inversion Hall as [|? ? Hx Hl]; subst.
  cbn [Path.norm_segments fold_left].
  change (fold_left (Path.norm_step allow) l ?r)
    with (Path.norm_segments allow l r).
  rewrite IH by exact Hl. unfold kept_segments. rewrite filter_cons.
  unfold Path.norm_step.
  destruct (String.eqb_spec x "") as [->|Hne1].
  { rewrite decide_False by (intros [? _]; congruence). reflexivity. }
  destruct (String.eqb_spec x ".") as [->|Hne2].
  { rewrite decide_False by (intros [_ ?]; congruence). reflexivity. }
  destruct (String.eqb_spec x "..") as [->|Hne3]; [congruence|].
  rewrite decide_True by (split; assumption).
  simpl. now rewrite <- List.app_assoc.
Qed.

Lemma kept_segments_ordinary (l : list string) :
  Forall (fun seg => no_slash seg = true) l ->
  Forall (fun seg => seg <> "..") l ->
  Forall (fun seg => is_ordinary seg = true) (kept_segments l).
Proof.
  intros Hns Hnp. unfold kept_segments. apply Forall_forall. intros x Hin.
  apply list_elem_of_filter in Hin as [[Hne1 Hne2] Hin].
  rewrite Forall_forall in Hns, Hnp.
  unfold is_ordinary. rewrite !andb_true_iff, !negb_true_iff. repeat split.
  - now apply String.eqb_neq.
  - now apply String.eqb_neq.
  - apply String.eqb_neq. now apply Hnp.
  - now apply Hns.
Qed.

End PathFacts.

Module NormalizeFacts.
Import StrFacts PathFacts.

Lemma norm_step_shape (allow : bool) (res : list string) (seg : string) :
  no_slash seg = true -> stack_shape allow res ->
  stack_shape allow (Path.norm_step allow res seg).
Proof.
  intros Hns (ords & k & -> & Hords & Hk). unfold Path.norm_step.
  destruct (String.eqb_spec seg "") as [->|Hne1]; [now exists ords, k|].
  destruct (String.eqb_spec seg ".") as [->|Hne2]; [now exists ords, k|].
  destruct (String.eqb_spec seg "..") as [->|Hne3].
  - destruct ords as [|o ords].
    + destruct k as [|k]; simpl.
      * destruct allow; [exists [], 1 | exists [], 0]; repeat split; auto; discriminate.
      * destruct allow.
        -- exists [], (S (S k)). repeat split; auto; discriminate.
        -- exists [], (S k). repeat split; auto.
    + inversion Hords as [|? ? Ho Hrest]; subst. simpl.
      destruct (is_ordinary_inv _ Ho) as (_ & _ & Hnp & _).
      destruct (String.eqb_spec o ".."); [contradiction|].
      now exists ords, k.
  - exists (seg :: ords), k. repeat split; auto. constructor; [|exact Hords].
    unfold is_ordinary. rewrite !andb_true_iff, !negb_true_iff.
    repeat split; try (now apply String.eqb_neq). exact Hns.
Qed.

Lemma norm_segments_shape (allow : bool) (segs res : list string) :
  Forall (fun seg => no_slash seg = true) segs -> stack_shape allow res ->
  stack_shape allow (Path.norm_segments allow segs res).
Proof.
  revert res. induction segs as [|x segs IH]; intros res Hall Hres; [exact Hres|].
  inversion Hall; subst. cbn [Path.norm_segments fold_left].
  apply IH; [assumption|]. now apply norm_step_shape.
Qed.

Lemma stack_shape_nil (allow : bool) : stack_shape allow [].
Proof. exists [], 0. repeat split; auto. Qed.

Lemma rev_repeat {A} (x : A) (k : nat) : rev (repeat x k) = repeat x k.
Proof.
  induction k as [|k IH]; [reflexivity|].
  simpl. rewrite IH. clear IH. induction k as [|k IH]; [reflexivity|].
  simpl. now rewrite IH.
Qed.

Lemma join_with_eq_empty (l : list string) :
  Forall (fun seg => seg <> "") l -> JS.join_with "/" l = "" -> l = [].
Proof.
  destruct l as [|x l]; [reflexivity|]. intros Hall Hj.
  inversion Hall as [|? ? Hx _]; subst.
  destruct l; simpl in Hj; [contradiction|].
  destruct x; [contradiction | discriminate].
Qed.

(** The segments of a normalized path: the run of [".."] first. *)
Lemma normalize_parents_first (p : string) : parents_first (Path.normalize p).
Proof.
  unfold Path.normalize.
  destruct (String.eqb_spec p "") as [->|Hp].
  { exists 0, ["."]. split; [reflexivity | repeat constructor; discriminate]. }
  set (isAbs := JS.startsWith p "/").
  unfold Path.normalizeString.
  pose proof (norm_segments_shape (negb isAbs) (JS.split_on Path.sep p) []
                (split_on_segments_no_slash p) (stack_shape_nil _)) as Hshape.
  destruct Hshape as (ords & k & Hst & Hords & Hk). rewrite Hst.
  rewrite rev_app_distr, rev_repeat.
  set (segs := (repeat ".." k ++ rev ords)%list).
  assert (Hns : Forall (fun seg => no_slash seg = true) segs).
  { apply Forall_app. split.
    - apply Forall_forall. intros x Hx. apply list_elem_of_In, repeat_spec in Hx.
      now subst.
    - apply Forall_rev. eapply Forall_impl; [exact Hords|].
      intros x Hx. now apply is_ordinary_inv in Hx. }
  assert (Hnonempty : Forall (fun seg => seg <> "") segs).
  { apply Forall_app. split.
    - apply Forall_forall. intros x Hx. apply list_elem_of_In, repeat_spec in Hx.
      now subst.
    - apply Forall_rev. eapply Forall_impl; [exact Hords|].
      intros x Hx. now apply is_ordinary_inv in Hx. }
  assert (Hnp : Forall (fun seg => seg <> "..") (rev ords)).
  { apply Forall_rev. eapply Forall_impl; [exact Hords|].
    intros x Hx. now apply is_ordinary_inv in Hx. }
  destruct (String.eqb_spec (JS.join_with "/" segs) "") as [Hempty|Hfull].
  - destruct isAbs; [|destruct (JS.last_char_is "/" p)].
    + exists 0, [""; ""]. split; [reflexivity | repeat constructor; discriminate].
    + exists 0, ["."; ""]. split; [reflexivity | repeat constructor; discriminate].
    + exists 0, ["."]. split; [reflexivity | repeat constructor; discriminate].
  - assert (Hsegs : segs <> []) by (intros E; apply Hfull; now rewrite E).
    destruct isAbs eqn:HisAbs.
    + subst segs. rewrite (Hk eq_refl) in *. simpl repeat in *. simpl app in *.
      destruct (JS.last_char_is "/" p).
      * exists 0, ("" :: rev ords ++ [""])%list. split.
        -- change ("/" +:+ JS.join_with "/" (rev ords) +:+ "/")
             with (String "/" (JS.join_with "/" (rev ords) +:+ "/")).
           unfold Path.sep. rewrite split_on_slash_cons.
           rewrite split_on_app_slash, split_join by assumption. reflexivity.
        -- constructor; [discriminate|]. apply Forall_app. split; [exact Hnp|].
           repeat constructor; discriminate.
      * exists 0, ("" :: rev ords). split.
        -- change ("/" +:+ JS.join_with "/" (rev ords))
             with (String "/" (JS.join_with "/" (rev ords))).
           unfold Path.sep. rewrite split_on_slash_cons.
           rewrite split_join by assumption. reflexivity.
        -- constructor; [discriminate | exact Hnp].
    + destruct (JS.last_char_is "/" p).
      * exists k, (rev ords ++ [""])%list. split.
        -- unfold Path.sep. rewrite split_on_app_slash, split_join by assumption.
           subst segs. now rewrite <- List.app_assoc.
        -- apply Forall_app. split; [exact Hnp | repeat constructor; discriminate].
      * exists k, (rev ords). split; [now apply split_join | exact Hnp].
Qed.

End NormalizeFacts.

Module SanitizeFacts.
Import StrFacts PathFacts NormalizeFacts.

Lemma replace_leading_parents_eq (t : string) :
  replace_leading_parents t =
    match t with
    | String a (String b (String c rest)) =>
        if Ascii.eqb a "." && Ascii.eqb b "." && (Ascii.eqb c "/" || Ascii.eqb c "\")
        then replace_leading_parents rest else t
    | _ => t
    end.
Proof.
  destruct t as [|a t]; [reflexivity|].
  destruct a as [[] [] [] [] [] [] [] []]; try (destruct t as [|? [|? ?]]; reflexivity).
  destruct t as [|b t]; [reflexivity|].
  destruct b as [[] [] [] [] [] [] [] []]; destruct t as [|c rest]; reflexivity.
Qed.

Lemma split_on_head (t h : string) (tl : list string) :
  JS.split_on "/" t = h :: tl ->
  (t = h /\ tl = []) \/ (exists rest, t = h +:+ String "/" rest).
Proof.
  intros Hsplit. rewrite <- (join_split t), Hsplit.
  destruct tl as [|x tl]; [left; split; reflexivity|].
  right. exists (JS.join_with "/" (x :: tl)). now rewrite join_with_cons.
Qed.

Lemma replace_leading_parents_slash (rest : string) :
  replace_leading_parents (String "." (String "." (String "/" rest)))
  = replace_leading_parents rest.
Proof. reflexivity. Qed.

Lemma replace_leading_parents_backslash (rest : string) :
  replace_leading_parents (String "." (String "." (String "\" rest)))
  = replace_leading_parents rest.
Proof. reflexivity. Qed.

Lemma replace_leading_parents_stay (t : string) :
  (forall rest, t <> String "." (String "." (String "/" rest))) ->
  (forall rest, t <> String "." (String "." (String "\" rest))) ->
  replace_leading_parents t = t.
Proof.
  intros Hslash Hback. rewrite replace_leading_parents_eq.
  destruct t as [|a [|b [|c rest]]]; try reflexivity.
  destruct (Ascii.eqb_spec a ".") as [->|]; [|reflexivity].
  destruct (Ascii.eqb_spec b ".") as [->|]; [|reflexivity].
  destruct (Ascii.eqb_spec c "/") as [->|]; [now elim (Hslash rest)|].
  destruct (Ascii.eqb_spec c "\") as [->|]; [now elim (Hback rest)|].
  reflexivity.
Qed.

Lemma leading_parent_dec (t : string) :
  (exists rest, t = String "." (String "." (String "/" rest)))
  \/ (exists rest, t = String "." (String "." (String "\" rest)))
  \/ ((forall rest, t <> String "." (String "." (String "/" rest)))
      /\ (forall rest, t <> String "." (String "." (String "\" rest)))).
Proof.
  destruct t as [|a [|b [|c rest]]];
    try (right; right; split; intros ? ?; discriminate).
  destruct (Ascii.eqb_spec a ".") as [->|];
    [|right; right; split; intros ? E; inversion E; congruence].
  destruct (Ascii.eqb_spec b ".") as [->|];
    [|right; right; split; intros ? E; inversion E; congruence].
  destruct (Ascii.eqb_spec c "/") as [->|]; [left; now exists rest|].
  destruct (Ascii.eqb_spec c "\") as [->|]; [right; left; now exists rest|].
  right; right; split; intros ? E; inversion E; congruence.
Qed.

(** After the leading [../] and [..\] are removed from a normalized path,
    either [".."] alone is left or no segment is [".."]. *)
Lemma replace_leading_parents_shape (n : nat) :
  forall t, String.length t <= n -> parents_first t ->
    replace_leading_parents t = ".."
    \/ Forall (fun seg => seg <> "..") (JS.split_on "/" (replace_leading_parents t)).
Proof.
  induction n as [|n IH]; intros t Hlen Hshape.
  { destruct t; [|simpl in Hlen; lia]. right. repeat constructor. discriminate. }
  destruct (leading_parent_dec t) as [[rest ->]|[[rest ->]|[Hslash Hback]]].
  - rewrite replace_leading_parents_slash. simpl in Hlen. apply IH; [lia|].
    destruct Hshape as (k & l & Hsplit & Hl). unfold Path.sep in Hsplit.
    change (JS.split_on "/" (String "." (String "." (String "/" rest))))
      with (".." :: JS.split_on "/" rest) in Hsplit.
    destruct k as [|k].
    + simpl in Hsplit. subst l. inversion Hl; congruence.
    + simpl in Hsplit. inversion Hsplit as [Hrest]. now exists k, l.
  - rewrite replace_leading_parents_backslash. simpl in Hlen. apply IH; [lia|].
    destruct Hshape as (k & l & Hsplit & Hl). unfold Path.sep in Hsplit.
    pose proof (split_on_not_nil "/" rest) as Hne.
    destruct (JS.split_on "/" rest) as [|h tl] eqn:Hrest; [contradiction|].
    assert (Ht : JS.split_on "/" (String "." (String "." (String "\" rest)))
                 = String "." (String "." (String "\" h)) :: tl).
    { simpl. now rewrite Hrest. }
    rewrite Ht in Hsplit.
    destruct k as [|k]; [|simpl in Hsplit; discriminate].
    simpl in Hsplit. subst l. inversion Hl as [|? ? _ Htl]; subst.
    unfold parents_first, Path.sep. rewrite Hrest.
    destruct (String.eqb_spec h "..") as [->|Hh].
    + now exists 1, tl.
    + exists 0, (h :: tl). split; [reflexivity | now constructor].
  - rewrite replace_leading_parents_stay by assumption.
    destruct Hshape as (k & l & Hsplit & Hl). unfold Path.sep in Hsplit.
    destruct k as [|k]; [right; now rewrite Hsplit|].
    simpl in Hsplit. apply split_on_head in Hsplit as [[-> _]|[rest ->]].
    + now left.
    + exfalso. apply (Hslash rest). reflexivity.
Qed.

Lemma sanitizePath_eq (p : string) :
  sanitizePath p = replace_leading_parents (Path.normalize p).
Proof. unfold sanitizePath, Path.sep. apply join_split. Qed.

(** What [sanitizePath] returns is [".."] or has no [".."] segment. *)
Lemma sanitizePath_shape (p : string) :
  sanitizePath p = ".."
  \/ Forall (fun seg => seg <> "..") (JS.split_on "/" (sanitizePath p)).
Proof.
  rewrite sanitizePath_eq.
  apply (replace_leading_parents_shape (String.length (Path.normalize p))); [lia|].
  apply normalize_parents_first.
Qed.

End SanitizeFacts.

Module ResolveFacts.
Import StrFacts PathFacts NormalizeFacts SanitizeFacts.

Lemma ordinary_no_slash (l : list string) :
  Forall (fun seg => is_ordinary seg = true) l ->
  Forall (fun seg => no_slash seg = true) l.
Proof.
  intros Hall. eapply Forall_impl; [exact Hall|].
  intros x Hx. now apply is_ordinary_inv in Hx.
Qed.

Lemma ordinary_nonempty (l : list string) :
  Forall (fun seg => is_ordinary seg = true) l -> Forall (fun seg => seg <> "") l.
Proof.
  intros Hall. eapply Forall_impl; [exact Hall|].
  intros x Hx. now apply is_ordinary_inv in Hx.
Qed.

Lemma norm_segments_empty_segments (allow : bool) (l res : list string) :
  Forall (fun seg => seg = "") l -> Path.norm_segments allow l res = res.
Proof.
  induction l as [|x l IH]; intros Hall; [reflexivity|].
  inversion Hall; subst. cbn [Path.norm_segments fold_left]. now apply IH.
Qed.

(** The segments of [abs_path B] normalize to [B]. *)
Lemma norm_segments_join (allow : bool) (B : list string) :
  Forall (fun seg => is_ordinary seg = true) B ->
  Path.norm_segments allow (JS.split_on "/" (JS.join_with "/" B)) [] = rev B.
Proof.
  intros HB. destruct B as [|b B]; [reflexivity|].
  rewrite split_join by (discriminate || now apply ordinary_no_slash).
  rewrite norm_segments_ordinary by exact HB. apply List.app_nil_r.
Qed.

Lemma split_on_abs_path_app (B : list string) (t : string) :
  JS.split_on "/" (abs_path B +:+ t)
  = "" :: JS.split_on "/" (JS.join_with "/" B +:+ t).
Proof. reflexivity. Qed.

(** [path.resolve] of an absolute path, with or without a trailing
    separator, is the path without it. *)
Lemma resolve_abs_path (cwd : string) (N : list string) (t : string) :
  Forall (fun seg => is_ordinary seg = true) N ->
  t = "" \/ t = "/" ->
  Path.resolve cwd (abs_path N +:+ t) = abs_path N.
Proof.
  intros HN Ht.
  change (abs_path N +:+ t) with (String "/" (JS.join_with "/" N +:+ t)).
  rewrite resolve_absolute. unfold abs_path. f_equal. f_equal.
  rewrite split_on_app_slash, norm_segments_app.
  destruct Ht as [-> | ->].
  - rewrite str_app_nil_r, norm_segments_join by exact HN.
    cbn. now rewrite rev_involutive.
  - rewrite split_on_app_slash, norm_segments_app, norm_segments_join by exact HN.
    cbn. now rewrite rev_involutive.
Qed.

Lemma resolve_abs_path_plain (cwd : string) (N : list string) :
  Forall (fun seg => is_ordinary seg = true) N ->
  Path.resolve cwd (abs_path N) = abs_path N.
Proof.
  intros HN. rewrite <- (str_app_nil_r (abs_path N)) at 1.
  apply resolve_abs_path; auto.
Qed.

(** [path.normalize] of an absolute path. *)
Lemma normalize_absolute (q : string) :
  let N := rev (Path.norm_segments false (JS.split_on "/" q) []) in
  Forall (fun seg => is_ordinary seg = true) N
  /\ exists t, (t = "" \/ t = "/") /\ Path.normalize (String "/" q) = abs_path N +:+ t.
Proof.
  intros N.
  assert (HN : Forall (fun seg => is_ordinary seg = true) N).
  { pose proof (norm_segments_shape false (JS.split_on "/" q) []
                  (split_on_segments_no_slash q) (stack_shape_nil _)) as Hs.
    destruct Hs as (ords & k & Hst & Hords & Hk). subst N. rewrite Hst.
    rewrite (Hk eq_refl). simpl. rewrite List.app_nil_r. now apply Forall_rev. }
  split; [exact HN|].
  rewrite normalize_absolute_eq. fold N. cbv zeta.
  destruct (String.eqb_spec (JS.join_with "/" N) "") as [Hempty|Hfull].
  - exists "". split; [now left|]. unfold abs_path. now rewrite Hempty.
  - destruct (JS.last_char_is "/" (String "/" q)).
    + exists "/". split; [now right|]. unfold abs_path. now rewrite str_app_assoc.
    + exists "". split; [now left|]. now rewrite str_app_nil_r.
Qed.

(** [path.join] of an absolute directory and a relative path none of whose
    segments is [".."]: the kept segments are added below the directory. *)
Lemma join_below (B : list string) (s : string) :
  Forall (fun seg => is_ordinary seg = true) B ->
  s <> "" ->
  Forall (fun seg => seg <> "..") (JS.split_on "/" s) ->
  let K := kept_segments (JS.split_on "/" s) in
  Forall (fun seg => is_ordinary seg = true) (B ++ K)
  /\ exists t, (t = "" \/ t = "/") /\ Path.join (abs_path B) s = abs_path (B ++ K) +:+ t.
Proof.
  intros HB Hs Hnp K. unfold Path.join.
  change (String.eqb (abs_path B) "") with false. cbv iota.
  destruct (String.eqb_spec s "") as [|_]; [contradiction|].
  change (abs_path B +:+ "/" +:+ s) with (String "/" (JS.join_with "/" B +:+ String "/" s)).
  destruct (normalize_absolute (JS.join_with "/" B +:+ String "/" s)) as [HN (t & Ht & Heq)].
  rewrite split_on_app_sep, norm_segments_app, norm_segments_join in * by exact HB.
  rewrite norm_segments_no_parent in * by exact Hnp.
  rewrite <- rev_app_distr, rev_involutive in *.
  split; [exact HN|]. exists t. split; [exact Ht | exact Heq].
Qed.

(** [path.join(base, "..")] is the parent of [base]. *)
Lemma join_parent (B : list string) (b : string) :
  Forall (fun seg => is_ordinary seg = true) (B ++ [b]) ->
  exists t, (t = "" \/ t = "/") /\ Path.join (abs_path (B ++ [b])) ".." = abs_path B +:+ t.
Proof.
  intros HB. unfold Path.join.
  change (String.eqb (abs_path (B ++ [b])) "") with false. cbv iota.
  change (String.eqb ".." "") with false. cbv iota.
  change (abs_path (B ++ [b]) +:+ "/" +:+ "..")
    with (String "/" (JS.join_with "/" (B ++ [b]) +:+ String "/" "..")).
  destruct (normalize_absolute (JS.join_with "/" (B ++ [b]) +:+ String "/" ".."))
    as [HN (t & Ht & Heq)].
  clear HN.
  rewrite split_on_app_sep, norm_segments_app, norm_segments_join in Heq by exact HB.
  rewrite rev_app_distr in Heq.
  change (JS.split_on "/" "..") with [".."] in Heq.
  change (rev [b] ++ rev B)%list with (b :: rev B) in Heq.
  cbn [Path.norm_segments fold_left] in Heq.
  apply Forall_app in HB as [HB Hb]. inversion Hb as [|? ? Hb' _]; subst.
  destruct (is_ordinary_inv _ Hb') as (_ & _ & Hnp & _).
  rewrite norm_step_parent, rev_involutive in Heq by exact Hnp.
  exists t. split; [exact Ht | exact Heq].
Qed.

Lemma segments_abs_path (N : list string) :
  Forall (fun seg => is_ordinary seg = true) N -> segments (abs_path N) = N.
Proof.
  intros HN. unfold segments, abs_path, Path.sep.
  change ("/" +:+ JS.join_with "/" N) with (String "/" (JS.join_with "/" N)).
  rewrite split_on_slash_cons, filter_cons, decide_False by (intros E; now apply E).
  destruct N as [|x N]; [reflexivity|].
  rewrite split_join by (discriminate || now apply ordinary_no_slash).
  apply ordinary_nonempty in HN. induction HN as [|y l Hy Hl IH]; [reflexivity|].
  rewrite filter_cons, decide_True by exact Hy. now rewrite IH.
Qed.

Lemma abs_path_snoc_length (B : list string) (b : string) :
  b <> "" -> String.length (abs_path B) < String.length (abs_path (B ++ [b])).
Proof.
  intros Hb. unfold abs_path.
  change ("/" +:+ ?x) with (String "/" x). cbn [String.length].
  destruct B as [|x B].
  - simpl. destruct b; [contradiction | simpl; lia].
  - rewrite join_with_app by discriminate. rewrite str_length_app. simpl. lia.
Qed.

Lemma abs_path_app_prefix (B K : list string) :
  B <> [] -> JS.startsWith (abs_path (B ++ K)) (abs_path B) = true.
Proof.
  intros HB. destruct K as [|k K].
  - rewrite List.app_nil_r. rewrite <- (str_app_nil_r (abs_path B)) at 1.
    apply startsWith_app.
  - unfold abs_path. rewrite join_with_app by (exact HB || discriminate).
    rewrite <- str_app_assoc. apply startsWith_app.
Qed.

End ResolveFacts.

(** *** [path.dirname] and [path.extname] of a path below a directory *)

Module ScanFacts.
Import StrFacts PathFacts ResolveFacts.

Lemma get_past (P s : string) (n : nat) :
  String.get (n + String.length P) (P +:+ s) = String.get n s.
Proof. symmetry. apply append_correct2. Qed.

Lemma get_all_chars (p : ascii -> bool) (k : string) (j : nat) :
  all_chars p k = true -> j < String.length k ->
  exists c, String.get j k = Some c /\ p c = true.
Proof.
  revert j. induction k as [|c k IH]; intros j Hall Hj; simpl in *; [lia|].
  apply andb_true_iff in Hall as [Hc Hk].
  destruct j as [|j]; [now exists c|]. apply IH; [exact Hk | lia].
Qed.

Lemma get_segment (P k t : string) (j : nat) :
  j < String.length k ->
  String.get (S j + String.length P) (P +:+ String "/" (k +:+ t)) = String.get j k.
Proof.
  intros Hj. rewrite get_past. simpl. symmetry. now apply append_correct1.
Qed.

Lemma get_after (P s : string) :
  String.get (String.length P) (P +:+ s) = String.get 0 s.
Proof. apply (get_past P s 0). Qed.

Lemma get_separator (P s : string) :
  String.get (String.length P) (P +:+ String "/" s) = Some "/"%char.
Proof. apply (get_past P (String "/" s) 0). Qed.

Lemma substring_prefix (P s : string) :
  String.substring 0 (String.length P) (P +:+ s) = P.
Proof.
  induction P as [|c P IH]; simpl; [now destruct s | now rewrite IH].
Qed.

Lemma dirname_scan_step (path : string) (i : nat) (ms : bool) :
  Path.dirname_scan path (S (S i)) ms =
    match String.get (S i) path with
    | Some c =>
        if Ascii.eqb c "/" then
          if negb ms then Some (S i) else Path.dirname_scan path (S i) ms
        else Path.dirname_scan path (S i) false
    | None => None
    end.
Proof. reflexivity. Qed.

(** Scanning back over the last segment stops at the separator before it. *)
Lemma dirname_scan_segment (P k t : string) (j : nat) (ms : bool) :
  P <> "" -> no_slash k = true -> j <= String.length k -> (j = 0 -> ms = false) ->
  Path.dirname_scan (P +:+ String "/" (k +:+ t)) (S (j + String.length P)) ms
  = Some (String.length P).
Proof.
  intros HP Hk. revert ms. induction j as [|j IH]; intros ms Hj Hms.
  - destruct P as [|c P]; [contradiction|].
    change (0 + String.length (String c P)) with (S (String.length P)).
    rewrite dirname_scan_step.
    change (S (String.length P)) with (String.length (String c P)).
    rewrite get_separator. cbn. now rewrite (Hms eq_refl).
  - change (S (S j + String.length P)) with (S (S (j + String.length P))).
    rewrite dirname_scan_step.
    change (S (j + String.length P)) with (S j + String.length P) at 1.
    rewrite get_segment by lia.
    destruct (get_all_chars _ k j Hk) as (c & -> & Hc); [lia|].
    apply negb_true_iff in Hc. rewrite Hc. apply IH; [lia | reflexivity].
Qed.

(** [path.dirname] of [P/k] and of [P/k/] is [P]. *)
Lemma dirname_child (P k t : string) :
  2 <= String.length P -> JS.startsWith P "/" = true ->
  is_ordinary k = true -> t = "" \/ t = "/" ->
  Path.dirname (P +:+ String "/" (k +:+ t)) = P.
Proof.
  intros HP Hroot Hk Ht. destruct (is_ordinary_inv _ Hk) as (Hkne & _ & _ & Hns).
  assert (HPne : P <> "") by (intros ->; simpl in HP; lia).
  assert (Hklen : 0 < String.length k) by (destruct k; [contradiction | simpl; lia]).
  unfold Path.dirname.
  destruct (String.eqb_spec (P +:+ String "/" (k +:+ t)) "") as [E|_].
  { destruct P; [contradiction | discriminate]. }
  assert (Hscan : Path.dirname_scan (P +:+ String "/" (k +:+ t))
                    (String.length (P +:+ String "/" (k +:+ t))) true
                  = Some (String.length P)).
  { rewrite str_length_app. cbn [String.length]. rewrite str_length_app.
    destruct Ht as [-> | ->]; cbn [String.length].
    - replace (String.length P + S (String.length k + 0))
        with (S (String.length k + String.length P)) by lia.
      apply dirname_scan_segment; auto; lia.
    - replace (String.length P + S (String.length k + 1))
        with (S (S (String.length k + String.length P))) by lia.
      rewrite dirname_scan_step.
      change (S (String.length k + String.length P))
        with (S (String.length k) + String.length P) at 1.
      rewrite get_past. cbn [String.get].
      rewrite (get_after k "/").
      change (String.get 0 "/") with (Some "/"%char). cbv beta iota.
      change (Ascii.eqb "/" "/") with true. cbv beta iota. cbn [negb Path.matchedSlash Path.ext_init].
      apply dirname_scan_segment; auto; lia. }
  rewrite Hscan.
  destruct (Nat.eqb_spec (String.length P) 1) as [E|_]; [lia|].
  rewrite andb_false_r. apply substring_prefix.
Qed.

Lemma extname_scan_step (path : string) (i : nat) (st : Path.ExtScan) :
  Path.extname_scan path (S i) st =
    match String.get i path with
    | None => st
    | Some code =>
        if Ascii.eqb code "/" then
          if negb (Path.matchedSlash st)
          then {| Path.startDot := Path.startDot st; Path.startPart := Z.of_nat i + 1;
                  Path.end_ := Path.end_ st; Path.matchedSlash := Path.matchedSlash st;
                  Path.preDotState := Path.preDotState st |}
          else Path.extname_scan path i st
        else
          let st1 :=
            if (Path.end_ st =? -1)%Z
            then {| Path.startDot := Path.startDot st; Path.startPart := Path.startPart st;
                    Path.end_ := Z.of_nat i + 1; Path.matchedSlash := false;
                    Path.preDotState := Path.preDotState st |}
            else st in
          let st2 :=
            if Ascii.eqb code "." then
              if (Path.startDot st1 =? -1)%Z
              then {| Path.startDot := Z.of_nat i; Path.startPart := Path.startPart st1;
                      Path.end_ := Path.end_ st1; Path.matchedSlash := Path.matchedSlash st1;
                      Path.preDotState := Path.preDotState st1 |}
              else if negb (Path.preDotState st1 =? 1)%Z
              then {| Path.startDot := Path.startDot st1; Path.startPart := Path.startPart st1;
                      Path.end_ := Path.end_ st1; Path.matchedSlash := Path.matchedSlash st1;
                      Path.preDotState := 1 |}
              else st1
            else if negb (Path.startDot st1 =? -1)%Z
            then {| Path.startDot := Path.startDot st1; Path.startPart := Path.startPart st1;
                    Path.end_ := Path.end_ st1; Path.matchedSlash := Path.matchedSlash st1;
                    Path.preDotState := -1 |}
            else st1 in
          Path.extname_scan path i st2
    end.
Proof. reflexivity. Qed.

(** Scanning back over a last segment without a dot finds no extension. *)
Lemma extname_scan_no_dot (P k t : string) (j : nat) (st : Path.ExtScan) :
  all_chars (fun c => negb (Ascii.eqb c "/") && negb (Ascii.eqb c ".")) k = true ->
  j <= String.length k ->
  Path.startDot st = (-1)%Z ->
  Path.matchedSlash st = false \/ (0 < j /\ Path.end_ st = (-1)%Z) ->
  Path.startDot (Path.extname_scan (P +:+ String "/" (k +:+ t)) (S (j + String.length P)) st)
  = (-1)%Z.
Proof.
  intros Hk. revert st. induction j as [|j IH]; intros st Hj Hdot Hpre.
  - rewrite extname_scan_step. change (0 + String.length P) with (String.length P).
    rewrite get_separator. cbn.
    destruct Hpre as [-> | [Hlt _]]; [exact Hdot | lia].
  - rewrite extname_scan_step. rewrite get_segment by lia.
    destruct (get_all_chars _ k j Hk) as (c & -> & Hc); [lia|].
    apply andb_true_iff in Hc as [Hslash Hnodot].
    apply negb_true_iff in Hslash, Hnodot. rewrite Hslash, Hnodot. cbv zeta.
    set (st1 := if (Path.end_ st =? -1)%Z then _ else st).
    assert (H1 : Path.startDot st1 = (-1)%Z).
    { subst st1. destruct (Path.end_ st =? -1)%Z; exact Hdot. }
    assert (H2 : Path.matchedSlash st1 = false).
    { subst st1. destruct (Z.eqb_spec (Path.end_ st) (-1)); [reflexivity|].
      destruct Hpre as [Hms | [_ Hend]]; [exact Hms | contradiction]. }
    rewrite H1. change (negb (-1 =? -1)%Z) with false. cbv iota.
    apply IH; [lia | exact H1 | now left].
Qed.

(** A path whose last segment has no dot has no extension. *)
Lemma extname_no_dot (P k t : string) :
  all_chars (fun c => negb (Ascii.eqb c "/") && negb (Ascii.eqb c ".")) k = true ->
  k <> "" -> t = "" \/ t = "/" ->
  Path.extname (P +:+ String "/" (k +:+ t)) = "".
Proof.
  intros Hk Hkne Ht.
  assert (Hklen : 0 < String.length k) by (destruct k; [contradiction | simpl; lia]).
  unfold Path.extname.
  assert (Hscan : Path.startDot
                    (Path.extname_scan (P +:+ String "/" (k +:+ t))
                       (String.length (P +:+ String "/" (k +:+ t))) Path.ext_init)
                  = (-1)%Z).
  { rewrite str_length_app. cbn [String.length]. rewrite str_length_app.
    destruct Ht as [-> | ->]; cbn [String.length].
    - replace (String.length P + S (String.length k + 0))
        with (S (String.length k + String.length P)) by lia.
      apply extname_scan_no_dot;
        [exact Hk | lia | reflexivity | right; split; [lia | reflexivity]].
    - replace (String.length P + S (String.length k + 1))
        with (S (S (String.length k) + String.length P)) by lia.
      rewrite extname_scan_step, get_past. cbn [String.get].
      rewrite (get_after k "/").
      change (String.get 0 "/") with (Some "/"%char). cbv beta iota.
      change (Ascii.eqb "/" "/") with true. cbv beta iota. cbn [negb Path.matchedSlash Path.ext_init].
      apply extname_scan_no_dot;
        [exact Hk | lia | reflexivity | right; split; [lia | reflexivity]]. }
  rewrite Hscan. reflexivity.
Qed.

End ScanFacts.

(** ** The handlers *)

Module HandlerFacts.
Import StrFacts PathFacts NormalizeFacts SanitizeFacts ResolveFacts.

Lemma last_char_is_app (c : ascii) (a s : string) :
  s <> "" -> JS.last_char_is c (a +:+ s) = JS.last_char_is c s.
Proof.
  intros Hs. induction a as [|x a IH]; [reflexivity|].
  simpl. rewrite IH. destruct (a +:+ s) eqn:E; [|reflexivity].
  destruct a; simpl in E; [contradiction | discriminate].
Qed.

Lemma no_slash_last (s : string) :
  no_slash s = true -> JS.last_char_is "/" s = false.
Proof.
  unfold no_slash. induction s as [|c s IH]; [reflexivity|].
  simpl. intros Hc. apply andb_true_iff in Hc as [Hc Hs].
  apply negb_true_iff in Hc. destruct s; [exact Hc | now apply IH].
Qed.

(** [path.join] of an absolute directory and one ordinary segment. *)
Lemma join_segment (B : list string) (seg : string) :
  Forall (fun s => is_ordinary s = true) B -> is_ordinary seg = true ->
  Path.join (abs_path B) seg = abs_path (B ++ [seg]).
Proof.
  intros HB Hseg. destruct (is_ordinary_inv _ Hseg) as (Hne & _ & _ & Hns).
  unfold Path.join. change (String.eqb (abs_path B) "") with false. cbv iota.
  destruct (String.eqb_spec seg "") as [|_]; [contradiction|].
  change (abs_path B +:+ "/" +:+ seg) with (String "/" (JS.join_with "/" B +:+ String "/" seg)).
  rewrite normalize_absolute_eq. cbv zeta.
  rewrite split_on_app_sep, norm_segments_app, norm_segments_join by exact HB.
  rewrite split_on_no_slash by exact Hns.
  cbn [Path.norm_segments fold_left]. rewrite norm_step_ordinary by exact Hseg.
  cbn [rev]. rewrite rev_involutive.
  destruct (String.eqb_spec (JS.join_with "/" (B ++ [seg])) "") as [Hempty|_].
  { apply join_with_eq_empty in Hempty; [now destruct B|].
    apply ordinary_nonempty, Forall_app. split; [exact HB | now constructor]. }
  assert (Hsplit : String "/" (JS.join_with "/" B +:+ String "/" seg)
                   = (String "/" (JS.join_with "/" B +:+ "/")) +:+ seg).
  { simpl. now rewrite str_app_assoc. }
  rewrite Hsplit, last_char_is_app, no_slash_last by assumption. reflexivity.
Qed.

Lemma all_chars_impl (p q : ascii -> bool) (s : string) :
  (forall c, p c = true -> q c = true) -> all_chars p s = true -> all_chars q s = true.
Proof.
  intros Hpq. induction s as [|c s IH]; [reflexivity|].
  simpl. rewrite !andb_true_iff. intros [Hc Hs]. split; auto.
Qed.

Lemma valid_session_id_ordinary (sid : string) :
  isValidSessionId sid = true -> is_ordinary sid = true.
Proof.
  intros Hvalid. apply isValidSessionId_spec in Hvalid as [Hlen Hhex].
  unfold is_ordinary. rewrite !andb_true_iff, !negb_true_iff. repeat split.
  - apply String.eqb_neq. intros ->. discriminate.
  - apply String.eqb_neq. intros ->. discriminate.
  - apply String.eqb_neq. intros ->. discriminate.
  - unfold no_slash. eapply all_chars_impl; [|exact Hhex].
    intros c Hc. destruct (Ascii.eqb_spec c "/") as [->|]; [discriminate | reflexivity].
Qed.

Lemma validatePath_below (cwd : string) (B K : list string) :
  B <> [] -> Forall (fun s => is_ordinary s = true) (B ++ K) ->
  validatePath cwd (abs_path B) (abs_path (B ++ K)) = true.
Proof.
  intros HB Hall. unfold validatePath.
  rewrite (resolve_abs_path_plain cwd (B ++ K)) by exact Hall.
  apply Forall_app in Hall as [HBo _].
  rewrite (resolve_abs_path_plain cwd B) by exact HBo.
  now apply abs_path_app_prefix.
Qed.

(** *** Where the handler works *)

Section Layout.
Variables (D : list string) (sid : string).
Hypothesis HD : Forall (fun s => is_ordinary s = true) D.
Hypothesis Hsid : isValidSessionId sid = true.

Local Abbreviation dirname := (abs_path D).

Lemma TEMP_DIR_eq : TEMP_DIR dirname = abs_path (D ++ ["temp"]).
Proof. unfold TEMP_DIR. now apply join_segment. Qed.

Lemma temp_ordinary : Forall (fun s => is_ordinary s = true) (D ++ ["temp"]).
Proof. apply Forall_app. split; [exact HD | now repeat constructor]. Qed.

Lemma session_ordinary : Forall (fun s => is_ordinary s = true) (D ++ ["temp"; sid]).
Proof.
  apply Forall_app. split; [exact HD|].
  repeat constructor. now apply valid_session_id_ordinary.
Qed.

Lemma sessionDir_eq : Path.join (TEMP_DIR dirname) sid = abs_path (D ++ ["temp"; sid]).
Proof.
  rewrite TEMP_DIR_eq, join_segment.
  - now rewrite <- List.app_assoc.
  - exact temp_ordinary.
  - now apply valid_session_id_ordinary.
Qed.

Lemma output_ordinary :
  Forall (fun s => is_ordinary s = true) (D ++ ["temp"; sid; "output"]).
Proof.
  apply Forall_app. split; [exact HD|].
  repeat constructor. now apply valid_session_id_ordinary.
Qed.

Lemma outputDir_eq :
  Path.join (Path.join (TEMP_DIR dirname) sid) "output"
  = abs_path (D ++ ["temp"; sid; "output"]).
Proof.
  rewrite sessionDir_eq, join_segment; [|exact session_ordinary | reflexivity].
  now rewrite <- List.app_assoc.
Qed.

Lemma zip_ordinary :
  Forall (fun s => is_ordinary s = true) (D ++ ["temp"; sid; "ar_output.zip"]).
Proof.
  apply Forall_app. split; [exact HD|].
  repeat constructor. now apply valid_session_id_ordinary.
Qed.

Lemma zipPath_eq :
  Path.join (Path.join (TEMP_DIR dirname) sid) "ar_output.zip"
  = abs_path (D ++ ["temp"; sid; "ar_output.zip"]).
Proof.
  rewrite sessionDir_eq, join_segment; [|exact session_ordinary | reflexivity].
  now rewrite <- List.app_assoc.
Qed.

Lemma sessionDir_valid (cwd : string) :
  validatePath cwd (TEMP_DIR dirname) (Path.join (TEMP_DIR dirname) sid) = true.
Proof.
  rewrite sessionDir_eq, TEMP_DIR_eq.
  change (D ++ ["temp"; sid])%list with (D ++ ["temp"] ++ [sid])%list.
  rewrite List.app_assoc. apply validatePath_below.
  - now destruct D.
  - rewrite <- List.app_assoc. exact session_ordinary.
Qed.

Lemma zipPath_valid (cwd : string) :
  validatePath cwd (Path.join (TEMP_DIR dirname) sid)
    (Path.join (Path.join (TEMP_DIR dirname) sid) "ar_output.zip") = true.
Proof.
  rewrite zipPath_eq, sessionDir_eq.
  change (D ++ ["temp"; sid; "ar_output.zip"])%list
    with (D ++ ["temp"; sid] ++ ["ar_output.zip"])%list.
  rewrite List.app_assoc. apply validatePath_below.
  - now destruct D.
  - rewrite <- List.app_assoc. exact zip_ordinary.
Qed.
End Layout.

End HandlerFacts.

(** ** Sanitizing and containing a path *)

Module ContainmentFacts.
Import StrFacts PathFacts NormalizeFacts SanitizeFacts ResolveFacts HandlerFacts.

(** A sanitized path that passes the containment check lies within the base
    directory, segment by segment. *)
Lemma sanitized_path_contained (cwd : string) (B : list string) (p : string) :
  Forall (fun s => is_ordinary s = true) B ->
  sanitizePath p <> "" ->
  validatePath cwd (abs_path B) (Path.join (abs_path B) (sanitizePath p)) = true ->
  path_within (Path.resolve cwd (abs_path B))
    (Path.resolve cwd (Path.join (abs_path B) (sanitizePath p))).
Proof.
  intros HB Hne Hvalid. unfold path_within.
  rewrite (resolve_abs_path_plain cwd B) in * by exact HB.
  rewrite (segments_abs_path B) by exact HB.
  destruct (sanitizePath_shape p) as [Hparent|Hnone].
  - rewrite Hparent in *.
    destruct B as [|x B']; [apply prefix_nil|].
    destruct (@exists_last _ (x :: B')) as (B0 & b & HeqB); [discriminate|].
    rewrite HeqB in *. clear HeqB x B'.
    exfalso. destruct (join_parent B0 b HB) as (t & Ht & Hjoin).
    unfold validatePath in Hvalid. rewrite Hjoin in Hvalid.
    pose proof HB as HB0. apply Forall_app in HB0 as [HB0 Hb].
    rewrite (resolve_abs_path cwd B0 t), (resolve_abs_path_plain cwd (B0 ++ [b])) in Hvalid
      by assumption.
    apply startsWith_length in Hvalid.
    inversion Hb as [|? ? Hb' _]; subst.
    destruct (is_ordinary_inv _ Hb') as (Hbne & _).
    pose proof (abs_path_snoc_length B0 b Hbne). lia.
  - destruct (join_below B (sanitizePath p) HB Hne Hnone) as (Hall & t & Ht & Hjoin).
    rewrite Hjoin, (resolve_abs_path cwd _ t), segments_abs_path by assumption.
    now apply prefix_app_r.
Qed.

End ContainmentFacts.

(** ** The file loop *)

Module LoopFacts.
Import StrFacts PathFacts ResolveFacts HandlerFacts ContainmentFacts.

Lemma written_app (a b : list FsOp) : written (a ++ b) = (written a ++ written b)%list.
Proof. unfold written. apply omap_app. Qed.

Lemma log_since_app (fs fs' : FileSystem) (ops : list FsOp) :
  log fs' = (log fs ++ ops)%list -> log_since fs fs' = ops.
Proof. intros Hlog. unfold log_since. rewrite Hlog. apply drop_app_length. Qed.

Lemma log_since_same (fs : FileSystem) : log_since fs fs = [].
Proof. apply log_since_app. now rewrite List.app_nil_r. Qed.

(** *** Calls that may throw *)

Lemma mkdirSync_some (cwd p : string) (fs fs' : FileSystem) :
  mkdirSync cwd p fs = Some fs' ->
  log fs' = (log fs ++ [MkdirSync p])%list
  /\ files fs' = files fs
  /\ dirs fs' = dirs fs ∪ list_to_set (ancestors cwd p).
Proof.
  unfold mkdirSync. destruct (mkdirSync_throws cwd p fs); [discriminate|].
  intros [= <-]. repeat split.
Qed.

Lemma writeFileSync_some (cwd p : string) (data : list byte) (fs fs' : FileSystem) :
  writeFileSync cwd p data fs = Some fs' ->
  log fs' = (log fs ++ [WriteFileSync p data])%list
  /\ files fs' = <[Path.resolve cwd p := data]> (files fs)
  /\ dirs fs' = dirs fs.
Proof.
  unfold writeFileSync. destruct (writeFileSync_throws cwd p fs); [discriminate|].
  intros [= <-]. repeat split.
Qed.

(** The directory is there and is only looked up, or it is made, or making
    it throws. *)
Lemma ensure_dir_cases (cwd p : string) (fs : FileSystem) :
  ensure_dir cwd p fs = (Completed, record_op (ExistsSync p) fs)
  \/ (exists fs1, ensure_dir cwd p fs = (Completed, fs1)
                  /\ mkdirSync cwd p (record_op (ExistsSync p) fs) = Some fs1)
  \/ (ensure_dir cwd p fs = (Thrown, record_op (ExistsSync p) fs)
      /\ mkdirSync cwd p (record_op (ExistsSync p) fs) = None).
Proof.
  unfold ensure_dir, existsSync. cbv zeta. destruct (_ || _); [now left|].
  right. destruct (mkdirSync cwd p _) as [fs1|]; [left; now exists fs1 | now right].
Qed.

Lemma ensure_dir_ops (Q : FsOp -> Prop) (cwd p : string) (fs : FileSystem) :
  Q (ExistsSync p) -> Q (MkdirSync p) ->
  exists pre,
    log (snd (ensure_dir cwd p fs)) = (log fs ++ pre)%list
    /\ written pre = [] /\ Forall Q pre
    /\ (fst (ensure_dir cwd p fs) = Thrown ->
        exists st, mkdirSync cwd p st = None).
Proof.
  intros Qexists Qmkdir.
  destruct (ensure_dir_cases cwd p fs) as [-> | [(fs1 & -> & Hmk) | [-> Hmk]]]; cbn [fst snd].
  - exists [ExistsSync p]. repeat split; [now repeat constructor | discriminate].
  - destruct (mkdirSync_some _ _ _ _ Hmk) as (Hlog & _ & _).
    exists [ExistsSync p; MkdirSync p]. repeat split.
    + rewrite Hlog. cbn. now rewrite <- List.app_assoc.
    + now repeat constructor.
    + discriminate.
  - exists [ExistsSync p]. repeat split; [now repeat constructor | eauto].
Qed.

Section Loop.
Context `{Codec}.
Variables (cwd outputDir : string).

Lemma path_checks_typed (entry : FileData) (p : string) :
  fd_path entry = Some p -> entry_path entry = p.
Proof. unfold entry_path. now intros ->. Qed.

(** One turn of the loop.  An entry that fails a check on its path makes no
    call; otherwise the directory of the joined path is looked up and made
    if it is missing, and the entry is written unless it is oversized.  The
    turn throws only as [throws_on] says, and writes nothing then.  [Q] is
    any property of the calls that holds of these. *)
Lemma save_file_ops (Q : FsOp -> Prop) (fs : FileSystem) (entry : FileData) :
  (forall p, Q (ExistsSync p)) ->
  (fails_path_checks cwd outputDir entry = false ->
   Q (MkdirSync (Path.dirname (fst (saved_as outputDir entry))))
   /\ forall data, Q (WriteFileSync (fst (saved_as outputDir entry)) data)) ->
  exists ops,
    log (snd (save_file cwd outputDir fs entry)) = (log fs ++ ops)%list
    /\ Forall Q ops
    /\ match fst (save_file cwd outputDir fs entry) with
       | Completed =>
           fd_path entry <> None
           /\ written ops = (if fails_validation cwd outputDir entry then []
                             else [saved_as outputDir entry])
       | Thrown => written ops = [] /\ throws_on cwd outputDir entry
       end.
Proof.
  intros Hexists Hpass.
  unfold save_file. destruct (fd_path entry) as [p|] eqn:Hp.
  2:{ exists []. rewrite List.app_nil_r. cbn. repeat split; [constructor | now left]. }
  pose proof (path_checks_typed entry p Hp) as Hpath.
  unfold throws_on, fails_validation, saved_as in *. cbn [fst snd] in *.
  rewrite Hpath in *.
  destruct (fails_path_checks cwd outputDir entry) eqn:Hchecks;
    unfold fails_path_checks in Hchecks; rewrite Hpath in Hchecks.
  { exists []. rewrite List.app_nil_r.
    destruct (String.eqb (sanitizePath p) "");
      [cbn; repeat split; [constructor | discriminate]|].
    destruct (Nat.ltb 255 (String.length (sanitizePath p)));
      [cbn; repeat split; [constructor | discriminate]|].
    cbn [orb] in *.
    destruct (validatePath cwd outputDir _);
      [|cbn; repeat split; [constructor | discriminate]].
    destruct (isAllowedFileExtension _); [discriminate|].
    cbn; repeat split; [constructor | discriminate]. }
  destruct (Hpass eq_refl) as [Qmkdir Qwrite]. clear Hpass.
  rewrite !orb_false_iff, !negb_false_iff in Hchecks.
  destruct Hchecks as [[[-> ->] ->] ->]. cbn [negb orb].
  set (full := Path.join outputDir (sanitizePath p)) in *.
  set (dirPath := Path.dirname full) in *.
  destruct (ensure_dir_ops Q cwd dirPath fs (Hexists _) Qmkdir)
    as (pre & Hpre & Hwpre & HQpre & Hthrown).
  destruct (ensure_dir cwd dirPath fs) as [[|] fs1]; cbn [fst snd] in *.
  2:{ exists pre. split; [exact Hpre|]. split; [exact HQpre|]. split; [exact Hwpre|].
      right. split; [reflexivity|]. left. now apply Hthrown. }
  clear Hthrown.
  assert (Hwrite : forall data,
    exists ops,
      log (snd (attempt (writeFileSync cwd full data fs1) fs1)) = (log fs ++ ops)%list
      /\ Forall Q ops
      /\ match fst (attempt (writeFileSync cwd full data fs1) fs1) with
         | Completed => written ops = [(full, data)]
         | Thrown => written ops = []
                     /\ exists st, writeFileSync cwd full data st = None
         end).
  { intros data. destruct (writeFileSync cwd full data fs1) as [fs2|] eqn:Hw; cbn.
    - destruct (writeFileSync_some _ _ _ _ _ Hw) as (Hlog & _ & _).
      exists (pre ++ [WriteFileSync full data])%list. repeat split.
      + rewrite Hlog, Hpre. now rewrite <- List.app_assoc.
      + apply Forall_app. split; [exact HQpre | repeat constructor; apply Qwrite].
      + rewrite written_app, Hwpre. reflexivity.
    - exists pre. repeat split; eauto. }
  unfold oversized, decoded.
  destruct (fd_payload entry) as [content|content|content|].
  - destruct (Z.of_nat (String.length content) >? MAX_FILE_BYTES)%Z; cbn [orb];
      [exists pre; cbn; repeat split; auto; discriminate|].
    destruct (Z.of_nat (length (Buffer_from_base64 (strip_data_url content)))
              >? MAX_FILE_BYTES)%Z eqn:Hsize;
      [exists pre; cbn; repeat split; auto; discriminate|].
    destruct (Hwrite (Buffer_from_base64 (strip_data_url content))) as (ops & Hl & HQ & Hc).
    exists ops. split; [exact Hl|]. split; [exact HQ|].
    destruct (fst (attempt _ _)).
    + split; [discriminate | exact Hc].
    + destruct Hc as [Hw Hst]. split; [exact Hw|]. right. split; [reflexivity|].
      right. right. split; [reflexivity | exact Hst].
  - cbn [orb].
    destruct (Z.of_nat (length (Buffer_from (JSON_stringify content)))
              >? MAX_FILE_BYTES)%Z eqn:Hsize;
      [exists pre; cbn; repeat split; auto; discriminate|].
    destruct (Hwrite (Buffer_from (JSON_stringify content))) as (ops & Hl & HQ & Hc).
    exists ops. split; [exact Hl|]. split; [exact HQ|].
    destruct (fst (attempt _ _)).
    + split; [discriminate | exact Hc].
    + destruct Hc as [Hw Hst]. split; [exact Hw|]. right. split; [reflexivity|].
      right. right. split; [reflexivity | exact Hst].
  - cbn [orb].
    destruct (Z.of_nat (length (Buffer_from content)) >? MAX_FILE_BYTES)%Z eqn:Hsize;
      [exists pre; cbn; repeat split; auto; discriminate|].
    destruct (Hwrite (Buffer_from content)) as (ops & Hl & HQ & Hc).
    exists ops. split; [exact Hl|]. split; [exact HQ|].
    destruct (fst (attempt _ _)).
    + split; [discriminate | exact Hc].
    + destruct Hc as [Hw Hst]. split; [exact Hw|]. right. split; [reflexivity|].
      right. right. split; [reflexivity | exact Hst].
  - exists pre. cbn. split; [exact Hpre|]. split; [exact HQpre|]. split; [exact Hwpre|].
    right. split; [reflexivity|]. right. now left.
Qed.

(** The whole loop: the entries before the first that throws are handled,
    the valid ones among them being written, in order. *)
Lemma save_files_ops (Q : FsOp -> Prop) (entries : list FileData) (fs : FileSystem) :
  (forall p, Q (ExistsSync p)) ->
  (forall entry, fails_path_checks cwd outputDir entry = false ->
     Q (MkdirSync (Path.dirname (fst (saved_as outputDir entry))))
     /\ forall data, Q (WriteFileSync (fst (saved_as outputDir entry)) data)) ->
  exists handled rest ops,
    entries = (handled ++ rest)%list
    /\ log (snd (save_files cwd outputDir entries fs)) = (log fs ++ ops)%list
    /\ Forall Q ops
    /\ written ops
       = map (saved_as outputDir)
           (filter (fun entry => fails_validation cwd outputDir entry = false) handled)
    /\ Forall (fun entry => fd_path entry <> None) handled
    /\ match fst (save_files cwd outputDir entries fs) with
       | Completed => rest = []
       | Thrown => exists bad after, rest = bad :: after /\ throws_on cwd outputDir bad
       end.
Proof.
  intros Hexists Hpass. revert fs. induction entries as [|entry entries IH]; intros fs.
  { exists [], [], []. cbn.
    split; [reflexivity|]. split; [now rewrite List.app_nil_r|].
    split; [constructor|]. split; [reflexivity|]. split; [constructor | reflexivity]. }
  cbn [save_files].
  destruct (save_file_ops Q fs entry Hexists (Hpass entry)) as (ops1 & Hlog1 & HQ1 & Hc1).
  destruct (save_file cwd outputDir fs entry) as [[|] fs1]; cbn [fst snd] in *.
  - destruct Hc1 as [Htyped Hw1].
    destruct (IH fs1) as (handled & rest & ops2 & Hsplit & Hlog2 & HQ2 & Hw2 & Hty2 & Hc2).
    exists (entry :: handled), rest, (ops1 ++ ops2)%list.
    split; [now rewrite Hsplit|].
    split; [rewrite Hlog2, Hlog1; now rewrite <- List.app_assoc|].
    split; [apply Forall_app; now split|].
    split.
    { rewrite written_app, Hw1, Hw2, filter_cons.
      destruct (fails_validation cwd outputDir entry) eqn:Hfails.
      - rewrite decide_False by discriminate. reflexivity.
      - rewrite decide_True by reflexivity. reflexivity. }
    split; [now constructor | exact Hc2].
  - destruct Hc1 as [Hw1 Hthrows].
    exists [], (entry :: entries), ops1. cbn.
    split; [reflexivity|]. split; [exact Hlog1|]. split; [exact HQ1|].
    split; [exact Hw1|]. split; [constructor | eauto].
Qed.
End Loop.

(** *** The stream of the archive *)

Lemma run_stream_closed (cwd p : string) (events : list StreamEvent)
    (pr : Promise) (fs : FileSystem) :
  snd (run_stream cwd p events true pr fs) = fs.
Proof.
  revert pr. induction events as [|[chunk| |] events IH]; intros pr; cbn; auto.
Qed.

Lemma run_stream_log (cwd p : string) (events : list StreamEvent)
    (closed : bool) (pr : Promise) (fs : FileSystem) :
  log (snd (run_stream cwd p events closed pr fs)) = log fs.
Proof.
  revert closed pr fs.
  induction events as [|[chunk| |] events IH]; intros closed pr fs; cbn;
    rewrite ?IH; auto.
  now destruct closed.
Qed.

Lemma run_stream_outcome (cwd p : string) (events : list StreamEvent)
    (closed : bool) (pr : Promise) (fs : FileSystem) :
  fst (run_stream cwd p events closed pr fs) = settle pr (first_settling events).
Proof.
  revert closed pr fs.
  induction events as [|[chunk| |] events IH]; intros closed pr fs; cbn;
    rewrite ?IH; destruct pr; reflexivity.
Qed.

Lemma run_stream_file (cwd p : string) (events : list StreamEvent)
    (pr : Promise) (fs : FileSystem) (content : list byte) :
  files fs !! Path.resolve cwd p = Some content ->
  files (snd (run_stream cwd p events false pr fs)) !! Path.resolve cwd p
  = Some (content ++ streamed events)%list.
Proof.
  revert pr fs content.
  induction events as [|[chunk| |] events IH]; intros pr fs content Hfile; cbn.
  - now rewrite List.app_nil_r.
  - rewrite (IH _ _ (content ++ chunk)%list).
    + now rewrite <- List.app_assoc.
    + unfold stream_write. cbn. rewrite Hfile. cbn. apply lookup_insert_eq.
  - now apply IH.
  - rewrite run_stream_closed. now rewrite List.app_nil_r.
Qed.

(** The promise is fulfilled when the output closes after nothing but data,
    and rejected when the archiver fails after nothing but data. *)
Lemma first_settling_fulfilled (events : list StreamEvent) :
  first_settling events = Fulfilled <->
  exists chunks after, events = (map ArchiveData chunks ++ OutputClose :: after)%list.
Proof.
  split.
  - induction events as [|[chunk| |] events IH]; cbn; try discriminate.
    + intros Hrest. destruct (IH Hrest) as (chunks & after & ->).
      now exists (chunk :: chunks), after.
    + intros _. now exists [], events.
  - intros (chunks & after & ->). induction chunks as [|chunk chunks IH]; [reflexivity|].
    exact IH.
Qed.

Lemma first_settling_rejected (events : list StreamEvent) :
  first_settling events = Rejected <->
  exists chunks after, events = (map ArchiveData chunks ++ ArchiveError :: after)%list.
Proof.
  split.
  - induction events as [|[chunk| |] events IH]; cbn; try discriminate.
    + intros Hrest. destruct (IH Hrest) as (chunks & after & ->).
      now exists (chunk :: chunks), after.
    + intros _. now exists [], events.
  - intros (chunks & after & ->). induction chunks as [|chunk chunks IH]; [reflexivity|].
    exact IH.
Qed.

Lemma createZip_spec (cwd : string) (events : list StreamEvent)
    (sourceDir outputPath : string) (fs : FileSystem) :
  fst (createZip cwd events sourceDir outputPath fs) = first_settling events
  /\ log (snd (createZip cwd events sourceDir outputPath fs))
     = (log fs ++ [CreateWriteStream outputPath])%list
  /\ files (snd (createZip cwd events sourceDir outputPath fs)) !! Path.resolve cwd outputPath
     = Some (streamed events).
Proof.
  unfold createZip. rewrite run_stream_outcome, run_stream_log. repeat split.
  apply (run_stream_file cwd outputPath events PromisePending _ []).
  cbn. apply lookup_insert_eq.
Qed.

End LoopFacts.

(** *** Where an entry that passed the checks is saved *)

Module EntryFacts.
Import StrFacts PathFacts NormalizeFacts SanitizeFacts ResolveFacts ScanFacts
  HandlerFacts ContainmentFacts.

Lemma abs_path_snoc (N : list string) (k t : string) :
  N <> [] -> abs_path (N ++ [k]) +:+ t = abs_path N +:+ String "/" (k +:+ t).
Proof.
  intros HN. unfold abs_path. rewrite join_with_app by (exact HN || discriminate).
  cbn [JS.join_with]. rewrite !str_app_assoc. reflexivity.
Qed.

Lemma abs_path_length (N : list string) :
  N <> [] -> Forall (fun s => is_ordinary s = true) N -> 2 <= String.length (abs_path N).
Proof.
  intros HN Hall. destruct N as [|x N]; [contradiction|].
  inversion Hall as [|? ? Hx _]; subst.
  destruct (is_ordinary_inv _ Hx) as (Hne & _).
  unfold abs_path. change ("/" +:+ ?s) with (String "/" s). cbn [String.length].
  destruct x as [|c x]; [contradiction|].
  destruct N; [simpl; lia|]. rewrite join_with_cons by discriminate.
  simpl. lia.
Qed.

Lemma output_has_no_extension (P t : string) :
  t = "" \/ t = "/" -> isAllowedFileExtension (P +:+ String "/" ("output" +:+ t)) = false.
Proof.
  intros Ht. unfold isAllowedFileExtension.
  rewrite extname_no_dot; [reflexivity | reflexivity | discriminate | exact Ht].
Qed.

Section Entry.
Context `{Codec}.
Variables (cwd : string) (B : list string) (zipPath : string).
Hypothesis HB : Forall (fun s => is_ordinary s = true) (B ++ ["output"]).
Hypothesis HBne : B <> [].

Local Abbreviation outputDir := (abs_path (B ++ ["output"])).

(** The directory made for an entry and the file written for it are the
    output directory or lie below it. *)
Lemma entry_stays_within (entry : FileData) :
  fails_path_checks cwd outputDir entry = false ->
  stays_within cwd outputDir zipPath (MkdirSync (Path.dirname (fst (saved_as outputDir entry))))
  /\ forall data,
       stays_within cwd outputDir zipPath (WriteFileSync (fst (saved_as outputDir entry)) data).
Proof.
  unfold fails_path_checks, saved_as, stays_within. cbn [fst].
  rewrite !orb_false_iff, !negb_false_iff. intros [[[Hne _] Hvalid] Hext].
  apply String.eqb_neq in Hne.
  split; [|intros _; now apply sanitized_path_contained].
  unfold path_within.
  rewrite (resolve_abs_path_plain cwd _ HB), (segments_abs_path _ HB).
  destruct (sanitizePath_shape (entry_path entry)) as [Hparent|Hnone].
  { exfalso. rewrite Hparent in *.
    destruct (join_parent B "output" HB) as (t & Ht & Hjoin).
    unfold validatePath in Hvalid. rewrite Hjoin in Hvalid.
    pose proof HB as HB0. apply Forall_app in HB0 as [HB0 _].
    rewrite (resolve_abs_path cwd B t), (resolve_abs_path_plain cwd _ HB) in Hvalid
      by assumption.
    apply startsWith_length in Hvalid.
    pose proof (abs_path_snoc_length B "output" ltac:(discriminate)). lia. }
  destruct (join_below _ _ HB Hne Hnone) as (Hall & t & Ht & Hjoin).
  rewrite Hjoin in *.
  set (K := kept_segments (JS.split_on "/" (sanitizePath (entry_path entry)))) in *.
  destruct K as [|x K'] using rev_ind.
  { exfalso. rewrite List.app_nil_r, abs_path_snoc in Hext by exact HBne.
    rewrite output_has_no_extension in Hext by exact Ht. discriminate. }
  clear IHK'. rewrite List.app_assoc in Hall, Hext |- *.
  rewrite abs_path_snoc by (now destruct B).
  apply Forall_app in Hall as [Hdir Hx]. inversion Hx as [|? ? Hx' _]; subst.
  rewrite dirname_child.
  - rewrite (resolve_abs_path_plain cwd _ Hdir), (segments_abs_path _ Hdir).
    now apply prefix_app_r.
  - apply abs_path_length; [now destruct B | exact Hdir].
  - apply startsWith_slash.
  - exact Hx'.
  - exact Ht.
Qed.
End Entry.

End EntryFacts.

Module ProxyFacts.
Import StrFacts.

Lemma str_drop_app_length (a b : string) : JS.drop (String.length a) (a +:+ b) = b.
Proof. induction a as [|c a IH]; simpl; [now destruct b | exact IH]. Qed.

Lemma take_while_id (id rest : string) :
  all_chars is_id_char id = true -> ends_id rest ->
  take_while is_id_char (id +:+ rest) = id.
Proof.
  intros Hid Hrest. induction id as [|c id IH]; simpl in *.
  - destruct rest as [|r rest]; [reflexivity|]. simpl in *. now rewrite Hrest.
  - apply andb_true_iff in Hid as [Hc Hid]. rewrite Hc. now rewrite IH.
Qed.

Lemma capture_here_app (lit id rest : string) :
  is_file_id id -> ends_id rest ->
  capture_here lit (lit +:+ id +:+ rest) = Some id.
Proof.
  intros [Hne Hid] Hrest. unfold capture_here.
  rewrite startsWith_app, str_drop_app_length, take_while_id by assumption.
  destruct (String.eqb_spec id ""); [contradiction | reflexivity].
Qed.

Lemma capture_after_here (lit s id : string) :
  capture_here lit s = Some id -> capture_after lit s = Some id.
Proof. intros Hhere. destruct s; simpl; now rewrite Hhere. Qed.

Lemma capture_here_head (l c : ascii) (lit s : string) :
  c <> l -> capture_here (String l lit) (String c s) = None.
Proof.
  intros Hne. unfold capture_here, JS.startsWith. simpl.
  destruct (ascii_dec l c) as [->|]; [contradiction | reflexivity].
Qed.

Lemma capture_after_skip (l c : ascii) (lit s : string) :
  c <> l ->
  capture_after (String l lit) (String c s) = capture_after (String l lit) s.
Proof. intros Hne. simpl. now rewrite capture_here_head. Qed.

(** Both patterns begin with [d]; no match starts inside [https://]. *)
Lemma capture_after_https (lit rest : string) :
  capture_after (String "d" lit) ("https://" +:+ rest)
  = capture_after (String "d" lit) rest.
Proof.
  change ("https://" +:+ rest)
    with (String "h" (String "t" (String "t" (String "p" (String "s"
            (String ":" (String "/" (String "/" rest)))))))).
  now rewrite !capture_after_skip by discriminate.
Qed.

End ProxyFacts.

(** C6 as stated fails: a URL of the [open?id=<id>] shape in which the
    [/file/d/<id>] pattern also occurs, here in a query parameter, is
    rewritten to the direct-download URL of the other identifier. *)
Lemma open_link_is_rewritten_to_another_identifier :
  driveMatch2 "https://drive.google.com/open?id=A1&u=drive.google.com/file/d/B2" = Some "A1"
  /\ fetchUrl "https://drive.google.com/open?id=A1&u=drive.google.com/file/d/B2"
     = "https://drive.google.com/uc?export=download&id=B2&confirm=t"
  /\ fetchUrl "https://drive.google.com/open?id=A1&u=drive.google.com/file/d/B2"
     <> "https://drive.google.com/uc?export=download&id=A1&confirm=t".
Proof. vm_compute. split; [reflexivity|]. split; [reflexivity | discriminate]. Qed.

(** C6, amended: a URL in which the [/file/d/<id>] pattern occurs is
    rewritten to [https://drive.google.com/uc?export=download&id=<id>&confirm=t]
    for the identifier of its leftmost occurrence, and a URL in which only
    the [open?id=<id>] pattern occurs to that URL for the identifier of the
    leftmost occurrence of this one; nothing else of the URL is kept.  So a
    URL of the [/file/d/<id>] shape carries its [<id>] over, whatever
    follows the identifier, and a URL of the [open?id=<id>] shape carries
    its [<id>] over unless the first pattern, which has precedence, occurs
    in it, in which case the identifier of that occurrence is carried; and
    [https://drive.google.com/file/d/ABC123/view] becomes the URL of
    [ABC123]. *)
Theorem share_links_become_direct_downloads :
  (forall url id, driveMatch1 url = Some id ->
      fetchUrl url = "https://drive.google.com/uc?export=download&id=" +:+ id +:+ "&confirm=t")
  /\ (forall url id, driveMatch1 url = None -> driveMatch2 url = Some id ->
      fetchUrl url = "https://drive.google.com/uc?export=download&id=" +:+ id +:+ "&confirm=t")
  /\ (forall id rest, is_file_id id -> ends_id rest ->
      driveMatch1 ("https://drive.google.com/file/d/" +:+ id +:+ rest) = Some id
      /\ fetchUrl ("https://drive.google.com/file/d/" +:+ id +:+ rest)
         = "https://drive.google.com/uc?export=download&id=" +:+ id +:+ "&confirm=t")
  /\ (forall id rest, is_file_id id -> ends_id rest ->
      driveMatch2 ("https://drive.google.com/open?id=" +:+ id +:+ rest) = Some id
      /\ fetchUrl ("https://drive.google.com/open?id=" +:+ id +:+ rest)
         = "https://drive.google.com/uc?export=download&id="
           +:+ default id (driveMatch1 ("https://drive.google.com/open?id=" +:+ id +:+ rest))
           +:+ "&confirm=t")
  /\ fetchUrl "https://drive.google.com/file/d/ABC123/view"
     = "https://drive.google.com/uc?export=download&id=ABC123&confirm=t".
Proof.
  assert (Hfile : forall id rest, is_file_id id -> ends_id rest ->
            driveMatch1 ("https://drive.google.com/file/d/" +:+ id +:+ rest) = Some id).
  { intros id rest Hid Hrest. unfold driveMatch1.
    change ("https://drive.google.com/file/d/" +:+ id +:+ rest)
      with ("https://" +:+ ("drive.google.com/file/d/" +:+ id +:+ rest)).
    rewrite ProxyFacts.capture_after_https.
    apply ProxyFacts.capture_after_here. now apply ProxyFacts.capture_here_app. }
  assert (Hopen : forall id rest, is_file_id id -> ends_id rest ->
            driveMatch2 ("https://drive.google.com/open?id=" +:+ id +:+ rest) = Some id).
  { intros id rest Hid Hrest. unfold driveMatch2.
    change ("https://drive.google.com/open?id=" +:+ id +:+ rest)
      with ("https://" +:+ ("drive.google.com/open?id=" +:+ id +:+ rest)).
    rewrite ProxyFacts.capture_after_https.
    apply ProxyFacts.capture_after_here. now apply ProxyFacts.capture_here_app. }
  split; [|split; [|split; [|split]]].
  - intros url id H1. unfold fetchUrl. now rewrite H1.
  - intros url id H1 H2. unfold fetchUrl. now rewrite H1, H2.
  - intros id rest Hid Hrest. split; [now apply Hfile|].
    unfold fetchUrl. now rewrite Hfile.
  - intros id rest Hid Hrest. split; [now apply Hopen|].
    unfold fetchUrl.
    destruct (driveMatch1 ("https://drive.google.com/open?id=" +:+ id +:+ rest));
      [reflexivity|].
    now rewrite Hopen.
  - reflexivity.
Qed.

Lemma share_links_become_direct_downloads_witness :
  fetchUrl "https://drive.google.com/file/d/1a_B-9?usp=sharing"
  = "https://drive.google.com/uc?export=download&id=1a_B-9&confirm=t"
  /\ fetchUrl "https://drive.google.com/open?id=Zz09&authuser=0"
     = "https://drive.google.com/uc?export=download&id=Zz09&confirm=t".
Proof.
  destruct share_links_become_direct_downloads as (_ & _ & Hfile & Hopen & _). split.
  - assert (Hid : is_file_id "1a_B-9") by (split; [discriminate | reflexivity]).
    assert (Hrest : ends_id "?usp=sharing") by reflexivity.
    pose proof (proj2 (Hfile "1a_B-9" "?usp=sharing" Hid Hrest)) as E.
    vm_compute in E. vm_compute. exact E.
  - assert (Hid : is_file_id "Zz09") by (split; [discriminate | reflexivity]).
    assert (Hrest : ends_id "&authuser=0") by reflexivity.
    pose proof (proj2 (Hopen "Zz09" "&authuser=0" Hid Hrest)) as E.
    vm_compute in E. vm_compute. exact E.
Defined.

(** ** [POST /api/create-zip] *)

Module CreateZipFacts.
Import StrFacts PathFacts ResolveFacts HandlerFacts ContainmentFacts LoopFacts.

Section CreateZip.
Context `{Codec}.
Variables (cwd : string) (D : list string) (events : list StreamEvent)
          (body : CreateZipBody) (fs : FileSystem).
Hypothesis HD : Forall (fun s => is_ordinary s = true) D.

Local Abbreviation sid := (sessionId body).
Local Abbreviation outputDir := (abs_path (D ++ ["temp"; sessionId body; "output"])).
Local Abbreviation zipPath := (abs_path (D ++ ["temp"; sessionId body; "ar_output.zip"])).

(** A request is turned away with the file system untouched, or its
    identifier and its batch are well formed. *)
Lemma create_zip_gate :
  snd (create_zip cwd (abs_path D) events body fs) = fs
  \/ (isValidSessionId sid = true /\ body_files body <> []
      /\ length (body_files body) <= 1000).
Proof.
  unfold create_zip.
  destruct (isValidSessionId sid) eqn:Hsid; [|left; now rewrite orb_true_r].
  destruct (String.eqb sid ""); [now left|]. cbn [negb orb].
  destruct (body_files body) as [|e l] eqn:Hfiles; [now left|].
  cbn [length Nat.eqb].
  destruct (Nat.ltb 1000 (S (length l))) eqn:Hmax; [now left|].
  right. repeat split; [discriminate|]. apply Nat.ltb_ge in Hmax. exact Hmax.
Qed.

Hypothesis Hsid : isValidSessionId sid = true.
Hypothesis Hfiles : body_files body <> [].
Hypothesis Hmax : length (body_files body) <= 1000.

(** An accepted request.  The loop handles the entries before the first
    that throws and writes the valid ones among them, in order.  When
    nothing throws the archive is streamed to its final path and the answer
    follows the outcome of the build; when making the output directory or
    handling an entry throws, the answer is the 500 response and no stream
    is opened.  [Q] is any property of the calls that holds of the ones the
    handler makes. *)
Lemma create_zip_accepted (Q : FsOp -> Prop) :
  (forall p, Q (ExistsSync p)) ->
  Q (MkdirSync outputDir) ->
  Q (CreateWriteStream zipPath) ->
  (forall entry, fails_path_checks cwd outputDir entry = false ->
     Q (MkdirSync (Path.dirname (fst (saved_as outputDir entry))))
     /\ forall data, Q (WriteFileSync (fst (saved_as outputDir entry)) data)) ->
  exists fs' handled rest,
    snd (create_zip cwd (abs_path D) events body fs) = fs'
    /\ body_files body = (handled ++ rest)%list
    /\ Forall (fun entry => fd_path entry <> None) handled
    /\ written (log_since fs fs')
       = map (saved_as outputDir)
           (filter (fun entry => fails_validation cwd outputDir entry = false) handled)
    /\ Forall Q (log_since fs fs')
    /\ ((rest = []
         /\ fst (create_zip cwd (abs_path D) events body fs)
            = build_response sid (first_settling events)
         /\ files fs' !! Path.resolve cwd zipPath = Some (streamed events)
         /\ CreateWriteStream zipPath ∈ log_since fs fs')
        \/ (fst (create_zip cwd (abs_path D) events body fs)
            = ErrorJson 500 "Internal server error"
            /\ (forall p, CreateWriteStream p ∉ log_since fs fs')
            /\ ((handled = [] /\ exists st, mkdirSync cwd outputDir st = None)
                \/ exists bad after,
                     rest = bad :: after /\ throws_on cwd outputDir bad))).
Proof.
  intros Qexists Qmkdir Qstream Qentry.
  set (Q' := fun op => Q op /\ forall p, op <> CreateWriteStream p).
  assert (Q'exists : forall p, Q' (ExistsSync p)) by (intros p; split; [apply Qexists | discriminate]).
  assert (Q'mkdir : Q' (MkdirSync outputDir)) by (split; [exact Qmkdir | discriminate]).
  assert (Q'entry : forall entry, fails_path_checks cwd outputDir entry = false ->
            Q' (MkdirSync (Path.dirname (fst (saved_as outputDir entry))))
            /\ forall data, Q' (WriteFileSync (fst (saved_as outputDir entry)) data)).
  { intros entry Hpass. destruct (Qentry entry Hpass) as [Hm Hw].
    split; [split; [exact Hm | discriminate] | intros data; split; [apply Hw | discriminate]]. }
  assert (Hno : forall ops, Forall Q' ops ->
            Forall Q ops /\ forall p, CreateWriteStream p ∉ ops).
  { intros ops Hops. split.
    - eapply Forall_impl; [exact Hops|]. now intros op [Hq _].
    - intros p Hin. rewrite Forall_forall in Hops. destruct (Hops _ Hin) as [_ Hne].
      now apply (Hne p). }
  unfold create_zip. rewrite Hsid.
  assert (Hne : String.eqb sid "" = false).
  { destruct sid; [discriminate Hsid | reflexivity]. }
  rewrite Hne. cbn [negb orb].
  assert (Hlen : Nat.eqb (length (body_files body)) 0 = false).
  { destruct (body_files body); [contradiction | reflexivity]. }
  rewrite Hlen. pose proof Hmax as Hmax'. apply Nat.ltb_ge in Hmax'. rewrite Hmax'.
  rewrite (sessionDir_valid D sid HD Hsid cwd). cbn [negb].
  rewrite (outputDir_eq D sid HD Hsid), (zipPath_eq D sid HD Hsid).
  destruct (ensure_dir_ops Q' cwd outputDir fs (Q'exists _) Q'mkdir)
    as (pre & Hpre & Hwpre & HQpre & Hthrown).
  destruct (ensure_dir cwd outputDir fs) as [[|] fs1]; cbn [fst snd] in *.
  2:{ exists fs1, [], (body_files body).
      assert (Hsince : log_since fs fs1 = pre) by (now apply log_since_app).
      rewrite Hsince. destruct (Hno pre HQpre) as [HQ Hns].
      split; [reflexivity|]. split; [reflexivity|]. split; [constructor|].
      split; [exact Hwpre|]. split; [exact HQ|]. right. split; [reflexivity|]. split; [exact Hns|].
      left. split; [reflexivity | now apply Hthrown]. }
  clear Hthrown.
  destruct (save_files_ops cwd outputDir Q' (body_files body) fs1 Q'exists Q'entry)
    as (handled & rest & ops & Hsplit & Hops & HQops & Hwops & Htyped & Hc).
  destruct (save_files cwd outputDir (body_files body) fs1) as [[|] fs2];
    cbn [fst snd] in *.
  - subst rest.
    destruct (createZip_spec cwd events outputDir zipPath fs2) as (Hout & Hlog & Hfile).
    destruct (createZip cwd events outputDir zipPath fs2) as [outcome fs3].
    cbn [fst snd] in Hout, Hlog, Hfile.
    assert (Hsince : log_since fs fs3 = (pre ++ ops ++ [CreateWriteStream zipPath])%list).
    { apply log_since_app. rewrite Hlog, Hops, Hpre. now rewrite <- !List.app_assoc. }
    exists fs3, handled, [].
    split; [now destruct outcome|]. split; [exact Hsplit|]. split; [exact Htyped|].
    rewrite Hsince. split.
    { rewrite !written_app, Hwpre, Hwops. cbn. now rewrite List.app_nil_r. }
    split.
    { destruct (Hno pre HQpre) as [HQ1 _]. destruct (Hno ops HQops) as [HQ2 _].
      repeat (apply Forall_app; split); auto. }
    left. split; [reflexivity|]. split; [rewrite <- Hout; now destruct outcome|].
    split; [now destruct outcome|].
    apply list_elem_of_In, in_or_app. right. apply in_or_app. right. now left.
  - destruct Hc as (bad & after & Hrest & Hbad).
    assert (Hsince : log_since fs fs2 = (pre ++ ops)%list).
    { apply log_since_app. rewrite Hops, Hpre. now rewrite <- !List.app_assoc. }
    exists fs2, handled, rest.
    destruct (Hno pre HQpre) as [HQ1 Hn1]. destruct (Hno ops HQops) as [HQ2 Hn2].
    split; [reflexivity|]. split; [exact Hsplit|]. split; [exact Htyped|].
    rewrite Hsince. split.
    { rewrite written_app, Hwpre, Hwops. reflexivity. }
    split; [apply Forall_app; now split|].
    right. split; [reflexivity|]. split.
    { intros p Hin. apply list_elem_of_In, in_app_or in Hin as [Hin | Hin];
        [now apply (Hn1 p), list_elem_of_In | now apply (Hn2 p), list_elem_of_In]. }
    right. now exists bad, after.
Qed.

(** The same, when no property of the calls is asked for. *)
Lemma create_zip_accepted_plain :
  exists fs' handled rest,
    snd (create_zip cwd (abs_path D) events body fs) = fs'
    /\ body_files body = (handled ++ rest)%list
    /\ Forall (fun entry => fd_path entry <> None) handled
    /\ written (log_since fs fs')
       = map (saved_as outputDir)
           (filter (fun entry => fails_validation cwd outputDir entry = false) handled)
    /\ ((rest = []
         /\ fst (create_zip cwd (abs_path D) events body fs)
            = build_response sid (first_settling events)
         /\ files fs' !! Path.resolve cwd zipPath = Some (streamed events)
         /\ CreateWriteStream zipPath ∈ log_since fs fs')
        \/ (fst (create_zip cwd (abs_path D) events body fs)
            = ErrorJson 500 "Internal server error"
            /\ (forall p, CreateWriteStream p ∉ log_since fs fs')
            /\ ((handled = [] /\ exists st, mkdirSync cwd outputDir st = None)
                \/ exists bad after,
                     rest = bad :: after /\ throws_on cwd outputDir bad))).
Proof.
  destruct (create_zip_accepted (fun _ => True))
    as (fs' & handled & rest & H1 & H2 & Ht & H3 & _ & H5); auto.
  now exists fs', handled, rest.
Qed.
End CreateZip.

End CreateZipFacts.

Module DownloadFacts.
Import StrFacts PathFacts ResolveFacts HandlerFacts.

(** The archive path is served as soon as a file exists there. *)
Lemma download_archive `{Codec} (cwd : string) (D : list string) (sid : string)
    (fs : FileSystem) (data : list byte) :
  Forall (fun s => is_ordinary s = true) D ->
  isValidSessionId sid = true ->
  files fs !! Path.resolve cwd (abs_path (D ++ ["temp"; sid; "ar_output.zip"])) = Some data ->
  fst (download cwd (abs_path D) sid "ar_output.zip" fs)
  = Download (abs_path (D ++ ["temp"; sid; "ar_output.zip"])) "ar_output.zip" data.
Proof.
  intros HD Hsid Hfile. unfold download. rewrite Hsid. cbn [negb].
  change (isValidFilename "ar_output.zip") with true. cbn [negb].
  rewrite (zipPath_valid D sid HD Hsid cwd). cbn [negb].
  rewrite (zipPath_eq D sid HD Hsid).
  unfold existsSync. cbv zeta.
  rewrite (bool_decide_eq_true_2 (is_Some _)) by (rewrite Hfile; eauto).
  rewrite orb_true_r. cbn [files record_op]. now rewrite Hfile.
Qed.

End DownloadFacts.

(** C5: when the session identifier is not 64 lowercase hexadecimal
    characters, [POST /api/create-zip] answers 400 and the file system,
    the log of its calls included, is as it was: nothing was looked up,
    created or written. *)
Theorem malformed_session_id_is_rejected `{Codec} (cwd dirname : string)
    (events : list StreamEvent) (body : CreateZipBody) (fs : FileSystem) :
  ~ is_session_identifier (sessionId body) ->
  create_zip cwd dirname events body fs = (ErrorJson 400 "Invalid session ID", fs)
  /\ log_since fs (snd (create_zip cwd dirname events body fs)) = [].
Proof.
  intros Hbad.
  assert (Hreject : create_zip cwd dirname events body fs
                    = (ErrorJson 400 "Invalid session ID", fs)).
  { unfold create_zip.
    destruct (isValidSessionId (sessionId body)) eqn:Hvalid.
    - elim Hbad. now apply isValidSessionId_spec.
    - now rewrite orb_true_r. }
  split; [exact Hreject|]. rewrite Hreject. apply LoopFacts.log_since_same.
Qed.

Lemma malformed_session_id_is_rejected_witness :
  @create_zip Examples.text_codec "/srv" "/srv/app" [OutputClose]
    {| sessionId := "../../../etc"; body_files := [Examples.good_entry] |} Examples.empty_fs
  = (ErrorJson 400 "Invalid session ID", Examples.empty_fs)
  /\ log_since Examples.empty_fs
       (snd (@create_zip Examples.text_codec "/srv" "/srv/app" [OutputClose]
               {| sessionId := "../../../etc"; body_files := [Examples.good_entry] |}
               Examples.empty_fs)) = [].
Proof.
  apply (@malformed_session_id_is_rejected Examples.text_codec).
  intros [Hlen _]. simpl in Hlen. lia.
Defined.




(** C1: for any client path, the sanitized path is empty (the entry is
    rejected), or the containment check on the joined path fails (the entry
    is rejected), or the joined path resolves to the output directory of the
    session or below it; and of the calls [POST /api/create-zip] makes, every
    directory made and every file written with [writeFileSync] is the output
    directory or lies below it, the only other thing opened for writing
    being the archive, at [ar_output.zip] in the session directory. *)
Theorem saved_files_stay_in_output_directory `{Codec} (cwd : string) (D : list string)
    (events : list StreamEvent) (body : CreateZipBody) (fs : FileSystem) :
  Forall (fun s => is_ordinary s = true) D ->
  let sessionDir := Path.join (TEMP_DIR (abs_path D)) (sessionId body) in
  let outputDir := Path.join sessionDir "output" in
  let zipPath := Path.join sessionDir "ar_output.zip" in
  (isValidSessionId (sessionId body) = true ->
   forall unsafePath,
     let safePath := sanitizePath unsafePath in
     let fullPath := Path.join outputDir safePath in
     safePath = ""
     \/ validatePath cwd outputDir fullPath = false
     \/ path_within (Path.resolve cwd outputDir) (Path.resolve cwd fullPath))
  /\ Forall (stays_within cwd outputDir zipPath)
       (log_since fs (snd (create_zip cwd (abs_path D) events body fs))).
Proof.
  intros HD sessionDir outputDir zipPath. subst sessionDir outputDir zipPath. split.
  { intros Hsid unsafePath. cbv zeta.
    rewrite (HandlerFacts.outputDir_eq D _ HD Hsid).
    destruct (String.eqb_spec (sanitizePath unsafePath) "") as [|Hne]; [now left|].
    right.
    destruct (validatePath cwd _ (Path.join _ (sanitizePath unsafePath))) eqn:Hvalid;
      [right | now left].
    apply ContainmentFacts.sanitized_path_contained; [|exact Hne | exact Hvalid].
    now apply HandlerFacts.output_ordinary. }
  destruct (CreateZipFacts.create_zip_gate cwd D events body fs)
    as [Hsame|(Hsid & Hfiles & Hmax)].
  { rewrite Hsame, LoopFacts.log_since_same. constructor. }
  rewrite (HandlerFacts.outputDir_eq D _ HD Hsid), (HandlerFacts.zipPath_eq D _ HD Hsid).
  pose proof (HandlerFacts.output_ordinary D _ HD Hsid) as Hout.
  destruct (CreateZipFacts.create_zip_accepted cwd D events body fs HD Hsid Hfiles Hmax
              (stays_within cwd (abs_path (D ++ ["temp"; sessionId body; "output"]))
                 (abs_path (D ++ ["temp"; sessionId body; "ar_output.zip"]))))
    as (fs' & handled & rest & Hsnd & _ & _ & _ & Hstay & _).
  - intros p. exact I.
  - cbn. unfold path_within. reflexivity.
  - reflexivity.
  - change (D ++ ["temp"; sessionId body; "output"])%list
      with (D ++ ["temp"; sessionId body] ++ ["output"])%list in *.
    rewrite List.app_assoc in *.
    apply EntryFacts.entry_stays_within; [exact Hout | now destruct D].
  - rewrite Hsnd. exact Hstay.
Qed.

Lemma saved_files_stay_in_output_directory_witness :
  Forall (stays_within "/srv" ("/srv/app/temp/" +:+ Examples.sid +:+ "/output")
            ("/srv/app/temp/" +:+ Examples.sid +:+ "/ar_output.zip"))
    (log_since Examples.empty_fs
       (snd (@create_zip Examples.text_codec "/srv" "/srv/app" [OutputClose]
               Examples.batch Examples.empty_fs))).
Proof.
  apply (@saved_files_stay_in_output_directory Examples.text_codec "/srv" ["srv"; "app"]
           [OutputClose] Examples.batch Examples.empty_fs).
  repeat constructor.
Defined.

(** C8 as stated fails: the archive is streamed straight to the path the
    download route serves, so after a build that the archiver aborts the
    request is answered 500 and the bytes written so far can be downloaded. *)
Lemma failed_build_leaves_a_downloadable_archive :
  let result := @create_zip Examples.text_codec "/srv" "/srv/app"
                  [ArchiveData [x50; x4b]; ArchiveError] Examples.batch Examples.empty_fs in
  fst result = ErrorJson 500 "Internal server error"
  /\ fst (@download "/srv" "/srv/app" Examples.sid "ar_output.zip" (snd result))
     = Download ("/srv/app/temp/" +:+ Examples.sid +:+ "/ar_output.zip") "ar_output.zip"
         [x50; x4b].
Proof. vm_compute. split; reflexivity. Qed.

(** C8, amended: the success response is sent only when the output stream
    has closed with nothing but data before it, and an archiver error that
    comes first is answered with the 500 response and no download URL; once
    the build has started, which a success response implies, the file at
    the archive path holds the bytes streamed so far, also after a failed
    build, and the download route serves them. *)
Theorem archive_is_built_in_place `{Codec} (cwd : string) (D : list string)
    (events : list StreamEvent) (body : CreateZipBody) (fs : FileSystem) :
  Forall (fun s => is_ordinary s = true) D ->
  isValidSessionId (sessionId body) = true ->
  body_files body <> [] ->
  length (body_files body) <= 1000 ->
  let zipPath := Path.join (Path.join (TEMP_DIR (abs_path D)) (sessionId body)) "ar_output.zip" in
  let result := create_zip cwd (abs_path D) events body fs in
  (forall url, fst result = ZipReady url ->
     CreateWriteStream zipPath ∈ log_since fs (snd result)
     /\ exists chunks after, events = (map ArchiveData chunks ++ OutputClose :: after)%list)
  /\ (forall chunks after,
        events = (map ArchiveData chunks ++ ArchiveError :: after)%list ->
        fst result = ErrorJson 500 "Internal server error")
  /\ (CreateWriteStream zipPath ∈ log_since fs (snd result) ->
      fst result = build_response (sessionId body) (first_settling events)
      /\ files (snd result) !! Path.resolve cwd zipPath = Some (streamed events)
      /\ fst (download cwd (abs_path D) (sessionId body) "ar_output.zip" (snd result))
         = Download zipPath "ar_output.zip" (streamed events)).
Proof.
  intros HD Hsid Hfiles Hmax zipPath result. subst zipPath result.
  rewrite (HandlerFacts.zipPath_eq D _ HD Hsid).
  destruct (CreateZipFacts.create_zip_accepted_plain cwd D events body fs HD Hsid Hfiles Hmax)
    as (fs' & handled & rest & Hsnd & _ & _ & _ & Hcases).
  rewrite Hsnd.
  destruct Hcases as [(_ & Hresp & Hfile & Hstream) | (Hresp & Hnone & _)].
  - rewrite Hresp. split; [|split].
    + intros url Hready. split; [exact Hstream|].
      apply LoopFacts.first_settling_fulfilled.
      destruct (first_settling events); [discriminate | reflexivity | discriminate].
    + intros chunks after Hevents.
      assert (Hrej : first_settling events = Rejected).
      { apply LoopFacts.first_settling_rejected. eauto. }
      now rewrite Hrej.
    + intros _. split; [reflexivity|]. split; [exact Hfile|].
      now apply DownloadFacts.download_archive.
  - rewrite Hresp. split; [|split].
    + intros url Hready. discriminate Hready.
    + reflexivity.
    + intros Hin. now apply Hnone in Hin.
Qed.

Lemma archive_is_built_in_place_witness :
  files (snd (@create_zip Examples.text_codec "/srv" "/srv/app"
                [ArchiveData [x50; x4b]; OutputClose] Examples.batch Examples.empty_fs))
    !! Path.resolve "/srv" ("/srv/app/temp/" +:+ Examples.sid +:+ "/ar_output.zip")
  = Some [x50; x4b].
Proof.
  destruct (@archive_is_built_in_place Examples.text_codec "/srv" ["srv"; "app"]
              [ArchiveData [x50; x4b]; OutputClose] Examples.batch Examples.empty_fs)
    as (Hready & _ & Hbuilt).
  - repeat constructor.
  - reflexivity.
  - discriminate.
  - simpl. lia.
  - apply Hbuilt. eapply Hready. vm_compute. reflexivity.
Defined.

Lemma private_hosts_are_rejected_witness :
  exists status error,
    proxy_image_validate (fun _ => true) Examples.https_hostname
      (Some "https://169.254.169.254/latest/meta-data") = ProxyReject status error.
Proof.
  apply (private_hosts_are_rejected (fun _ => true) Examples.https_hostname
           "https://169.254.169.254/latest/meta-data" "169.254.169.254");
    reflexivity.
Defined.

(** * Further properties *)

(** ** The download route *)

Module DownloadRouteFacts.
Import StrFacts PathFacts NormalizeFacts SanitizeFacts ResolveFacts HandlerFacts.

(** A relative path that is [".."] or has no [".."] segment and passes the
    containment check lies within the base directory. *)
Lemma shaped_path_contained (cwd : string) (B : list string) (s : string) :
  Forall (fun seg => is_ordinary seg = true) B ->
  s <> "" ->
  s = ".." \/ Forall (fun seg => seg <> "..") (JS.split_on "/" s) ->
  validatePath cwd (abs_path B) (Path.join (abs_path B) s) = true ->
  path_within (Path.resolve cwd (abs_path B)) (Path.resolve cwd (Path.join (abs_path B) s)).
Proof.
  intros HB Hne Hshape Hvalid. unfold path_within.
  rewrite (resolve_abs_path_plain cwd B) in * by exact HB.
  rewrite (segments_abs_path B) by exact HB.
  destruct Hshape as [Hparent|Hnone].
  - rewrite Hparent in *.
    destruct B as [|x B']; [apply prefix_nil|].
    destruct (@exists_last _ (x :: B')) as (B0 & b & HeqB); [discriminate|].
    rewrite HeqB in *. clear HeqB x B'.
    exfalso. destruct (join_parent B0 b HB) as (t & Ht & Hjoin).
    unfold validatePath in Hvalid. rewrite Hjoin in Hvalid.
    pose proof HB as HB0. apply Forall_app in HB0 as [HB0 Hb].
    rewrite (resolve_abs_path cwd B0 t), (resolve_abs_path_plain cwd (B0 ++ [b])) in Hvalid
      by assumption.
    apply startsWith_length in Hvalid.
    inversion Hb as [|? ? Hb' _]; subst.
    destruct (is_ordinary_inv _ Hb') as (Hbne & _).
    pose proof (abs_path_snoc_length B0 b Hbne). lia.
  - destruct (join_below B s HB Hne Hnone) as (Hall & t & Ht & Hjoin).
    rewrite Hjoin, (resolve_abs_path cwd _ t), segments_abs_path by assumption.
    now apply prefix_app_r.
Qed.

Lemma filename_char_no_separator (c : ascii) :
  is_filename_char c = true -> Ascii.eqb c "/" = false /\ Ascii.eqb c "\" = false.
Proof.
  intros Hc.
  destruct (Ascii.eqb_spec c "/") as [->|]; [discriminate|].
  destruct (Ascii.eqb_spec c "\") as [->|]; [discriminate|]. now split.
Qed.

Lemma valid_filename_inv (filename : string) :
  isValidFilename filename = true ->
  filename <> "" /\ no_slash filename = true /\ no_backslash filename = true.
Proof.
  unfold isValidFilename. rewrite andb_true_iff, negb_true_iff.
  intros [Hne Hchars]. apply String.eqb_neq in Hne. repeat split; [exact Hne| |].
  - unfold no_slash. eapply all_chars_impl; [|exact Hchars].
    intros c Hc. destruct (filename_char_no_separator c Hc) as [-> _]. reflexivity.
  - unfold no_backslash. eapply all_chars_impl; [|exact Hchars].
    intros c Hc. destruct (filename_char_no_separator c Hc) as [_ ->]. reflexivity.
Qed.

Lemma valid_filename_cases (filename : string) :
  isValidFilename filename = true ->
  filename = "." \/ filename = ".." \/ is_ordinary filename = true.
Proof.
  intros Hvalid. destruct (valid_filename_inv _ Hvalid) as (Hne & Hns & _).
  destruct (String.eqb_spec filename ".") as [|H1]; [now left|].
  destruct (String.eqb_spec filename "..") as [|H2]; [now right; left|].
  right; right. unfold is_ordinary.
  rewrite !andb_true_iff, !negb_true_iff. repeat split; try (now apply String.eqb_neq).
  exact Hns.
Qed.

End DownloadRouteFacts.

(** X1: whatever file the download route sends, the request carried a valid
    session identifier and a valid file name, and the file is the one stored
    under the path [TEMP_DIR/<sessionId>/<filename>], which lies within the
    directory of that session. *)
Theorem download_serves_only_session_files (cwd : string) (D : list string)
    (sid filename : string) (fs : FileSystem) (p name : string) (data : list byte) :
  Forall (fun s => is_ordinary s = true) D ->
  fst (download cwd (abs_path D) sid filename fs) = Download p name data ->
  isValidSessionId sid = true
  /\ isValidFilename filename = true
  /\ name = filename
  /\ p = Path.join (Path.join (TEMP_DIR (abs_path D)) sid) filename
  /\ files fs !! Path.resolve cwd p = Some data
  /\ path_within (Path.resolve cwd (Path.join (TEMP_DIR (abs_path D)) sid))
       (Path.resolve cwd p).
Proof.
  intros HD. unfold download.
  destruct (isValidSessionId sid) eqn:Hsid; cbn [negb]; [|discriminate].
  destruct (isValidFilename filename) eqn:Hname; cbn [negb]; [|discriminate].
  destruct (validatePath cwd _ (Path.join _ filename)) eqn:Hvalid; cbn [negb];
    [|discriminate].
  unfold existsSync. cbv zeta.
  destruct (bool_decide _ || bool_decide _); cbn [fst]; [|discriminate].
  cbn [files record_op].
  destruct (files fs !! _) as [bytes|] eqn:Hfile; [|discriminate].
  intros Heq. injection Heq as <- <- <-. repeat split; [exact Hfile|].
  rewrite (HandlerFacts.sessionDir_eq D sid HD Hsid) in *.
  destruct (DownloadRouteFacts.valid_filename_inv _ Hname) as (Hne & Hns & _).
  apply DownloadRouteFacts.shaped_path_contained;
    [now apply HandlerFacts.session_ordinary | exact Hne | | exact Hvalid].
  rewrite (PathFacts.split_on_no_slash _ Hns).
  destruct (String.eqb_spec filename "..") as [|Hnp]; [now left|].
  right. now repeat constructor.
Qed.

Lemma download_serves_only_session_files_witness :
  path_within
    (Path.resolve "/srv" (Path.join (TEMP_DIR (abs_path ["srv"; "app"])) Examples.sid))
    (Path.resolve "/srv" ("/srv/app/temp/" +:+ Examples.sid +:+ "/ar_output.zip")).
Proof.
  refine (proj2 (proj2 (proj2 (proj2 (proj2
    (download_serves_only_session_files "/srv" ["srv"; "app"] Examples.sid "ar_output.zip"
       {| dirs := ∅;
          files := {[ "/srv/app/temp/" +:+ Examples.sid +:+ "/ar_output.zip" := [x50; x4b] ]};
          log := [] |}
       ("/srv/app/temp/" +:+ Examples.sid +:+ "/ar_output.zip") "ar_output.zip" [x50; x4b]
       _ _)))))).
  - repeat constructor.
  - vm_compute. reflexivity.
Defined.

(** X2: for a valid session identifier and a valid file name, the download
    route answers 400 "Invalid path" exactly when the file name is [".."];
    every other valid name designates a path of the session directory. *)
Theorem download_invalid_path_iff_parent (cwd : string) (D : list string)
    (sid filename : string) (fs : FileSystem) :
  Forall (fun s => is_ordinary s = true) D ->
  isValidSessionId sid = true ->
  isValidFilename filename = true ->
  (fst (download cwd (abs_path D) sid filename fs) = SendText 400 "Invalid path"
   <-> filename = "..").
Proof.
  intros HD Hsid Hname. unfold download. rewrite Hsid, Hname. cbn [negb].
  rewrite (HandlerFacts.sessionDir_eq D sid HD Hsid).
  pose proof (HandlerFacts.session_ordinary D sid HD Hsid) as HB.
  assert (HBne : (D ++ ["temp"; sid])%list <> []) by (now destruct D).
  destruct (DownloadRouteFacts.valid_filename_inv _ Hname) as (Hne & Hns & _).
  destruct (String.eqb_spec filename "..") as [->|Hnp].
  - assert (Hvalid : validatePath cwd (abs_path (D ++ ["temp"; sid]))
                       (Path.join (abs_path (D ++ ["temp"; sid])) "..") = false).
    { destruct (validatePath cwd _ _) eqn:Hvalid; [|reflexivity]. exfalso.
      change (D ++ ["temp"; sid])%list with (D ++ ["temp"] ++ [sid])%list in *.
      rewrite List.app_assoc in *.
      destruct (ResolveFacts.join_parent _ sid HB) as (t & Ht & Hjoin).
      unfold validatePath in Hvalid. rewrite Hjoin in Hvalid.
      pose proof HB as HB0. apply Forall_app in HB0 as [HB0 Hb].
      rewrite (ResolveFacts.resolve_abs_path cwd _ t),
        (ResolveFacts.resolve_abs_path_plain cwd _ HB) in Hvalid by assumption.
      apply StrFacts.startsWith_length in Hvalid.
      inversion Hb as [|? ? Hb' _]; subst.
      destruct (PathFacts.is_ordinary_inv _ Hb') as (Hbne & _).
      pose proof (ResolveFacts.abs_path_snoc_length (D ++ ["temp"]) sid Hbne). lia. }
    rewrite Hvalid. cbn [negb fst]. split; auto.
  - assert (Hnone : Forall (fun seg => seg <> "..") (JS.split_on "/" filename)).
    { rewrite (PathFacts.split_on_no_slash _ Hns). now repeat constructor. }
    destruct (ResolveFacts.join_below _ filename HB Hne Hnone) as (Hall & t & Ht & Hjoin).
    assert (Hvalid : validatePath cwd (abs_path (D ++ ["temp"; sid]))
                       (Path.join (abs_path (D ++ ["temp"; sid])) filename) = true).
    { unfold validatePath. rewrite Hjoin.
      rewrite (ResolveFacts.resolve_abs_path cwd _ t),
        (ResolveFacts.resolve_abs_path_plain cwd _ HB) by assumption.
      now apply ResolveFacts.abs_path_app_prefix. }
    rewrite Hvalid. cbn [negb]. unfold existsSync. cbv zeta.
    split; [|contradiction].
    destruct (bool_decide _ || bool_decide _); cbn [fst].
    + cbn [files record_op]. destruct (files fs !! _); cbn [fst]; intros E;
        [discriminate E | injection E as E1 E2; discriminate E2].
    + intros E. injection E as E1 E2. discriminate E2.
Qed.

Lemma download_invalid_path_iff_parent_witness :
  fst (download "/srv" (abs_path ["srv"; "app"]) Examples.sid ".." Examples.empty_fs)
  = SendText 400 "Invalid path".
Proof.
  apply (download_invalid_path_iff_parent "/srv" ["srv"; "app"] Examples.sid ".."
           Examples.empty_fs); [repeat constructor | reflexivity | reflexivity | reflexivity].
Defined.

(** X3: a request for a download whose session identifier is malformed, or
    whose file name is empty or holds a character outside [a-zA-Z0-9_.-] (a
    separator of either kind among them), is answered 400 before the file
    system is touched. *)
Theorem download_rejects_malformed_requests (cwd dirname sid filename : string)
    (fs : FileSystem) :
  (~ is_session_identifier sid ->
   download cwd dirname sid filename fs = (SendText 400 "Invalid session ID", fs))
  /\ (is_session_identifier sid ->
      filename = "" \/ all_chars is_filename_char filename = false ->
      download cwd dirname sid filename fs = (SendText 400 "Invalid filename", fs))
  /\ (isValidFilename filename = true ->
      no_slash filename = true /\ no_backslash filename = true).
Proof.
  repeat split.
  - intros Hbad. unfold download.
    destruct (isValidSessionId sid) eqn:Hsid; [|reflexivity].
    elim Hbad. now apply isValidSessionId_spec.
  - intros Hid Hname. apply isValidSessionId_spec in Hid.
    unfold download. rewrite Hid. cbn [negb].
    assert (Hbad : isValidFilename filename = false).
    { unfold isValidFilename. destruct Hname as [-> | ->]; [reflexivity|].
      apply andb_false_r. }
    now rewrite Hbad.
  - now apply DownloadRouteFacts.valid_filename_inv.
  - now apply DownloadRouteFacts.valid_filename_inv.
Qed.

Lemma download_rejects_malformed_requests_witness :
  download "/srv" "/srv/app" Examples.sid "a/b.zip" Examples.empty_fs
  = (SendText 400 "Invalid filename", Examples.empty_fs).
Proof.
  destruct (download_rejects_malformed_requests "/srv" "/srv/app" Examples.sid "a/b.zip"
              Examples.empty_fs) as (_ & Hname & _).
  apply Hname; [split; reflexivity | right; reflexivity].
Defined.

(** ** The gates of [POST /api/create-zip] *)

(** X4: with a valid session identifier, an empty batch is answered 400
    "Invalid files array" and a batch of more than 1000 entries 400 "Too many
    files"; in both cases the file system is not touched. *)
Theorem batch_size_is_checked_first `{Codec} (cwd dirname : string)
    (events : list StreamEvent) (body : CreateZipBody) (fs : FileSystem) :
  isValidSessionId (sessionId body) = true ->
  (body_files body = [] ->
   create_zip cwd dirname events body fs = (ErrorJson 400 "Invalid files array", fs))
  /\ (1000 < length (body_files body) ->
      create_zip cwd dirname events body fs = (ErrorJson 400 "Too many files", fs)).
Proof.
  intros Hsid.
  assert (Hne : String.eqb (sessionId body) "" = false).
  { destruct (sessionId body); [discriminate Hsid | reflexivity]. }
  split.
  - intros Hempty. unfold create_zip. rewrite Hsid, Hne, Hempty. reflexivity.
  - intros Hmany. unfold create_zip. rewrite Hsid, Hne. cbn [negb orb].
    destruct (body_files body) as [|e l] eqn:Hfiles; [simpl in Hmany; lia|].
    cbn [length Nat.eqb]. apply Nat.ltb_lt in Hmany. cbn [length] in Hmany.
    now rewrite Hmany.
Qed.

Lemma batch_size_is_checked_first_witness :
  @create_zip Examples.text_codec "/srv" "/srv/app" [OutputClose]
    {| sessionId := Examples.sid; body_files := repeat Examples.good_entry 1001 |}
    Examples.empty_fs
  = (ErrorJson 400 "Too many files", Examples.empty_fs).
Proof.
  apply (@batch_size_is_checked_first Examples.text_codec "/srv" "/srv/app" [OutputClose]
           {| sessionId := Examples.sid; body_files := repeat Examples.good_entry 1001 |}
           Examples.empty_fs); [reflexivity|].
  cbn [body_files]. rewrite repeat_length. lia.
Defined.

Module GateFacts.
Import StrFacts PathFacts ResolveFacts HandlerFacts.

(** The three early answers of the handler, or a well-formed request. *)
Lemma create_zip_cases `{Codec} (cwd : string) (D : list string)
    (events : list StreamEvent) (body : CreateZipBody) (fs : FileSystem) :
  fst (create_zip cwd (abs_path D) events body fs) = ErrorJson 400 "Invalid session ID"
  \/ fst (create_zip cwd (abs_path D) events body fs) = ErrorJson 400 "Invalid files array"
  \/ fst (create_zip cwd (abs_path D) events body fs) = ErrorJson 400 "Too many files"
  \/ (isValidSessionId (sessionId body) = true /\ body_files body <> []
      /\ length (body_files body) <= 1000).
Proof.
  unfold create_zip.
  destruct (isValidSessionId (sessionId body)) eqn:Hsid;
    [|left; now rewrite orb_true_r].
  destruct (String.eqb (sessionId body) ""); [now left|]. cbn [negb orb].
  destruct (body_files body) as [|e l] eqn:Hfiles; [now right; left|].
  cbn [length Nat.eqb].
  destruct (Nat.ltb 1000 (S (length l))) eqn:Hmax; [now right; right; left|].
  right; right; right. repeat split; [discriminate|]. now apply Nat.ltb_ge in Hmax.
Qed.

End GateFacts.

(** X5: the containment check on the session directory never fails: whatever
    the request, [POST /api/create-zip] does not answer 400 "Invalid path". *)
Theorem create_zip_never_answers_invalid_path `{Codec} (cwd : string) (D : list string)
    (events : list StreamEvent) (body : CreateZipBody) (fs : FileSystem) :
  Forall (fun s => is_ordinary s = true) D ->
  fst (create_zip cwd (abs_path D) events body fs) <> ErrorJson 400 "Invalid path".
Proof.
  intros HD Hresp. apply (f_equal response_error) in Hresp. cbn [response_error] in Hresp.
  destruct (GateFacts.create_zip_cases cwd D events body fs)
    as [E|[E|[E|(Hsid & Hfiles & Hmax)]]]; try (rewrite E in Hresp; discriminate Hresp).
  destruct (CreateZipFacts.create_zip_accepted_plain cwd D events body fs HD Hsid Hfiles Hmax)
    as (fs' & handled & rest & _ & _ & _ & _ & [(_ & Heq & _) | (Heq & _)]);
    rewrite Heq in Hresp; [|discriminate Hresp].
  destruct (first_settling events); discriminate Hresp.
Qed.

Lemma create_zip_never_answers_invalid_path_witness :
  fst (@create_zip Examples.text_codec "/srv" (abs_path ["srv"; "app"]) [ArchiveError]
         Examples.batch Examples.empty_fs)
  <> ErrorJson 400 "Invalid path".
Proof.
  apply (@create_zip_never_answers_invalid_path Examples.text_codec "/srv" ["srv"; "app"]).
  repeat constructor.
Defined.

(** X6: [validatePath] accepts every path that is the base directory or lies
    below it, with or without a trailing separator: it only errs on the
    side of accepting. *)
Theorem validatePath_accepts_contained_paths (cwd : string) (B K : list string)
    (t : string) :
  Forall (fun s => is_ordinary s = true) (B ++ K) ->
  t = "" \/ t = "/" ->
  validatePath cwd (abs_path B) (abs_path (B ++ K) +:+ t) = true.
Proof.
  intros Hall Ht. unfold validatePath.
  rewrite (ResolveFacts.resolve_abs_path cwd (B ++ K) t) by assumption.
  pose proof Hall as HB. apply Forall_app in HB as [HB _].
  rewrite (ResolveFacts.resolve_abs_path_plain cwd B) by exact HB.
  destruct B as [|b B'].
  - apply PathFacts.startsWith_slash.
  - now apply ResolveFacts.abs_path_app_prefix.
Qed.

Lemma validatePath_accepts_contained_paths_witness :
  validatePath "/srv" "/srv/app/temp" "/srv/app/temp/abc/output/" = true.
Proof.
  apply (validatePath_accepts_contained_paths "/srv" ["srv"; "app"; "temp"]
           ["abc"; "output"] "/"); [repeat constructor | now right].
Defined.

(** ** What [sanitizePath] does to a path *)

Module SanitizeMoreFacts.
Import StrFacts PathFacts NormalizeFacts SanitizeFacts ResolveFacts HandlerFacts.

Lemma replace_leading_parents_no_leading (n : nat) :
  forall t rest, String.length t <= n ->
    replace_leading_parents t <> String "." (String "." (String "/" rest))
    /\ replace_leading_parents t <> String "." (String "." (String "\" rest)).
Proof.
  induction n as [|n IH]; intros t rest Hlen.
  { destruct t; [|simpl in Hlen; lia]. split; discriminate. }
  destruct (leading_parent_dec t) as [[r ->]|[[r ->]|[Hslash Hback]]].
  - rewrite replace_leading_parents_slash. simpl in Hlen. apply IH. lia.
  - rewrite replace_leading_parents_backslash. simpl in Hlen. apply IH. lia.
  - rewrite replace_leading_parents_stay by assumption. split; [apply Hslash | apply Hback].
Qed.

Lemma is_plain_inv (s : string) :
  is_plain s = true -> is_ordinary s = true /\ no_backslash s = true.
Proof. unfold is_plain. now rewrite andb_true_iff. Qed.

Lemma plain_ordinary (l : list string) :
  Forall (fun s => is_plain s = true) l -> Forall (fun s => is_ordinary s = true) l.
Proof.
  intros Hall. eapply Forall_impl; [exact Hall|]. intros x Hx. now apply is_plain_inv in Hx.
Qed.

Lemma norm_segments_parents (k j : nat) :
  Path.norm_segments true (repeat ".." k) (repeat ".." j) = repeat ".." (k + j).
Proof.
  revert j. induction k as [|k IH]; intros j; [reflexivity|].
  cbn [repeat Path.norm_segments fold_left].
  change (fold_left (Path.norm_step true) ?l ?r) with (Path.norm_segments true l r).
  assert (Hstep : Path.norm_step true (repeat ".." j) ".." = repeat ".." (S j)).
  { destruct j; reflexivity. }
  rewrite Hstep, IH. f_equal. lia.
Qed.

Lemma norm_segments_parents_nil (k : nat) :
  Path.norm_segments true (repeat ".." k) [] = repeat ".." k.
Proof.
  pose proof (norm_segments_parents k 0) as Hk. rewrite Nat.add_0_r in Hk. exact Hk.
Qed.

Lemma join_first_segment (x : string) (T : list string) :
  JS.join_with "/" (x :: T) = x \/ exists J, JS.join_with "/" (x :: T) = x +:+ String "/" J.
Proof. destruct T; [now left | right; eauto]. Qed.

Lemma startsWith_slash_false (c : ascii) (s : string) :
  Ascii.eqb c "/" = false -> JS.startsWith (String c s) "/" = false.
Proof.
  intros Hc. unfold JS.startsWith. cbn [String.prefix].
  destruct (ascii_dec "/" c) as [<-|]; [discriminate Hc | reflexivity].
Qed.

Section NormalRelative.
Variables (k : nat) (segs : list string).
Hypothesis Hsegs : segs <> [].
Hypothesis Hplain : Forall (fun s => is_plain s = true) segs.

Local Abbreviation L := (repeat ".." k ++ segs)%list.

Lemma relative_segments_no_slash : Forall (fun seg => no_slash seg = true) L.
Proof.
  apply Forall_app. split.
  - apply Forall_forall. intros x Hx. apply list_elem_of_In, repeat_spec in Hx. now subst.
  - apply ordinary_no_slash, plain_ordinary, Hplain.
Qed.

Lemma relative_segments_nonempty : Forall (fun seg => seg <> "") L.
Proof.
  apply Forall_app. split.
  - apply Forall_forall. intros x Hx. apply list_elem_of_In, repeat_spec in Hx. now subst.
  - apply ordinary_nonempty, plain_ordinary, Hplain.
Qed.

Lemma relative_not_nil : L <> [].
Proof. destruct k; [exact Hsegs | discriminate]. Qed.

Lemma relative_not_absolute : JS.startsWith (JS.join_with "/" L) "/" = false.
Proof.
  pose proof relative_segments_no_slash as Hns.
  pose proof relative_segments_nonempty as Hne.
  pose proof relative_not_nil as Hnil.
  destruct L as [|x T]; [contradiction|].
  inversion Hns as [|? ? Hx _]; subst. inversion Hne as [|? ? Hx' _]; subst.
  destruct x as [|c x]; [contradiction|].
  unfold no_slash in Hx. simpl in Hx. apply andb_true_iff in Hx as [Hc _].
  apply negb_true_iff in Hc.
  destruct (join_first_segment (String c x) T) as [-> | [J ->]];
    now apply startsWith_slash_false.
Qed.

Lemma relative_no_trailing_separator : JS.last_char_is "/" (JS.join_with "/" L) = false.
Proof.
  destruct (@exists_last _ segs Hsegs) as (S0 & z & Heq).
  assert (Hz : is_ordinary z = true).
  { pose proof (plain_ordinary _ Hplain) as Ho. rewrite Heq in Ho.
    apply Forall_app in Ho as [_ Ho]. now inversion Ho. }
  destruct (is_ordinary_inv _ Hz) as (Hzne & _ & _ & Hzns).
  rewrite Heq, List.app_assoc.
  destruct (repeat ".." k ++ S0)%list as [|y Y] eqn:Hfront.
  - cbn. now apply no_slash_last.
  - rewrite join_with_app by discriminate. cbn [JS.join_with].
    change (?a +:+ String "/" z) with (a +:+ ("/" +:+ z)).
    rewrite <- str_app_assoc, last_char_is_app by exact Hzne. now apply no_slash_last.
Qed.

(** A relative path made of [".."] and plain segments is already normal. *)
Lemma normalize_relative : Path.normalize (JS.join_with "/" L) = JS.join_with "/" L.
Proof.
  assert (Hfull : JS.join_with "/" L <> "").
  { intros E. apply join_with_eq_empty in E; [now apply relative_not_nil|].
    apply relative_segments_nonempty. }
  unfold Path.normalize.
  destruct (String.eqb_spec (JS.join_with "/" L) ""); [contradiction|].
  rewrite relative_not_absolute, relative_no_trailing_separator. cbn [negb].
  unfold Path.normalizeString, Path.sep.
  rewrite split_join by (apply relative_not_nil || apply relative_segments_no_slash).
  rewrite norm_segments_app, norm_segments_parents_nil.
  rewrite norm_segments_ordinary by (apply plain_ordinary, Hplain).
  rewrite rev_app_distr, rev_involutive, rev_repeat.
  destruct (String.eqb_spec (JS.join_with "/" L) ""); [contradiction | reflexivity].
Qed.
End NormalRelative.

Lemma replace_leading_parents_plain (segs : list string) :
  segs <> [] -> Forall (fun s => is_plain s = true) segs ->
  replace_leading_parents (JS.join_with "/" segs) = JS.join_with "/" segs.
Proof.
  intros Hsegs Hplain. destruct segs as [|x T]; [contradiction|].
  inversion Hplain as [|? ? Hx _]; subst.
  destruct (is_plain_inv _ Hx) as [Hord Hnb].
  destruct (is_ordinary_inv _ Hord) as (Hne & _ & Hnp & Hns).
  unfold no_slash in Hns. unfold no_backslash in Hnb.
  apply replace_leading_parents_stay; intros rest E;
    destruct (join_first_segment x T) as [Hj | [J Hj]]; rewrite Hj in E; clear Hj;
    destruct x as [|a [|b [|c x']]]; try contradiction; simpl in E;
    try discriminate E; inversion E; subst; try (now elim Hnp);
    simpl in Hns, Hnb; discriminate.
Qed.

Lemma replace_leading_parents_run (k : nat) (segs : list string) :
  segs <> [] -> Forall (fun s => is_plain s = true) segs ->
  replace_leading_parents (JS.join_with "/" (repeat ".." k ++ segs))
  = JS.join_with "/" segs.
Proof.
  intros Hsegs Hplain. induction k as [|k IH].
  - now apply replace_leading_parents_plain.
  - cbn [repeat app]. rewrite join_with_cons by (destruct k; [exact Hsegs | discriminate]).
    change (".." +:+ String "/" ?s) with (String "." (String "." (String "/" s))).
    rewrite replace_leading_parents_slash. exact IH.
Qed.

End SanitizeMoreFacts.

(** X7: what [sanitizePath] returns never begins with [../] or [..\]; it is
    [".."] itself or has no [".."] segment at all. *)
Theorem sanitizePath_has_no_leading_parent (p : string) :
  (forall rest, sanitizePath p <> "../" +:+ rest /\ sanitizePath p <> "..\" +:+ rest)
  /\ (sanitizePath p = ".."
      \/ Forall (fun seg => seg <> "..") (JS.split_on "/" (sanitizePath p))).
Proof.
  split; [|apply SanitizeFacts.sanitizePath_shape].
  intros rest. rewrite SanitizeFacts.sanitizePath_eq.
  apply (SanitizeMoreFacts.replace_leading_parents_no_leading
           (String.length (Path.normalize p))). lia.
Qed.

(** X8: a relative path written as any number of [../] followed by plain
    segments (ordinary names without a backslash) is sanitized to those
    segments; with no [../] at all the path is returned unchanged. *)
Theorem sanitizePath_strips_leading_parents (k : nat) (segs : list string) :
  segs <> [] ->
  Forall (fun s => is_plain s = true) segs ->
  sanitizePath (JS.join_with "/" (repeat ".." k ++ segs)) = JS.join_with "/" segs.
Proof.
  intros Hsegs Hplain.
  rewrite SanitizeFacts.sanitizePath_eq.
  rewrite (SanitizeMoreFacts.normalize_relative k segs Hsegs Hplain).
  now apply SanitizeMoreFacts.replace_leading_parents_run.
Qed.

Lemma sanitizePath_strips_leading_parents_witness :
  sanitizePath "../../etc/passwd" = "etc/passwd".
Proof.
  apply (sanitizePath_strips_leading_parents 2 ["etc"; "passwd"]);
    [discriminate | repeat constructor].
Defined.

(** X9: an absolute client path is not made relative by [sanitizePath], and
    [path.join] then re-roots it below the base directory: [/etc/x.json]
    sent for the base [/b] is saved as [/b/etc/x.json]. *)
Theorem absolute_paths_are_rerooted (B N : list string) :
  Forall (fun s => is_ordinary s = true) B ->
  Forall (fun s => is_ordinary s = true) N ->
  N <> [] ->
  sanitizePath (abs_path N) = abs_path N
  /\ Path.join (abs_path B) (sanitizePath (abs_path N)) = abs_path (B ++ N).
Proof.
  intros HB HN HNne.
  assert (Hlast : forall X, JS.last_char_is "/" (String "/" (X +:+ JS.join_with "/" N)) = false).
  { intros X. destruct (@exists_last _ N HNne) as (N0 & z & ->).
    apply Forall_app in HN as [_ Hz]. inversion Hz as [|? ? Hz' _]; subst.
    destruct (PathFacts.is_ordinary_inv _ Hz') as (Hzne & _ & _ & Hzns).
    assert (Hsplit : exists Y, String "/" (X +:+ JS.join_with "/" (N0 ++ [z])) = Y +:+ z).
    { destruct N0 as [|y N0].
      - exists (String "/" X). reflexivity.
      - rewrite PathFacts.join_with_app by discriminate. cbn [JS.join_with].
        exists (String "/" (X +:+ JS.join_with "/" (y :: N0) +:+ "/")).
        simpl. now rewrite !StrFacts.str_app_assoc. }
    destruct Hsplit as [Y ->].
    rewrite HandlerFacts.last_char_is_app by exact Hzne.
    now apply HandlerFacts.no_slash_last. }
  assert (Hsan : sanitizePath (abs_path N) = abs_path N).
  { rewrite SanitizeFacts.sanitizePath_eq.
    change (abs_path N) with (String "/" (JS.join_with "/" N)).
    rewrite PathFacts.normalize_absolute_eq. cbv zeta.
    rewrite ResolveFacts.norm_segments_join, rev_involutive by exact HN.
    destruct (String.eqb_spec (JS.join_with "/" N) "") as [E|_].
    { apply NormalizeFacts.join_with_eq_empty in E; [contradiction|].
      now apply ResolveFacts.ordinary_nonempty. }
    pose proof (Hlast "") as Hl0.
    change ("" +:+ JS.join_with "/" N) with (JS.join_with "/" N) in Hl0. rewrite Hl0.
    apply SanitizeFacts.replace_leading_parents_stay; intros ? ?; discriminate. }
  split; [exact Hsan|]. rewrite Hsan. unfold Path.join.
  change (String.eqb (abs_path B) "") with false.
  change (String.eqb (abs_path N) "") with false. cbv iota.
  change (abs_path B +:+ "/" +:+ abs_path N)
    with (String "/" (JS.join_with "/" B +:+ String "/" (String "/" (JS.join_with "/" N)))).
  rewrite PathFacts.normalize_absolute_eq. cbv zeta.
  rewrite PathFacts.split_on_app_sep, PathFacts.split_on_slash_cons.
  rewrite PathFacts.norm_segments_app, ResolveFacts.norm_segments_join by exact HB.
  cbn [Path.norm_segments fold_left].
  change (Path.norm_step false (rev B) "") with (rev B).
  change (fold_left (Path.norm_step false) ?l ?r) with (Path.norm_segments false l r).
  rewrite PathFacts.split_join by (exact HNne || now apply ResolveFacts.ordinary_no_slash).
  rewrite PathFacts.norm_segments_ordinary by exact HN.
  rewrite <- rev_app_distr, rev_involutive.
  destruct (String.eqb_spec (JS.join_with "/" (B ++ N)) "") as [E|_].
  { apply NormalizeFacts.join_with_eq_empty in E.
    - destruct B; [contradiction | discriminate].
    - apply ResolveFacts.ordinary_nonempty, Forall_app. now split. }
  assert (Hshape : String "/" (JS.join_with "/" B +:+ String "/" (String "/" (JS.join_with "/" N)))
                   = String "/" ((JS.join_with "/" B +:+ "//") +:+ JS.join_with "/" N)).
  { now rewrite StrFacts.str_app_assoc. }
  rewrite Hshape, Hlast. reflexivity.
Qed.

Lemma absolute_paths_are_rerooted_witness :
  Path.join "/b" (sanitizePath "/etc/x.json") = "/b/etc/x.json".
Proof.
  apply (absolute_paths_are_rerooted ["b"] ["etc"; "x.json"]);
    [repeat constructor | repeat constructor | discriminate].
Defined.

(** ** The extension of a file name *)

Module ExtnameFacts.
Import StrFacts PathFacts ResolveFacts ScanFacts.

Lemma substring_whole (s : string) : String.substring 0 (String.length s) s = s.
Proof. induction s as [|c s IH]; simpl; [reflexivity | now rewrite IH]. Qed.

Lemma substring_suffix (A B : string) :
  String.substring (String.length A) (String.length B) (A +:+ B) = B.
Proof. induction A as [|c A IH]; simpl; [apply substring_whole | exact IH]. Qed.

Section LastSegment.
Variables (P stem ext : string).
Hypothesis Hstem : no_slash stem = true.
Hypothesis Hext : no_dot_no_slash ext = true.

Local Abbreviation path := (P +:+ String "/" (stem +:+ String "." ext)).
Local Abbreviation dot_index := (S (String.length stem) + String.length P).

Lemma get_in_tail (k : nat) :
  String.get (S (k + String.length stem) + String.length P) path
  = String.get k (String "." ext).
Proof. rewrite get_past. cbn [String.get]. apply get_past. Qed.

(** Scanning back over the stem, once the dot has been found. *)
Lemma extname_scan_stem (j : nat) (st : Path.ExtScan) (d e : Z) :
  j <= String.length stem ->
  Path.startDot st = d -> d <> (-1)%Z ->
  Path.end_ st = e -> e <> (-1)%Z ->
  Path.matchedSlash st = false ->
  let r := Path.extname_scan path (S (j + String.length P)) st in
  Path.startDot r = d /\ Path.end_ r = e
  /\ (Path.preDotState r = 0%Z <-> j = 0 /\ Path.preDotState st = 0%Z).
Proof.
  revert st. induction j as [|j IH]; intros st Hj Hd Hdne He Hene Hms; cbv zeta.
  - rewrite extname_scan_step. change (0 + String.length P) with (String.length P).
    rewrite get_separator. change (Ascii.eqb "/" "/") with true. cbv iota.
    rewrite Hms. cbn [negb Path.startDot Path.end_ Path.preDotState].
    split; [exact Hd | split; [exact He | split]]; [now intros ? | now intros [_ ?]].
  - rewrite extname_scan_step, get_segment by lia.
    destruct (get_all_chars _ stem j Hstem) as (c & -> & Hc); [lia|].
    apply negb_true_iff in Hc. rewrite Hc. cbv zeta.
    rewrite He. destruct (Z.eqb_spec e (-1)) as [|_]; [contradiction|].
    rewrite Hd. destruct (Z.eqb_spec d (-1)) as [|_]; [contradiction|]. cbn [negb].
    set (st2 := if Ascii.eqb c "." then _ else _).
    assert (H2 : Path.startDot st2 = d /\ Path.end_ st2 = e
                 /\ Path.matchedSlash st2 = false /\ Path.preDotState st2 <> 0%Z).
    { subst st2. destruct (Ascii.eqb c ".").
      - destruct (Z.eqb_spec (Path.preDotState st) 1) as [H1|H1]; cbn [negb];
          cbn [Path.startDot Path.end_ Path.matchedSlash Path.preDotState];
          repeat split; auto; lia.
      - cbn [Path.startDot Path.end_ Path.matchedSlash Path.preDotState].
        repeat split; auto; lia. }
    destruct H2 as (Hd2 & He2 & Hms2 & Hpre2).
    destruct (IH st2 ltac:(lia) Hd2 Hdne He2 Hene Hms2) as (Rd & Re & Rpre).
    split; [exact Rd | split; [exact Re | split]].
    + intros H0. apply Rpre in H0 as [_ H0]. contradiction.
    + intros [Hz _]. discriminate Hz.
Qed.

(** Scanning back over the extension, the dot and the stem. *)
Lemma extname_scan_name (j : nat) (st : Path.ExtScan) (E : Z) :
  j <= String.length ext ->
  Path.startDot st = (-1)%Z -> E <> (-1)%Z ->
  (Path.end_ st = E /\ Path.matchedSlash st = false)
  \/ (Path.end_ st = (-1)%Z
      /\ E = (Z.of_nat (S (j + String.length stem) + String.length P) + 1)%Z) ->
  let r := Path.extname_scan path (S (S (j + String.length stem) + String.length P)) st in
  Path.startDot r = Z.of_nat dot_index /\ Path.end_ r = E
  /\ (Path.preDotState r = 0%Z <-> String.length stem = 0 /\ Path.preDotState st = 0%Z).
Proof.
  revert st. induction j as [|j IH]; intros st Hj Hdot HE Hpre; cbv zeta.
  - rewrite extname_scan_step, (get_in_tail 0). cbn [String.get].
    change (Ascii.eqb "." "/") with false. change (Ascii.eqb "." ".") with true.
    cbv iota zeta.
    set (st1 := if (Path.end_ st =? -1)%Z then _ else st).
    assert (H1 : Path.startDot st1 = (-1)%Z /\ Path.end_ st1 = E
                 /\ Path.matchedSlash st1 = false
                 /\ Path.preDotState st1 = Path.preDotState st).
    { subst st1. destruct Hpre as [[He Hms] | [He HEq]]; rewrite He.
      - destruct (Z.eqb_spec E (-1)); [contradiction | auto].
      - cbn. repeat split; auto. }
    destruct H1 as (Hd1 & He1 & Hms1 & Hp1).
    rewrite Hd1. cbn [Z.eqb Pos.eqb].
    change (S (0 + String.length stem) + String.length P)
      with (S (String.length stem + String.length P)).
    set (st2 := {| Path.startDot := _; Path.startPart := _; Path.end_ := _;
                   Path.matchedSlash := _; Path.preDotState := _ |}).
    destruct (extname_scan_stem (String.length stem) st2
                (Z.of_nat (S (String.length stem + String.length P))) E)
      as (Rd & Re & Rpre); try (subst st2; cbn; auto; lia).
    split; [exact Rd | split; [exact Re | split]].
    + intros H0. apply Rpre in H0. subst st2. cbn in H0. now rewrite <- Hp1.
    + intros H0. apply Rpre. subst st2. cbn. now rewrite Hp1.
  - rewrite extname_scan_step, (get_in_tail (S j)). cbn [String.get].
    destruct (get_all_chars _ ext j Hext) as (c & -> & Hc); [lia|].
    apply andb_true_iff in Hc as [Hslash Hnodot].
    apply negb_true_iff in Hslash, Hnodot. rewrite Hslash, Hnodot. cbv zeta.
    set (st1 := if (Path.end_ st =? -1)%Z then _ else st).
    assert (H1 : Path.startDot st1 = (-1)%Z /\ Path.end_ st1 = E
                 /\ Path.matchedSlash st1 = false
                 /\ Path.preDotState st1 = Path.preDotState st).
    { subst st1. destruct Hpre as [[He Hms] | [He HEq]]; rewrite He.
      - destruct (Z.eqb_spec E (-1)); [contradiction | auto].
      - cbn. repeat split; auto. }
    destruct H1 as (Hd1 & He1 & Hms1 & Hp1).
    rewrite Hd1. change (negb (-1 =? -1)%Z) with false. cbv iota.
    destruct (IH st1 ltac:(lia) Hd1 HE (or_introl (conj He1 Hms1))) as (Rd & Re & Rpre).
    rewrite Hp1 in Rpre. split; [exact Rd | split; [exact Re | exact Rpre]].
Qed.

Lemma path_length :
  String.length path
  = S (S (String.length ext + String.length stem) + String.length P).
Proof.
  rewrite str_length_app. cbn [String.length]. rewrite str_length_app.
  cbn [String.length]. lia.
Qed.

(** The state in which the scan of [extname] ends. *)
Lemma extname_scan_result :
  let r := Path.extname_scan path (String.length path) Path.ext_init in
  Path.startDot r = Z.of_nat dot_index
  /\ Path.end_ r = Z.of_nat (String.length path)
  /\ (Path.preDotState r = 0%Z <-> String.length stem = 0).
Proof.
  cbv zeta. rewrite path_length.
  destruct (extname_scan_name (String.length ext) Path.ext_init
              (Z.of_nat (S (String.length ext + String.length stem) + String.length P) + 1))
    as (Rd & Re & Rpre); [lia | reflexivity | lia | right; split; reflexivity |].
  split; [exact Rd | split; [rewrite Re; lia | split]].
  - intros H0. now apply Rpre in H0.
  - intros H0. apply Rpre. now split.
Qed.

Lemma extname_of_name :
  stem <> "" -> ext <> "" -> Path.extname path = String "." ext.
Proof.
  intros Hs He. unfold Path.extname.
  destruct extname_scan_result as (Rd & Re & Rpre). cbv zeta in Rd, Re, Rpre.
  rewrite Rd, Re.
  assert (Hsl : 0 < String.length stem) by (destruct stem; [contradiction | simpl; lia]).
  assert (Hel : 0 < String.length ext) by (destruct ext; [contradiction | simpl; lia]).
  assert (Hpre : Path.preDotState (Path.extname_scan path (String.length path) Path.ext_init)
                 <> 0%Z) by (intros H0; apply Rpre in H0; lia).
  pose proof path_length as Hlen.
  destruct (Z.eqb_spec (Z.of_nat dot_index) (-1)) as [|_]; [lia|].
  destruct (Z.eqb_spec (Z.of_nat (String.length path)) (-1)) as [|_]; [lia|].
  destruct (Z.eqb_spec (Path.preDotState
              (Path.extname_scan path (String.length path) Path.ext_init)) 0) as [|_];
    [contradiction|].
  destruct (Z.eqb_spec (Z.of_nat dot_index) (Z.of_nat (String.length path) - 1)) as [|_];
    [lia|].
  rewrite andb_false_r. cbn [orb andb].
  replace (Z.to_nat (Z.of_nat dot_index)) with (String.length (P +:+ String "/" stem))
    by (rewrite str_length_app; cbn [String.length]; lia).
  replace (Z.to_nat (Z.of_nat (String.length path) - Z.of_nat dot_index))
    with (String.length (String "." ext)) by (cbn [String.length]; lia).
  replace path with ((P +:+ String "/" stem) +:+ String "." ext)
    by (rewrite str_app_assoc; reflexivity).
  apply substring_suffix.
Qed.

Lemma extname_of_dotfile : stem = "" -> Path.extname path = "".
Proof.
  intros Hs. unfold Path.extname.
  destruct extname_scan_result as (_ & _ & Rpre). cbv zeta in Rpre.
  assert (Hpre : Path.preDotState (Path.extname_scan path (String.length path) Path.ext_init)
                 = 0%Z) by (apply Rpre; now rewrite Hs).
  rewrite Hpre. cbn [Z.eqb]. now rewrite !orb_true_r.
Qed.
End LastSegment.

Lemma toLowerCase_dot (s : string) :
  JS.toLowerCase (String "." s) = String "." (JS.toLowerCase s).
Proof. reflexivity. Qed.

End ExtnameFacts.

(** X10: the extension check looks at what follows the last dot of the last
    segment, whatever its case: a file [stem.ext] in any directory is allowed
    exactly when [ext], in lower case, is [glb], [mind] or [json]. *)
Theorem allowed_extension_is_the_last_suffix (P stem ext : string) :
  no_slash stem = true -> stem <> "" ->
  no_dot_no_slash ext = true -> ext <> "" ->
  Path.extname (P +:+ "/" +:+ stem +:+ "." +:+ ext) = "." +:+ ext
  /\ (isAllowedFileExtension (P +:+ "/" +:+ stem +:+ "." +:+ ext) = true
      <-> JS.toLowerCase ext = "glb" \/ JS.toLowerCase ext = "mind"
          \/ JS.toLowerCase ext = "json").
Proof.
  intros Hstem Hsne Hext Hene.
  change (P +:+ "/" +:+ stem +:+ "." +:+ ext) with (P +:+ String "/" (stem +:+ String "." ext)).
  pose proof (ExtnameFacts.extname_of_name P stem ext Hstem Hext Hsne Hene) as Hx.
  split; [exact Hx|].
  unfold isAllowedFileExtension. rewrite Hx, ExtnameFacts.toLowerCase_dot.
  unfold JS.includes. cbn [existsb].
  change (String.eqb (String "." ?x) ".glb") with (String.eqb x "glb").
  change (String.eqb (String "." ?x) ".mind") with (String.eqb x "mind").
  change (String.eqb (String "." ?x) ".json") with (String.eqb x "json").
  rewrite orb_false_r, !orb_true_iff, !String.eqb_eq. tauto.
Qed.

Lemma allowed_extension_is_the_last_suffix_witness :
  isAllowedFileExtension ("/srv/out" +:+ "/" +:+ "Model.v2" +:+ "." +:+ "GLB") = true.
Proof.
  apply (allowed_extension_is_the_last_suffix "/srv/out" "Model.v2" "GLB");
    [reflexivity | discriminate | reflexivity | discriminate | now left].
Defined.

(** X11: a last segment without a dot, and a last segment whose only dot is
    its first character (a dot-file such as [.json]), have no extension: such
    an entry never passes the extension check. *)
Theorem names_without_extension_are_refused (P name : string) :
  no_dot_no_slash name = true ->
  (name <> "" -> isAllowedFileExtension (P +:+ "/" +:+ name) = false)
  /\ isAllowedFileExtension (P +:+ "/" +:+ "." +:+ name) = false.
Proof.
  intros Hname. split.
  - intros Hne. unfold isAllowedFileExtension.
    change (P +:+ "/" +:+ name) with (P +:+ String "/" name).
    rewrite <- (StrFacts.str_app_nil_r name).
    rewrite (ScanFacts.extname_no_dot P name ""); auto.
  - unfold isAllowedFileExtension.
    change (P +:+ "/" +:+ "." +:+ name) with (P +:+ String "/" ("" +:+ String "." name)).
    rewrite (ExtnameFacts.extname_of_dotfile P "" name); auto.
Qed.

Lemma names_without_extension_are_refused_witness :
  isAllowedFileExtension ("/srv/out" +:+ "/" +:+ "." +:+ "json") = false.
Proof.
  apply (names_without_extension_are_refused "/srv/out" "json"). reflexivity.
Defined.

(** ** The image proxy *)

Module ProxyMoreFacts.
Import StrFacts ProxyFacts.

Lemma validateImageBuffer_cases (buffer : list byte) :
  validateImageBuffer buffer = png_check \/ validateImageBuffer buffer = jpeg_check
  \/ validateImageBuffer buffer = webp_check \/ validateImageBuffer buffer = invalid_check.
Proof.
  unfold validateImageBuffer.
  repeat match goal with |- context [if ?c then _ else _] => destruct c end; auto.
Qed.

Lemma take_while_all (p : ascii -> bool) (s : string) :
  all_chars p (take_while p s) = true.
Proof.
  induction s as [|c s IH]; simpl; [reflexivity|].
  destruct (p c) eqn:Hc; simpl; [now rewrite Hc | reflexivity].
Qed.

Lemma capture_here_file_id (lit s id : string) :
  capture_here lit s = Some id -> is_file_id id.
Proof.
  unfold capture_here. destruct (JS.startsWith s lit); [|discriminate].
  destruct (String.eqb_spec (take_while is_id_char (JS.drop (String.length lit) s)) "")
    as [|Hne]; [discriminate|].
  intros [= <-]. split; [exact Hne | apply take_while_all].
Qed.

Lemma capture_after_file_id (lit s id : string) :
  capture_after lit s = Some id -> is_file_id id.
Proof.
  induction s as [|c s IH]; simpl.
  - destruct (capture_here lit "") eqn:Hh; [|discriminate].
    intros [= <-]. eapply capture_here_file_id, Hh.
  - destruct (capture_here lit (String c s)) eqn:Hh; [|exact IH].
    intros [= <-]. eapply capture_here_file_id, Hh.
Qed.

End ProxyMoreFacts.

(** X12: the proxy relays a body only when the upstream answered
    successfully, the body is at most 10 MiB and its leading bytes are those
    of a PNG, JPEG or WebP image; the body is relayed unchanged and the
    Content-Type sent is the one the leading bytes give, one of the three
    types the upload filter accepts. *)
Theorem proxy_relays_only_images (response : Upstream) (t : string) (body : list byte) :
  proxy_image_respond response = ProxyImage t body ->
  up_ok response = true
  /\ body = up_body response
  /\ (Z.of_nat (length body) <= 10 * 1024 * 1024)%Z
  /\ validateImageBuffer body = {| valid := true; type := Some t |}
  /\ fileFilter t = true.
Proof.
  unfold proxy_image_respond.
  destruct (up_ok response); cbn [negb]; [|discriminate].
  destruct (Z.of_nat (length (up_body response)) >? 10 * 1024 * 1024)%Z eqn:Hsize;
    [discriminate|].
  rewrite Z.gtb_ltb in Hsize. apply Z.ltb_ge in Hsize.
  destruct (ProxyMoreFacts.validateImageBuffer_cases (up_body response))
    as [Hv | [Hv | [Hv | Hv]]]; rewrite Hv; cbn; intros [= <- <-]; auto.
Qed.

Lemma proxy_relays_only_images_witness :
  validateImageBuffer [x89; x50; x4e; x47; x0d]
  = {| valid := true; type := Some "image/png" |}.
Proof.
  apply (proxy_relays_only_images
           {| up_ok := true; up_status := 200; up_body := [x89; x50; x4e; x47; x0d];
              up_declared_type := Some "text/html" |}).
  reflexivity.
Defined.

(** X13: the URL the handler hands to [fetch] is a URL that passed the HTTPS
    check and whose host is on the allow-list, or the direct-download URL of
    Google Drive built from an identifier made of letters, digits, [_] and
    [-] only.  This is about the argument of the call: [fetch] is called
    without a [redirect] option, and the redirects it follows are not
    checked by the handler. *)
Theorem proxy_fetches_only_allowed_urls (isURL_https : string -> bool)
    (URL_hostname : string -> option string) (url : option string) (target : string) :
  proxy_image_validate isURL_https URL_hostname url = ProxyFetch target ->
  exists u, url = Some u
    /\ isURL_https u = true
    /\ (URL_hostname u = Some "drive.google.com"
        \/ URL_hostname u = Some "lh3.googleusercontent.com")
    /\ (target = u
        \/ exists id, is_file_id id
             /\ target = "https://drive.google.com/uc?export=download&id=" +:+ id
                          +:+ "&confirm=t").
Proof.
  unfold proxy_image_validate. destruct url as [u|]; [|discriminate].
  destruct (String.eqb u ""); [discriminate|].
  destruct (isURL_https u) eqn:Hurl; cbn [negb]; [|discriminate].
  destruct (isAllowedDomain URL_hostname u) eqn:Hdom; cbn [negb]; [|discriminate].
  intros [= <-]. exists u. split; [reflexivity | split; [exact Hurl | split]].
  - unfold isAllowedDomain in Hdom. destruct (URL_hostname u) as [h|]; [|discriminate].
    unfold JS.includes in Hdom. cbn [existsb] in Hdom.
    rewrite orb_false_r in Hdom. apply orb_true_iff in Hdom as [Hh | Hh];
      apply String.eqb_eq in Hh; subst h; auto.
  - unfold fetchUrl, driveMatch1, driveMatch2.
    destruct (capture_after "drive.google.com/file/d/" u) as [id|] eqn:H1.
    { right. exists id. split; [|reflexivity].
      eapply ProxyMoreFacts.capture_after_file_id, H1. }
    destruct (capture_after "drive.google.com/open?id=" u) as [id|] eqn:H2.
    { right. exists id. split; [|reflexivity].
      eapply ProxyMoreFacts.capture_after_file_id, H2. }
    now left.
Qed.

Lemma proxy_fetches_only_allowed_urls_witness :
  exists u, Some "https://drive.google.com/file/d/ABC123/view" = Some u
    /\ JS.startsWith u "https://" = true
    /\ (Examples.https_hostname u = Some "drive.google.com"
        \/ Examples.https_hostname u = Some "lh3.googleusercontent.com")
    /\ ("https://drive.google.com/uc?export=download&id=ABC123&confirm=t" = u
        \/ exists id, is_file_id id
             /\ "https://drive.google.com/uc?export=download&id=ABC123&confirm=t"
                = "https://drive.google.com/uc?export=download&id=" +:+ id +:+ "&confirm=t").
Proof.
  apply (proxy_fetches_only_allowed_urls (fun u => JS.startsWith u "https://")
           Examples.https_hostname).
  reflexivity.
Defined.

(** ** Data URLs *)

Module DataUrlFacts.
Import StrFacts ProxyFacts.

Lemma after_base64_marker_eq (s : string) :
  after_base64_marker s
  = if JS.startsWith s ";base64," then Some (JS.drop 8 s)
    else match s with
         | EmptyString => None
         | String c s' => if is_line_terminator c then None else after_base64_marker s'
         end.
Proof. destruct s; reflexivity. Qed.

Lemma startsWith_head (c l : ascii) (s lit : string) :
  c <> l -> JS.startsWith (String c s) (String l lit) = false.
Proof.
  intros Hne. unfold JS.startsWith. simpl.
  destruct (ascii_dec l c) as [->|]; [contradiction | reflexivity].
Qed.

Lemma after_marker_of_media_type (mime rest : string) :
  is_media_type mime = true ->
  after_base64_marker (mime +:+ ";base64," +:+ rest) = Some rest.
Proof.
  unfold is_media_type. induction mime as [|c mime IH]; intros Hm.
  - change ("" +:+ ";base64," +:+ rest) with (";base64," +:+ rest).
    rewrite after_base64_marker_eq, startsWith_app.
    change 8 with (String.length ";base64,"). now rewrite str_drop_app_length.
  - cbn [all_chars] in Hm. apply andb_true_iff in Hm as [Hc Hm].
    apply andb_true_iff in Hc as [Hsemi Hline].
    apply negb_true_iff in Hsemi, Hline. apply Ascii.eqb_neq in Hsemi.
    change (String c mime +:+ ";base64," +:+ rest)
      with (String c (mime +:+ ";base64," +:+ rest)).
    rewrite after_base64_marker_eq, startsWith_head by exact Hsemi.
    rewrite Hline. now apply IH.
Qed.

Lemma after_marker_suffix (s r : string) :
  after_base64_marker s = Some r -> exists removed, s = removed +:+ r.
Proof.
  induction s as [|c s IH]; rewrite after_base64_marker_eq.
  - destruct (JS.startsWith "" ";base64,") eqn:Hp; [|discriminate].
    apply startsWith_inv in Hp as [rest Hp]. discriminate Hp.
  - destruct (JS.startsWith (String c s) ";base64,") eqn:Hp.
    + apply startsWith_inv in Hp as [rest Hp]. rewrite Hp.
      change 8 with (String.length ";base64,"). rewrite str_drop_app_length.
      intros [= <-]. now exists ";base64,".
    + destruct (is_line_terminator c); [discriminate|].
      intros Hr. destruct (IH Hr) as [removed ->]. now exists (String c removed).
Qed.

End DataUrlFacts.

(** X14: the marker of a data URL is removed before decoding: from
    [data:<media type>;base64,<text>], where the media type holds no [;] and
    no line terminator, what is decoded is [<text>]. *)
Theorem data_url_prefix_is_removed (mime text : string) :
  is_media_type mime = true ->
  strip_data_url ("data:" +:+ mime +:+ ";base64," +:+ text) = text.
Proof.
  intros Hm. unfold strip_data_url.
  rewrite StrFacts.startsWith_app.
  change 5 with (String.length "data:"). rewrite ProxyFacts.str_drop_app_length.
  now rewrite DataUrlFacts.after_marker_of_media_type.
Qed.

Lemma data_url_prefix_is_removed_witness :
  strip_data_url ("data:" +:+ "model/gltf-binary" +:+ ";base64," +:+ "Z2xURg==") = "Z2xURg==".
Proof. apply (data_url_prefix_is_removed "model/gltf-binary" "Z2xURg=="). reflexivity. Defined.

(** X15: removing the marker only ever drops a leading part of the content:
    what is decoded is a suffix of what was sent, so it is never longer than
    the text whose length was checked. *)
Theorem stripped_content_is_a_suffix (content : string) :
  (exists removed, content = removed +:+ strip_data_url content)
  /\ String.length (strip_data_url content) <= String.length content.
Proof.
  assert (Hsuf : exists removed, content = removed +:+ strip_data_url content).
  { unfold strip_data_url. destruct (JS.startsWith content "data:") eqn:Hp;
      [|now exists ""].
    apply StrFacts.startsWith_inv in Hp as [rest ->].
    change 5 with (String.length "data:"). rewrite ProxyFacts.str_drop_app_length.
    destruct (after_base64_marker rest) as [r|] eqn:Hr; [|now exists ""].
    apply DataUrlFacts.after_marker_suffix in Hr as [removed ->].
    exists ("data:" +:+ removed). now rewrite StrFacts.str_app_assoc. }
  split; [exact Hsuf|].
  destruct Hsuf as [removed Hsuf]. rewrite Hsuf at 2.
  rewrite StrFacts.str_length_app. lia.
Qed.

(** ** Uploads *)

Module UploadFacts.

Lemma sanitize_filename_chars (name : string) :
  all_chars is_filename_char (sanitize_filename name) = true.
Proof.
  induction name as [|c name IH]; [reflexivity|].
  cbn [sanitize_filename all_chars]. rewrite IH, andb_true_r.
  destruct (is_filename_char c) eqn:Hc; [exact Hc | reflexivity].
Qed.

Lemma sanitize_filename_fixed (name : string) :
  sanitize_filename name = name <-> all_chars is_filename_char name = true.
Proof.
  induction name as [|c name IH]; [now split|].
  cbn [sanitize_filename all_chars]. rewrite andb_true_iff, <- IH.
  destruct (is_filename_char c) eqn:Hc; split.
  - intros [= ->]. now split.
  - intros [_ ->]. reflexivity.
  - intros [= <- _]. discriminate Hc.
  - intros [Hf _]. discriminate Hf.
Qed.

End UploadFacts.

(** X16: the name an upload is stored under has the length of the original
    name and holds only letters, digits, [_], [-] and [.]; a name made of
    such characters, and only such a name, is kept as it is; sanitizing
    twice changes nothing more; and the stored name of an upload whose
    original name is not empty passes the filename check of the download
    route. *)
Theorem uploaded_names_are_safe (name : string) :
  String.length (sanitize_filename name) = String.length name
  /\ all_chars is_filename_char (sanitize_filename name) = true
  /\ (sanitize_filename name = name <-> all_chars is_filename_char name = true)
  /\ sanitize_filename (sanitize_filename name) = sanitize_filename name
  /\ (name <> "" -> isValidFilename (sanitize_filename name) = true).
Proof.
  split; [|split; [|split; [|split]]].
  - induction name as [|c name IH]; [reflexivity|].
    cbn [sanitize_filename String.length]. now rewrite IH.
  - apply UploadFacts.sanitize_filename_chars.
  - apply UploadFacts.sanitize_filename_fixed.
  - apply UploadFacts.sanitize_filename_fixed, UploadFacts.sanitize_filename_chars.
  - intros Hne. unfold isValidFilename.
    rewrite UploadFacts.sanitize_filename_chars, andb_true_r.
    destruct name; [contradiction | reflexivity].
Qed.

Lemma uploaded_names_are_safe_witness :
  isValidFilename (sanitize_filename "../my photo (1).png") = true.
Proof.
  apply (uploaded_names_are_safe "../my photo (1).png"). discriminate.
Defined.

(** ** Private addresses and session identifiers *)

(** X17: of the hosts [172.<ab>.<rest>] with a second octet of two decimal
    digits, the private-address check matches exactly those whose second
    octet is between 16 and 31. *)
Theorem class_b_range_is_16_to_31 (a b : nat) (rest : string) :
  a < 10 -> b < 10 ->
  isPrivateIP ("172." +:+ String (digit_char a) (String (digit_char b) ("." +:+ rest)))
  = Nat.leb 16 (10 * a + b) && Nat.leb (10 * a + b) 31.
Proof.
  intros Ha Hb.
  do 10 (destruct a as [|a]; [do 10 (destruct b as [|b]; [reflexivity|]); lia|]).
  lia.
Qed.

Lemma class_b_range_is_16_to_31_witness :
  isPrivateIP "172.31.255.1" = true /\ isPrivateIP "172.32.0.1" = false.
Proof.
  split.
  - apply (class_b_range_is_16_to_31 3 1 "255.1"); lia.
  - apply (class_b_range_is_16_to_31 3 2 "0.1"); lia.
Defined.

Module HexFacts.

Lemma hex_pair_value (b : byte) :
  Byte.of_N (16 * hex_value (hex_digit (Byte.to_N b / 16))
             + hex_value (hex_digit (Byte.to_N b mod 16))) = Some b.
Proof. destruct b; reflexivity. Qed.

Lemma from_hex_toString (buf : list byte) : from_hex (toString_hex buf) = Some buf.
Proof.
  induction buf as [|b buf IH]; [reflexivity|].
  cbn [toString_hex from_hex]. now rewrite hex_pair_value, IH.
Qed.

End HexFacts.

(** X18: the hexadecimal rendering loses nothing: the bytes can be read back
    from it, so two draws of the entropy source that differ give two
    different session identifiers. *)
Theorem distinct_draws_give_distinct_ids (r1 r2 : nat -> list byte) :
  r1 32 <> r2 32 ->
  from_hex (generateSecureSessionId r1) = Some (r1 32)
  /\ generateSecureSessionId r1 <> generateSecureSessionId r2.
Proof.
  intros Hne. unfold generateSecureSessionId. split.
  - apply HexFacts.from_hex_toString.
  - intros Heq. apply Hne.
    pose proof (HexFacts.from_hex_toString (r1 32)) as H1.
    rewrite Heq, HexFacts.from_hex_toString in H1. congruence.
Qed.

Lemma distinct_draws_give_distinct_ids_witness :
  generateSecureSessionId (fun n => repeat x00 n)
  <> generateSecureSessionId (fun n => repeat x01 n).
Proof.
  apply (distinct_draws_give_distinct_ids (fun n => repeat x00 n) (fun n => repeat x01 n)).
  discriminate.
Defined.

(** ** What a request changes on disk *)

Module FrameFacts.
Import StrFacts PathFacts ResolveFacts HandlerFacts LoopFacts EntryFacts.

Lemma frame_refl (base : string) (fs : FileSystem) : changes_only_within base fs fs.
Proof. repeat split; auto. Qed.

Lemma frame_trans (base : string) (fs1 fs2 fs3 : FileSystem) :
  changes_only_within base fs1 fs2 -> changes_only_within base fs2 fs3 ->
  changes_only_within base fs1 fs3.
Proof.
  intros (Hf1 & Hd1 & Hs1) (Hf2 & Hd2 & Hs2). split; [|split].
  - intros key Hout. now rewrite Hf2, Hf1.
  - set_solver.
  - auto.
Qed.

Lemma frame_record_op (base : string) (op : FsOp) (fs : FileSystem) :
  changes_only_within base fs (record_op op fs).
Proof. repeat split; auto. Qed.

Lemma frame_mkdir (cwd base p : string) (fs fs' : FileSystem) :
  mkdirSync cwd p fs = Some fs' -> changes_only_within base fs fs'.
Proof.
  intros Hmk. destruct (LoopFacts.mkdirSync_some _ _ _ _ Hmk) as (_ & Hfiles & Hdirs).
  split; [|split].
  - intros key _. now rewrite Hfiles.
  - rewrite Hdirs. apply union_subseteq_l.
  - intros key. now rewrite Hfiles.
Qed.

Lemma frame_insert (base key0 : string) (data : list byte) (fs fs' : FileSystem) :
  path_within base key0 ->
  files fs' = <[key0 := data]> (files fs) -> dirs fs' = dirs fs ->
  changes_only_within base fs fs'.
Proof.
  intros Hin Hfiles Hdirs. split; [|split].
  - intros key Hout. rewrite Hfiles. apply lookup_insert_ne. now intros ->.
  - now rewrite Hdirs.
  - intros key Hsome. rewrite Hfiles.
    destruct (decide (key0 = key)) as [->|Hne].
    + rewrite lookup_insert_eq. eauto.
    + now rewrite lookup_insert_ne.
Qed.

Lemma frame_write (cwd base p : string) (data : list byte) (fs : FileSystem) :
  path_within base (Path.resolve cwd p) ->
  changes_only_within base fs (snd (attempt (writeFileSync cwd p data fs) fs)).
Proof.
  intros Hin. destruct (writeFileSync cwd p data fs) as [fs'|] eqn:Hw; cbn.
  - destruct (LoopFacts.writeFileSync_some _ _ _ _ _ Hw) as (_ & Hfiles & Hdirs).
    now apply (frame_insert base (Path.resolve cwd p) data).
  - apply frame_refl.
Qed.

Lemma frame_ensure_dir (cwd base p : string) (fs : FileSystem) :
  changes_only_within base fs (snd (ensure_dir cwd p fs)).
Proof.
  destruct (LoopFacts.ensure_dir_cases cwd p fs) as [-> | [(fs1 & -> & Hmk) | [-> _]]];
    cbn [snd].
  - apply frame_record_op.
  - eapply frame_trans; [apply frame_record_op | eapply frame_mkdir, Hmk].
  - apply frame_record_op.
Qed.

Lemma frame_run_stream (cwd base p : string) (events : list StreamEvent)
    (closed : bool) (pr : Promise) (fs : FileSystem) :
  path_within base (Path.resolve cwd p) ->
  changes_only_within base fs (snd (run_stream cwd p events closed pr fs)).
Proof.
  intros Hin. revert closed pr fs.
  induction events as [|[chunk| |] events IH]; intros closed pr fs; cbn.
  - apply frame_refl.
  - destruct closed; [apply IH|].
    eapply frame_trans; [|apply IH].
    eapply frame_insert; [exact Hin | reflexivity | reflexivity].
  - apply IH.
  - apply IH.
Qed.

Lemma frame_createZip (cwd base sourceDir p : string) (events : list StreamEvent)
    (fs : FileSystem) :
  path_within base (Path.resolve cwd p) ->
  changes_only_within base fs (snd (createZip cwd events sourceDir p fs)).
Proof.
  intros Hin. unfold createZip.
  eapply frame_trans; [|now apply frame_run_stream].
  eapply frame_insert; [exact Hin | reflexivity | reflexivity].
Qed.

Section Loop.
Context `{Codec}.
Variables (cwd base outputDir : string).
Hypothesis Hentry : forall entry,
  fails_path_checks cwd outputDir entry = false ->
  path_within base (Path.resolve cwd (fst (saved_as outputDir entry))).

Lemma frame_save_file (fs : FileSystem) (entry : FileData) :
  changes_only_within base fs (snd (save_file cwd outputDir fs entry)).
Proof.
  pose proof (Hentry entry) as Hin.
  unfold save_file. destruct (fd_path entry) as [p|] eqn:Hp; [|apply frame_refl].
  unfold fails_path_checks, saved_as in Hin. cbn [fst] in Hin.
  rewrite (LoopFacts.path_checks_typed entry p Hp) in Hin.
  destruct (String.eqb (sanitizePath p) ""); [apply frame_refl|].
  destruct (Nat.ltb 255 (String.length (sanitizePath p))); [apply frame_refl|].
  destruct (validatePath cwd outputDir _); cbn [negb]; [|apply frame_refl].
  destruct (isAllowedFileExtension _); cbn [negb]; [|apply frame_refl].
  specialize (Hin eq_refl). cbn [orb].
  set (full := Path.join outputDir (sanitizePath p)) in *.
  pose proof (frame_ensure_dir cwd base (Path.dirname full) fs) as Hdir.
  destruct (ensure_dir cwd (Path.dirname full) fs) as [[|] fs2]; cbn [snd] in *;
    [|exact Hdir].
  assert (Hwrite : forall data,
            changes_only_within base fs
              (snd (attempt (writeFileSync cwd full data fs2) fs2))).
  { intros data. eapply frame_trans; [exact Hdir | now apply frame_write]. }
  destruct (fd_payload entry) as [content|content|content|];
    repeat match goal with |- context [if ?c then _ else _] => destruct c end;
    auto.
Qed.

Lemma frame_save_files (entries : list FileData) (fs : FileSystem) :
  changes_only_within base fs (snd (save_files cwd outputDir entries fs)).
Proof.
  revert fs. induction entries as [|entry entries IH]; intros fs; cbn [save_files].
  - apply frame_refl.
  - pose proof (frame_save_file fs entry) as Hone.
    destruct (save_file cwd outputDir fs entry) as [[|] fs1]; cbn [snd] in *;
      [|exact Hone].
    eapply frame_trans; [exact Hone | apply IH].
Qed.
End Loop.

Lemma within_child (N K : list string) :
  Forall (fun s => is_ordinary s = true) (N ++ K) ->
  path_within (abs_path N) (abs_path (N ++ K)).
Proof.
  intros HNK. pose proof HNK as HN. apply Forall_app in HN as [HN _].
  unfold path_within. rewrite !segments_abs_path by assumption.
  now apply prefix_app_r.
Qed.

Lemma within_trans (a b c : string) :
  path_within a b -> path_within b c -> path_within a c.
Proof. unfold path_within. intros Hab Hbc. now transitivity (segments b). Qed.

Lemma ancestors_self (cwd : string) (N : list string) :
  Forall (fun s => is_ordinary s = true) N -> N <> [] ->
  abs_path N ∈ ancestors cwd (abs_path N).
Proof.
  intros HN Hne. unfold ancestors. rewrite (resolve_abs_path_plain cwd N HN).
  change (filter (fun s : string => s ≠ "") (JS.split_on Path.sep (abs_path N)))
    with (segments (abs_path N)).
  rewrite (segments_abs_path N HN).
  apply list_elem_of_In, in_map_iff. exists (length N). split.
  - now rewrite firstn_all.
  - apply in_seq. destruct N; [contradiction | simpl; lia].
Qed.

End FrameFacts.

(** X19: whatever the request and however the build of the archive goes,
    [POST /api/create-zip] changes files only within the directory of the
    request's own session and removes nothing: every other file, the files
    of any other session among them, is left as it was. *)
Theorem create_zip_changes_only_its_session `{Codec} (cwd : string) (D : list string)
    (events : list StreamEvent) (body : CreateZipBody) (fs : FileSystem) :
  Forall (fun s => is_ordinary s = true) D ->
  changes_only_within (abs_path (D ++ ["temp"; sessionId body])) fs
    (snd (create_zip cwd (abs_path D) events body fs))
  /\ forall (other : string) (K : list string),
       other <> sessionId body ->
       Forall (fun s => is_ordinary s = true) (other :: K) ->
       files (snd (create_zip cwd (abs_path D) events body fs))
         !! abs_path (D ++ ["temp"; other] ++ K)
       = files fs !! abs_path (D ++ ["temp"; other] ++ K).
Proof.
  intros HD.
  assert (Hframe : changes_only_within (abs_path (D ++ ["temp"; sessionId body])) fs
                     (snd (create_zip cwd (abs_path D) events body fs))).
  { destruct (CreateZipFacts.create_zip_gate cwd D events body fs)
      as [-> | (Hsid & Hfiles & Hmax)]; [apply FrameFacts.frame_refl|].
    pose proof (HandlerFacts.session_ordinary D _ HD Hsid) as Hses.
    pose proof (HandlerFacts.output_ordinary D _ HD Hsid) as Hout.
    pose proof (HandlerFacts.zip_ordinary D _ HD Hsid) as Hzip.
    unfold create_zip. rewrite Hsid.
    assert (Hne : String.eqb (sessionId body) "" = false).
    { destruct (sessionId body); [discriminate Hsid | reflexivity]. }
    rewrite Hne. cbn [negb orb].
    assert (Hlen : Nat.eqb (length (body_files body)) 0 = false).
    { destruct (body_files body); [contradiction | reflexivity]. }
    rewrite Hlen. apply Nat.ltb_ge in Hmax. rewrite Hmax.
    rewrite (HandlerFacts.sessionDir_valid D _ HD Hsid cwd). cbn [negb].
    rewrite (HandlerFacts.outputDir_eq D _ HD Hsid), (HandlerFacts.zipPath_eq D _ HD Hsid).
    set (base := abs_path (D ++ ["temp"; sessionId body])).
    set (outputDir := abs_path (D ++ ["temp"; sessionId body; "output"])).
    set (zipPath := abs_path (D ++ ["temp"; sessionId body; "ar_output.zip"])).
    pose proof (FrameFacts.frame_ensure_dir cwd base outputDir fs) as Hdir.
    destruct (ensure_dir cwd outputDir fs) as [[|] fs2]; cbn [snd] in *; [|exact Hdir].
    assert (Hloop : changes_only_within base fs2
                      (snd (save_files cwd outputDir (body_files body) fs2))).
    { apply FrameFacts.frame_save_files. intros entry Hpass.
      assert (HB : Forall (fun s => is_ordinary s = true)
                     ((D ++ ["temp"; sessionId body]) ++ ["output"]))
        by (now rewrite <- List.app_assoc).
      destruct (EntryFacts.entry_stays_within cwd (D ++ ["temp"; sessionId body]) zipPath HB
                  ltac:(now destruct D) entry) as [_ Hw].
      { subst outputDir. now rewrite <- List.app_assoc. }
      specialize (Hw []). cbn [stays_within] in Hw.
      rewrite <- List.app_assoc in Hw. cbn [app] in Hw.
      eapply FrameFacts.within_trans; [|exact Hw].
      rewrite (ResolveFacts.resolve_abs_path_plain cwd _ Hout).
      subst base.
      change (D ++ ["temp"; sessionId body; "output"])%list
        with (D ++ ["temp"; sessionId body] ++ ["output"])%list.
      rewrite List.app_assoc. apply FrameFacts.within_child.
      now rewrite <- List.app_assoc. }
    destruct (save_files cwd outputDir (body_files body) fs2) as [[|] fs3];
      cbn [snd] in *; [|eapply FrameFacts.frame_trans; [exact Hdir | exact Hloop]].
    assert (Hzipf : changes_only_within base fs3
                      (snd (createZip cwd events outputDir zipPath fs3))).
    { apply FrameFacts.frame_createZip.
      subst zipPath. rewrite (ResolveFacts.resolve_abs_path_plain cwd _ Hzip).
      subst base.
      change (D ++ ["temp"; sessionId body; "ar_output.zip"])%list
        with (D ++ ["temp"; sessionId body] ++ ["ar_output.zip"])%list.
      rewrite List.app_assoc. apply FrameFacts.within_child.
      now rewrite <- List.app_assoc. }
    destruct (createZip cwd events outputDir zipPath fs3) as [outcome fs4].
    cbn [snd] in Hzipf.
    assert (Hall : changes_only_within base fs fs4).
    { eapply FrameFacts.frame_trans; [exact Hdir|].
      eapply FrameFacts.frame_trans; [exact Hloop | exact Hzipf]. }
    now destruct outcome. }
  split; [exact Hframe|].
  intros other K Hother HK.
  destruct (CreateZipFacts.create_zip_gate cwd D events body fs)
    as [-> | (Hsid & _ & _)]; [reflexivity|].
  apply Hframe.
  assert (Hord : Forall (fun s => is_ordinary s = true) (D ++ ["temp"; other] ++ K)).
  { apply Forall_app. split; [exact HD|]. constructor; [reflexivity | exact HK]. }
  unfold path_within.
  rewrite (ResolveFacts.segments_abs_path _ Hord),
    (ResolveFacts.segments_abs_path _ (HandlerFacts.session_ordinary D _ HD Hsid)).
  intros Hpre. apply prefix_app_inv, prefix_cons_inv_2, prefix_cons_inv_1 in Hpre.
  now apply Hother.
Qed.

Lemma create_zip_changes_only_its_session_witness :
  files (snd (@create_zip Examples.text_codec "/srv" (abs_path ["srv"; "app"])
                [ArchiveData [x50; x4b]; ArchiveError] Examples.batch
                {| dirs := ∅;
                   files := {[ "/srv/app/temp/other/ar_output.zip" := [x50] ]};
                   log := [] |}))
    !! "/srv/app/temp/other/ar_output.zip"
  = Some [x50].
Proof.
  refine (eq_trans
            (proj2 (@create_zip_changes_only_its_session Examples.text_codec "/srv"
                      ["srv"; "app"] [ArchiveData [x50; x4b]; ArchiveError] Examples.batch
                      {| dirs := ∅;
                         files := {[ "/srv/app/temp/other/ar_output.zip" := [x50] ]};
                         log := [] |}
                      ltac:(repeat constructor)) "other" ["ar_output.zip"] _ _) _);
    [discriminate | repeat constructor | reflexivity].
Defined.

Module UploadDirFacts.
Import StrFacts PathFacts ResolveFacts HandlerFacts.


End UploadDirFacts.



(** ** When the calls of [fs] go through *)

Module WriteFacts.
Import StrFacts PathFacts NormalizeFacts ResolveFacts ScanFacts HandlerFacts LoopFacts
  EntryFacts.

Lemma all_chars_app (p : ascii -> bool) (a b : string) :
  all_chars p (a +:+ b) = all_chars p a && all_chars p b.
Proof.
  induction a as [|c a IH]; [reflexivity|].
  cbn [String.append all_chars]. now rewrite IH, andb_assoc.
Qed.

Lemma has_nul_parent (N : list string) (k : string) :
  N <> [] -> has_nul (abs_path (N ++ [k])) = false -> has_nul (abs_path N) = false.
Proof.
  intros HN. rewrite <- (str_app_nil_r (abs_path (N ++ [k]))), abs_path_snoc by exact HN.
  unfold has_nul. rewrite !negb_false_iff, all_chars_app.
  intros Hall. now apply andb_true_iff in Hall as [Hall _].
Qed.

Lemma ancestors_abs_path (cwd : string) (N : list string) :
  Forall (fun s => is_ordinary s = true) N ->
  ancestors cwd (abs_path N) = map (fun k => abs_path (take k N)) (seq 1 (length N)).
Proof.
  intros HN. unfold ancestors. rewrite (resolve_abs_path_plain cwd N HN).
  change (filter (fun s : string => s ≠ "") (JS.split_on Path.sep (abs_path N)))
    with (segments (abs_path N)).
  now rewrite (segments_abs_path N HN).
Qed.

Lemma proper_ancestors_abs_path (cwd : string) (N : list string) :
  Forall (fun s => is_ordinary s = true) N ->
  proper_ancestors cwd (abs_path N)
  = map (fun k => abs_path (take k N)) (seq 1 (length N - 1)).
Proof.
  intros HN. unfold proper_ancestors. rewrite (resolve_abs_path_plain cwd N HN).
  change (filter (fun s : string => s ≠ "") (JS.split_on Path.sep (abs_path N)))
    with (segments (abs_path N)).
  now rewrite (segments_abs_path N HN).
Qed.

Lemma abs_path_inj (M N : list string) :
  Forall (fun s => is_ordinary s = true) M ->
  Forall (fun s => is_ordinary s = true) N ->
  abs_path M = abs_path N -> M = N.
Proof.
  intros HM HN Heq. rewrite <- (segments_abs_path M HM), <- (segments_abs_path N HN).
  now rewrite Heq.
Qed.

Lemma clear_prefix (fs : FileSystem) (N K : list string) :
  clear_of_files fs (N ++ K) -> clear_of_files fs N.
Proof.
  intros Hclear k Hk. specialize (Hclear k). rewrite List.length_app in Hclear.
  rewrite take_app_le in Hclear by lia. apply Hclear. lia.
Qed.

Lemma clear_same_files (fs fs' : FileSystem) (N : list string) :
  files fs' = files fs -> clear_of_files fs N -> clear_of_files fs' N.
Proof. intros Hfiles Hclear k Hk. rewrite Hfiles. now apply Hclear. Qed.

Lemma no_file_among (fs : FileSystem) (N : list string) (n : nat) :
  clear_of_files fs N -> n <= length N ->
  existsb (is_file fs) (map (fun k => abs_path (take k N)) (seq 1 n)) = false.
Proof.
  intros Hclear Hn. apply not_true_is_false. intros Hex.
  apply existsb_exists in Hex as (q & Hq & Hfile).
  apply in_map_iff in Hq as (k & <- & Hk). apply in_seq in Hk.
  unfold is_file in Hfile. apply bool_decide_eq_true in Hfile.
  rewrite Hclear in Hfile by lia. now destruct Hfile.
Qed.

(** [mkdirSync] goes through when no file stands in the way. *)
Lemma mkdirSync_goes_through (cwd : string) (N : list string) (fs : FileSystem) :
  Forall (fun s => is_ordinary s = true) N ->
  has_nul (abs_path N) = false -> clear_of_files fs N ->
  mkdirSync_throws cwd (abs_path N) fs = false.
Proof.
  intros HN Hnul Hclear. unfold mkdirSync_throws.
  rewrite Hnul, (ancestors_abs_path cwd N HN). cbn [orb].
  now apply no_file_among.
Qed.

(** The directory is there after [ensure_dir], and only it and its
    ancestors were made. *)
Lemma ensure_dir_goes_through (cwd : string) (N : list string) (fs : FileSystem) :
  Forall (fun s => is_ordinary s = true) N -> N <> [] ->
  has_nul (abs_path N) = false -> clear_of_files fs N ->
  exists fs1,
    ensure_dir cwd (abs_path N) fs = (Completed, fs1)
    /\ files fs1 = files fs
    /\ abs_path N ∈ dirs fs1
    /\ dirs fs ⊆ dirs fs1
    /\ (forall q, q ∈ dirs fs1 ->
          q ∈ dirs fs \/ exists k, 1 <= k <= length N /\ q = abs_path (take k N))
    /\ exists pre, log fs1 = (log fs ++ pre)%list /\ written pre = [].
Proof.
  intros HN Hne Hnul Hclear.
  unfold ensure_dir, existsSync. cbv zeta.
  rewrite (resolve_abs_path_plain cwd N HN).
  assert (Hnofile : bool_decide (is_Some (files fs !! abs_path N)) = false).
  { apply bool_decide_eq_false. specialize (Hclear (length N)).
    rewrite firstn_all in Hclear. rewrite Hclear.
    - intros [? ?]. discriminate.
    - destruct N; [contradiction | simpl; lia]. }
  rewrite Hnofile, orb_false_r.
  destruct (bool_decide (abs_path N ∈ dirs fs)) eqn:Hdir.
  - apply bool_decide_eq_true in Hdir.
    eexists. split; [reflexivity|]. cbn [record_op files dirs log].
    split; [reflexivity|]. split; [exact Hdir|]. split; [reflexivity|].
    split; [now left|]. now exists [ExistsSync (abs_path N)].
  - unfold mkdirSync.
    rewrite (mkdirSync_goes_through cwd N (record_op (ExistsSync (abs_path N)) fs))
      by assumption.
    cbn [attempt]. eexists. split; [reflexivity|]. cbn [record_op files dirs log].
    split; [reflexivity|].
    split.
    { apply elem_of_union_r, elem_of_list_to_set.
      apply (FrameFacts.ancestors_self cwd N HN Hne). }
    split; [apply union_subseteq_l|].
    split.
    + intros q Hq. apply elem_of_union in Hq as [Hq | Hq]; [now left | right].
      apply elem_of_list_to_set in Hq. rewrite (ancestors_abs_path cwd N HN) in Hq.
      apply list_elem_of_In, in_map_iff in Hq as (k & <- & Hk). apply in_seq in Hk.
      exists k. split; [lia | reflexivity].
    + exists [ExistsSync (abs_path N); MkdirSync (abs_path N)].
      split; [|reflexivity]. now rewrite <- List.app_assoc.
Qed.

Lemma dirname_abs_path (N : list string) (k : string) :
  Forall (fun s => is_ordinary s = true) (N ++ [k]) -> N <> [] ->
  Path.dirname (abs_path (N ++ [k])) = abs_path N.
Proof.
  intros Hall HN. apply Forall_app in Hall as [HNord Hk].
  inversion Hk as [|? ? Hkord _]; subst.
  rewrite <- (str_app_nil_r (abs_path (N ++ [k]))), abs_path_snoc by exact HN.
  apply dirname_child; [now apply abs_path_length | apply startsWith_slash | exact Hkord | now left].
Qed.

(** [writeFileSync] goes through when the directory is there, the target is
    not a directory and no file stands in the way. *)
Lemma writeFileSync_goes_through (cwd : string) (N : list string) (k : string)
    (fs : FileSystem) :
  Forall (fun s => is_ordinary s = true) (N ++ [k]) -> N <> [] ->
  has_nul (abs_path (N ++ [k])) = false ->
  clear_of_files fs N ->
  abs_path N ∈ dirs fs ->
  abs_path (N ++ [k]) ∉ dirs fs ->
  writeFileSync_throws cwd (abs_path (N ++ [k])) fs = false.
Proof.
  intros Hall HN Hnul Hclear Hdir Hnodir.
  pose proof Hall as Hsplit. apply Forall_app in Hsplit as [HNord Hk].
  inversion Hk as [|? ? Hkord _]; subst.
  destruct (is_ordinary_inv _ Hkord) as (Hkne & _ & _ & Hkns).
  unfold writeFileSync_throws. rewrite Hnul. cbn [orb].
  assert (Hlast : JS.last_char_is "/" (abs_path (N ++ [k])) = false).
  { rewrite <- (str_app_nil_r (abs_path (N ++ [k]))), abs_path_snoc by exact HN.
    rewrite str_app_nil_r.
    change (abs_path N +:+ String "/" k) with (abs_path N +:+ ("/" +:+ k)).
    rewrite <- str_app_assoc, HandlerFacts.last_char_is_app by exact Hkne.
    now apply HandlerFacts.no_slash_last. }
  rewrite Hlast, (resolve_abs_path_plain cwd _ Hall). cbn [orb].
  rewrite (bool_decide_eq_false_2 _ Hnodir). cbn [orb].
  rewrite (proper_ancestors_abs_path cwd _ Hall), List.length_app. cbn [length].
  replace (length N + 1 - 1) with (length N) by lia.
  assert (Hno : existsb (is_file fs)
                  (map (fun j => abs_path (take j (N ++ [k]))) (seq 1 (length N))) = false).
  { rewrite <- (no_file_among fs N (length N) Hclear (le_n _)).
    f_equal. apply map_ext_in. intros j Hj. apply in_seq in Hj.
    now rewrite take_app_le by lia. }
  rewrite Hno. cbn [orb].
  unfold parent_missing. rewrite (dirname_abs_path N k Hall HN).
  rewrite (bool_decide_eq_true_2 _ Hdir). cbn [negb]. apply andb_false_r.
Qed.

End WriteFacts.

(** ** What a batch leaves on disk *)

Module BatchFacts.
Import StrFacts PathFacts ResolveFacts HandlerFacts LoopFacts EntryFacts.

Lemma ensure_dir_files (cwd p : string) (fs : FileSystem) :
  files (snd (ensure_dir cwd p fs)) = files fs.
Proof.
  destruct (ensure_dir_cases cwd p fs) as [-> | [(fs1 & -> & Hmk) | [-> _]]];
    cbn [snd]; [reflexivity | | reflexivity].
  now destruct (mkdirSync_some _ _ _ _ Hmk) as (_ & -> & _).
Qed.

Section Loop.
Context `{Codec}.
Variables (cwd outputDir : string).

Lemma attempt_write_files (p : string) (data : list byte) (fs : FileSystem) :
  files (snd (attempt (writeFileSync cwd p data fs) fs))
  = match fst (attempt (writeFileSync cwd p data fs) fs) with
    | Completed => <[Path.resolve cwd p := data]> (files fs)
    | Thrown => files fs
    end.
Proof.
  destruct (writeFileSync cwd p data fs) as [fs'|] eqn:Hw; cbn; [|reflexivity].
  now destruct (writeFileSync_some _ _ _ _ _ Hw) as (_ & -> & _).
Qed.

(** The files after one turn of the loop: a turn that completes on a valid
    entry writes it, any other turn leaves the files as they are. *)
Lemma save_file_files (fs : FileSystem) (entry : FileData) :
  files (snd (save_file cwd outputDir fs entry))
  = match fst (save_file cwd outputDir fs entry) with
    | Completed =>
        if fails_validation cwd outputDir entry then files fs
        else <[Path.resolve cwd (saved_as outputDir entry).1 := (saved_as outputDir entry).2]>
               (files fs)
    | Thrown => files fs
    end.
Proof.
  unfold save_file. destruct (fd_path entry) as [p|] eqn:Hp; [|reflexivity].
  unfold fails_validation, fails_path_checks, saved_as. cbn [fst snd].
  rewrite (path_checks_typed entry p Hp).
  destruct (String.eqb (sanitizePath p) ""); [reflexivity|].
  destruct (Nat.ltb 255 (String.length (sanitizePath p))); [reflexivity|].
  destruct (validatePath cwd outputDir _); [|reflexivity].
  destruct (isAllowedFileExtension _); [|reflexivity].
  cbn [negb orb].
  set (full := Path.join outputDir (sanitizePath p)).
  pose proof (ensure_dir_files cwd (Path.dirname full) fs) as Hdir.
  destruct (ensure_dir cwd (Path.dirname full) fs) as [[|] fs2]; cbn [fst snd] in *;
    [|exact Hdir].
  unfold oversized, decoded.
  destruct (fd_payload entry) as [content|content|content|]; cbn [orb].
  - destruct (Z.of_nat (String.length content) >? MAX_FILE_BYTES)%Z; cbn [orb fst snd];
      [exact Hdir|].
    destruct (Z.of_nat (length (Buffer_from_base64 (strip_data_url content)))
              >? MAX_FILE_BYTES)%Z; cbn [fst snd]; [exact Hdir|].
    rewrite attempt_write_files. destruct (fst (attempt _ _)); now rewrite Hdir.
  - destruct (Z.of_nat (length (Buffer_from (JSON_stringify content)))
              >? MAX_FILE_BYTES)%Z; cbn [fst snd]; [exact Hdir|].
    rewrite attempt_write_files. destruct (fst (attempt _ _)); now rewrite Hdir.
  - destruct (Z.of_nat (length (Buffer_from content)) >? MAX_FILE_BYTES)%Z;
      cbn [fst snd]; [exact Hdir|].
    rewrite attempt_write_files. destruct (fst (attempt _ _)); now rewrite Hdir.
  - exact Hdir.
Qed.

(** The files after the loop: those of before, overwritten by the valid
    entries among the ones the loop handled. *)
Lemma save_files_files (entries : list FileData) (fs : FileSystem) :
  exists handled rest,
    entries = (handled ++ rest)%list
    /\ files (snd (save_files cwd outputDir entries fs))
       = write_all cwd
           (map (saved_as outputDir)
              (filter (fun entry => fails_validation cwd outputDir entry = false) handled))
           (files fs)
    /\ match fst (save_files cwd outputDir entries fs) with
       | Completed => rest = []
       | Thrown => rest <> []
       end.
Proof.
  revert fs. induction entries as [|entry entries IH]; intros fs.
  { exists [], []. cbn. repeat split. }
  cbn [save_files]. pose proof (save_file_files fs entry) as Hone.
  destruct (save_file cwd outputDir fs entry) as [[|] fs1]; cbn [fst snd] in *.
  - destruct (IH fs1) as (handled & rest & Hsplit & Hfiles & Hc).
    exists (entry :: handled), rest. split; [now rewrite Hsplit|]. split; [|exact Hc].
    rewrite Hfiles, Hone, filter_cons.
    destruct (fails_validation cwd outputDir entry) eqn:Hfails.
    + rewrite decide_False by discriminate. reflexivity.
    + rewrite decide_True by reflexivity. reflexivity.
  - exists [], (entry :: entries). cbn. repeat split; [exact Hone | discriminate].
Qed.
End Loop.

Lemma write_all_app (cwd : string) (ws1 ws2 : list (string * list byte))
    (m : gmap string (list byte)) :
  write_all cwd (ws1 ++ ws2) m = write_all cwd ws2 (write_all cwd ws1 m).
Proof. unfold write_all. apply fold_left_app. Qed.

Lemma run_stream_files (cwd p : string) (events : list StreamEvent)
    (pr : Promise) (fs : FileSystem) (content : list byte) :
  files fs !! Path.resolve cwd p = Some content ->
  files (snd (run_stream cwd p events false pr fs))
  = <[Path.resolve cwd p := (content ++ streamed events)%list]> (files fs).
Proof.
  revert pr fs content.
  induction events as [|[chunk| |] events IH]; intros pr fs content Hfile; cbn.
  - rewrite List.app_nil_r. symmetry. now apply insert_id.
  - rewrite (IH _ _ (content ++ chunk)%list).
    + cbn. rewrite Hfile. cbn. rewrite insert_insert_eq. now rewrite <- List.app_assoc.
    + cbn. rewrite Hfile. cbn. apply lookup_insert_eq.
  - now apply IH.
  - rewrite run_stream_closed, List.app_nil_r. symmetry. now apply insert_id.
Qed.

Lemma createZip_files (cwd : string) (events : list StreamEvent)
    (sourceDir p : string) (fs : FileSystem) :
  files (snd (createZip cwd events sourceDir p fs))
  = <[Path.resolve cwd p := streamed events]> (files fs).
Proof.
  unfold createZip.
  rewrite (run_stream_files cwd p events PromisePending _ []).
  - cbn. apply insert_insert_eq.
  - cbn. apply lookup_insert_eq.
Qed.

End BatchFacts.

(** X21: whatever the request, the files [POST /api/create-zip] writes with
    [writeFileSync] are at most 1000, and each of them comes from an entry of
    the batch whose sanitized path is not empty and has at most 255
    characters, carries an allowed extension and holds at most 20 MiB. *)
Theorem written_files_respect_the_limits `{Codec} (cwd : string) (D : list string)
    (events : list StreamEvent) (body : CreateZipBody) (fs : FileSystem) :
  Forall (fun s => is_ordinary s = true) D ->
  let outputDir := abs_path (D ++ ["temp"; sessionId body; "output"]) in
  let ws := written (log_since fs (snd (create_zip cwd (abs_path D) events body fs))) in
  length ws <= 1000
  /\ Forall (fun w => exists entry p,
               entry ∈ body_files body
               /\ fd_path entry = Some p
               /\ w = saved_as outputDir entry
               /\ sanitizePath p <> ""
               /\ String.length (sanitizePath p) <= 255
               /\ isAllowedFileExtension w.1 = true
               /\ (Z.of_nat (length w.2) <= MAX_FILE_BYTES)%Z) ws.
Proof.
  intros HD outputDir ws. subst ws.
  destruct (CreateZipFacts.create_zip_gate cwd D events body fs)
    as [-> | (Hsid & Hfiles & Hmax)].
  { rewrite LoopFacts.log_since_same. cbn. split; [lia | constructor]. }
  destruct (CreateZipFacts.create_zip_accepted_plain cwd D events body fs HD Hsid Hfiles Hmax)
    as (fs' & handled & rest & Heq & Hsplit & Htyped & Hw & _).
  rewrite Heq, Hw. fold outputDir.
  assert (Hlen : length handled <= length (body_files body)).
  { rewrite Hsplit, List.length_app. lia. }
  split.
  - rewrite List.length_map.
    etransitivity; [apply length_filter | lia].
  - apply Forall_forall. intros w Hin.
    apply list_elem_of_In, in_map_iff in Hin as (entry & <- & Hin).
    apply list_elem_of_In, list_elem_of_filter in Hin as [Hvalid Hin].
    rewrite Forall_forall in Htyped. pose proof (Htyped entry Hin) as Hp.
    destruct (fd_path entry) as [p|] eqn:Hpath; [|contradiction].
    exists entry, p. split; [rewrite Hsplit; apply elem_of_app; now left|].
    split; [exact Hpath|]. split; [reflexivity|].
    unfold fails_validation, fails_path_checks in Hvalid.
    rewrite (LoopFacts.path_checks_typed entry p Hpath) in Hvalid.
    rewrite !orb_false_iff, !negb_false_iff in Hvalid.
    destruct Hvalid as [[[[Hne Hl] _] Hext] Hsize].
    apply String.eqb_neq in Hne. apply Nat.ltb_ge in Hl.
    split; [exact Hne|]. split; [exact Hl|].
    split; [unfold saved_as; cbn [fst]; now rewrite (LoopFacts.path_checks_typed entry p Hpath)|].
    unfold oversized in Hsize. apply orb_false_iff in Hsize as [_ Hsize].
    rewrite Z.gtb_ltb in Hsize. apply Z.ltb_ge in Hsize. exact Hsize.
Qed.

Lemma written_files_respect_the_limits_witness :
  length (written (log_since Examples.empty_fs
            (snd (@create_zip Examples.text_codec "/srv" (abs_path ["srv"; "app"])
                    [OutputClose] Examples.batch Examples.empty_fs)))) <= 1000.
Proof.
  apply (proj1 (@written_files_respect_the_limits Examples.text_codec "/srv" ["srv"; "app"]
                  [OutputClose] Examples.batch Examples.empty_fs
                  ltac:(repeat constructor))).
Defined.

(** X22: after an accepted request the files on disk are those that were
    there before, overwritten by the valid entries among the ones the loop
    handled, in the order of the batch.  When the loop handled the whole
    batch, which a success response implies, the archive comes on top,
    holding what was streamed into it, and the last entry of the batch, when
    it is valid, is on disk with its decoded bytes; when the loop ended
    early, on a step that throws, the answer is the 500 response and nothing
    else was written. *)
Theorem accepted_batch_is_on_disk `{Codec} (cwd : string) (D : list string)
    (events : list StreamEvent) (body : CreateZipBody) (fs : FileSystem) :
  Forall (fun s => is_ordinary s = true) D ->
  isValidSessionId (sessionId body) = true ->
  body_files body <> [] ->
  length (body_files body) <= 1000 ->
  let outputDir := abs_path (D ++ ["temp"; sessionId body; "output"]) in
  let zipPath := abs_path (D ++ ["temp"; sessionId body; "ar_output.zip"]) in
  let result := create_zip cwd (abs_path D) events body fs in
  (exists handled rest,
     body_files body = (handled ++ rest)%list
     /\ let kept := write_all cwd
                      (map (saved_as outputDir)
                         (filter (fun entry => fails_validation cwd outputDir entry = false)
                            handled))
                      (files fs) in
        (rest = []
         /\ files (snd result) = <[Path.resolve cwd zipPath := streamed events]> kept)
        \/ (rest <> []
            /\ fst result = ErrorJson 500 "Internal server error"
            /\ files (snd result) = kept))
  /\ forall url earlier final,
       fst result = ZipReady url ->
       body_files body = (earlier ++ [final])%list ->
       fails_validation cwd outputDir final = false ->
       files (snd result) !! Path.resolve cwd (saved_as outputDir final).1
       = Some (decoded (fd_payload final)).
Proof.
  intros HD Hsid Hfiles Hmax outputDir zipPath result.
  pose proof (HandlerFacts.output_ordinary D _ HD Hsid) as Hout.
  pose proof (HandlerFacts.zip_ordinary D _ HD Hsid) as Hzip.
  assert (Hmap : exists handled rest,
     body_files body = (handled ++ rest)%list
     /\ let kept := write_all cwd
                      (map (saved_as outputDir)
                         (filter (fun entry => fails_validation cwd outputDir entry = false)
                            handled))
                      (files fs) in
        (rest = []
         /\ files (snd result) = <[Path.resolve cwd zipPath := streamed events]> kept)
        \/ (rest <> []
            /\ fst result = ErrorJson 500 "Internal server error"
            /\ files (snd result) = kept)).
  { subst result. unfold create_zip. rewrite Hsid.
    assert (Hne : String.eqb (sessionId body) "" = false).
    { destruct (sessionId body); [discriminate Hsid | reflexivity]. }
    rewrite Hne. cbn [negb orb].
    assert (Hlen : Nat.eqb (length (body_files body)) 0 = false).
    { destruct (body_files body); [contradiction | reflexivity]. }
    rewrite Hlen. pose proof Hmax as Hmax'. apply Nat.ltb_ge in Hmax'. rewrite Hmax'.
    rewrite (HandlerFacts.sessionDir_valid D _ HD Hsid cwd). cbn [negb].
    rewrite (HandlerFacts.outputDir_eq D _ HD Hsid), (HandlerFacts.zipPath_eq D _ HD Hsid).
    fold outputDir zipPath.
    pose proof (BatchFacts.ensure_dir_files cwd outputDir fs) as Hdir.
    destruct (ensure_dir cwd outputDir fs) as [[|] fs1]; cbn [fst snd] in *.
    2:{ exists [], (body_files body). split; [reflexivity|]. cbv zeta. right.
        split; [exact Hfiles|]. split; [reflexivity | exact Hdir]. }
    destruct (BatchFacts.save_files_files cwd outputDir (body_files body) fs1)
      as (handled & rest & Hsplit & Hkept & Hc).
    rewrite Hdir in Hkept.
    destruct (save_files cwd outputDir (body_files body) fs1) as [[|] fs2];
      cbn [fst snd] in *.
    - exists handled, rest. split; [exact Hsplit|]. cbv zeta. left.
      split; [exact Hc|].
      pose proof (BatchFacts.createZip_files cwd events outputDir zipPath fs2) as Hz.
      destruct (createZip cwd events outputDir zipPath fs2) as [outcome fs4].
      cbn [snd] in Hz. rewrite Hkept in Hz. now destruct outcome.
    - exists handled, rest. split; [exact Hsplit|]. cbv zeta. right.
      split; [exact Hc|]. split; [reflexivity | exact Hkept]. }
  split; [exact Hmap|].
  intros url earlier final Hready Hbatch Hvalid.
  destruct Hmap as (handled & rest & Hsplit & Hcases). cbv zeta in Hcases.
  destruct Hcases as [[-> Hfs] | (_ & Hresp & _)];
    [|rewrite Hresp in Hready; discriminate Hready].
  rewrite List.app_nil_r in Hsplit. subst handled.
  rewrite Hfs, Hbatch.
  rewrite filter_app, List.map_app, BatchFacts.write_all_app.
  rewrite filter_cons, decide_True by exact Hvalid. cbn [filter map].
  assert (Hwithin : path_within (Path.resolve cwd outputDir)
                      (Path.resolve cwd (saved_as outputDir final).1)).
  { assert (HB : Forall (fun s => is_ordinary s = true)
                   ((D ++ ["temp"; sessionId body]) ++ ["output"]))
      by (now rewrite <- List.app_assoc).
    destruct (EntryFacts.entry_stays_within cwd (D ++ ["temp"; sessionId body]) zipPath HB
                ltac:(now destruct D) final) as [_ Hw].
    { unfold fails_validation in Hvalid. apply orb_false_iff in Hvalid as [Hp _].
      rewrite <- List.app_assoc. exact Hp. }
    specialize (Hw []). cbn [stays_within] in Hw.
    rewrite <- List.app_assoc in Hw. exact Hw. }
  rewrite lookup_insert_ne.
  - unfold write_all at 1. cbn [fold_left]. apply lookup_insert_eq.
  - intros Heq. rewrite <- Heq in Hwithin. revert Hwithin.
    unfold path_within, outputDir, zipPath.
    rewrite !ResolveFacts.resolve_abs_path_plain by assumption.
    rewrite !ResolveFacts.segments_abs_path by assumption.
    intros Hpre. apply prefix_app_inv in Hpre.
    do 2 apply prefix_cons_inv_2 in Hpre. apply prefix_cons_inv_1 in Hpre.
    discriminate Hpre.
Qed.

Lemma accepted_batch_is_on_disk_witness :
  files (snd (@create_zip Examples.text_codec "/srv" (abs_path ["srv"; "app"])
                [OutputClose] Examples.batch Examples.empty_fs))
    !! "/srv/app/temp/0123456789abcdef0123456789abcdef0123456789abcdef0123456789abcdef/output/a/b.json"
  = Some [x7b; x7d].
Proof.
  refine (eq_trans
            (proj2 (@accepted_batch_is_on_disk Examples.text_codec "/srv" ["srv"; "app"]
                      [OutputClose] Examples.batch Examples.empty_fs
                      ltac:(repeat constructor) eq_refl ltac:(discriminate)
                      ltac:(cbn; lia))
               ("/download/" +:+ Examples.sid +:+ "/ar_output.zip")
               [Examples.traversal_entry] Examples.good_entry _ eq_refl eq_refl) _).
  - vm_compute. reflexivity.
  - reflexivity.
Defined.

(** ** The earlier server *)

Module LegacyFacts.
Import StrFacts PathFacts NormalizeFacts ResolveFacts HandlerFacts LoopFacts.

(** As many [".."] as there are segments on the stack remove them all. *)
Lemma norm_segments_climb (allow : bool) (R res : list string) :
  Forall (fun seg => seg <> "..") R ->
  Path.norm_segments allow (repeat ".." (length R)) (R ++ res) = res.
Proof.
  induction R as [|r R IH]; intros HR; [reflexivity|].
  inversion HR as [|? ? Hr HR']; subst.
  cbn [length repeat app Path.norm_segments fold_left].
  rewrite norm_step_parent by exact Hr. now apply IH.
Qed.

Lemma ends_with_segment (X : string) (L : list string) (z : string) :
  exists Y, X +:+ JS.join_with "/" (L ++ [z]) = Y +:+ z.
Proof.
  destruct L as [|x L].
  - now exists X.
  - rewrite join_with_app by discriminate. cbn [JS.join_with].
    exists (X +:+ JS.join_with "/" (x :: L) +:+ "/").
    now rewrite !str_app_assoc.
Qed.

(** [path.normalize] of a directory followed by as many [".."] as it has
    segments below [B] and then by ordinary segments. *)
Lemma normalize_climb (B C K : list string) :
  Forall (fun seg => is_ordinary seg = true) (B ++ C) ->
  Forall (fun seg => is_ordinary seg = true) K -> K <> [] ->
  Path.normalize (abs_path (B ++ C) +:+ "/"
                  +:+ JS.join_with "/" (repeat ".." (length C) ++ K))
  = abs_path (B ++ K).
Proof.
  intros HBC HK HKne.
  pose proof HBC as HB. apply Forall_app in HB as [HB HC].
  assert (HBK : Forall (fun seg => is_ordinary seg = true) (B ++ K))
    by (apply Forall_app; now split).
  set (s := JS.join_with "/" (repeat ".." (length C) ++ K)).
  change (abs_path (B ++ C) +:+ "/" +:+ s)
    with (String "/" (JS.join_with "/" (B ++ C) +:+ String "/" s)).
  rewrite normalize_absolute_eq. cbv zeta.
  rewrite split_on_app_sep, norm_segments_app, norm_segments_join by exact HBC.
  assert (Hsplit : JS.split_on "/" s = (repeat ".." (length C) ++ K)%list).
  { subst s. apply split_join.
    - destruct K; [contradiction|]. now destruct (repeat ".." (length C)).
    - apply Forall_app. split; [|now apply ordinary_no_slash].
      apply Forall_forall. intros x Hx. apply list_elem_of_In, repeat_spec in Hx.
      now subst x. }
  rewrite Hsplit, norm_segments_app, rev_app_distr.
  rewrite <- (List.length_rev C), norm_segments_climb.
  2:{ apply Forall_rev. eapply Forall_impl; [exact HC|].
      intros x Hx. now apply is_ordinary_inv in Hx. }
  rewrite norm_segments_ordinary by exact HK.
  rewrite rev_app_distr, !rev_involutive.
  destruct (String.eqb_spec (JS.join_with "/" (B ++ K)) "") as [Hempty|_].
  { apply join_with_eq_empty in Hempty; [|now apply ordinary_nonempty].
    apply app_eq_nil in Hempty as [_ ?]. contradiction. }
  assert (Hlast : JS.last_char_is "/"
                    (String "/" (JS.join_with "/" (B ++ C) +:+ String "/" s)) = false).
  { destruct (@exists_last _ K HKne) as (K0 & z & HKz).
    assert (Hz : is_ordinary z = true).
    { rewrite HKz in HK. apply Forall_app in HK as [_ Hz].
      now inversion Hz. }
    destruct (is_ordinary_inv _ Hz) as (Hzne & _ & _ & Hzns).
    subst s. rewrite HKz, List.app_assoc.
    destruct (ends_with_segment (String "/" (JS.join_with "/" (B ++ C) +:+ "/"))
                (repeat ".." (length C) ++ K0) z) as [Y HY].
    assert (Hshape : String "/" (JS.join_with "/" (B ++ C)
                       +:+ String "/" (JS.join_with "/"
                                         ((repeat ".." (length C) ++ K0) ++ [z])))
                     = Y +:+ z).
    { rewrite <- HY. simpl. now rewrite str_app_assoc. }
    rewrite Hshape, last_char_is_app by exact Hzne. now apply no_slash_last. }
  rewrite Hlast. reflexivity.
Qed.

Lemma join3_absolute (B : list string) (s1 s2 : string) :
  s1 <> "" -> s2 <> "" ->
  Legacy.join3 (abs_path B) s1 s2
  = Path.normalize (abs_path B +:+ "/" +:+ JS.join_with "/" [s1; s2]).
Proof.
  intros H1 H2. unfold Legacy.join3.
  rewrite filter_cons, decide_True by discriminate.
  rewrite filter_cons, decide_True by exact H1.
  rewrite filter_cons, decide_True by exact H2.
  reflexivity.
Qed.

Lemma join3_below (B : list string) (s1 s2 : string) :
  Forall (fun seg => is_ordinary seg = true) (B ++ [s1; s2]) ->
  Legacy.join3 (abs_path B) s1 s2 = abs_path (B ++ [s1; s2]).
Proof.
  intros Hall. pose proof Hall as HB. apply Forall_app in HB as [HB Hs].
  inversion Hs as [|? ? H1 Hs']; subst. inversion Hs' as [|? ? H2 _]; subst.
  rewrite join3_absolute by (now apply is_ordinary_inv).
  rewrite <- (List.app_nil_r B) at 1.
  apply (normalize_climb B [] [s1; s2]); [|exact Hs | discriminate].
  now rewrite List.app_nil_r.
Qed.

Section Loop.
Context `{Codec}.
Variables (cwd outputDir : string).

(** One turn of the loop: calls that write nothing, then, when the turn
    completes, the write of the entry. *)
Lemma legacy_save_file_ops (fs : FileSystem) (entry : FileData) :
  exists pre,
    log (snd (Legacy.save_file cwd outputDir fs entry))
    = (log fs ++ pre
         ++ match fst (Legacy.save_file cwd outputDir fs entry) with
            | Completed => [WriteFileSync (Path.join outputDir (entry_path entry))
                              (decoded (fd_payload entry))]
            | Thrown => []
            end)%list
    /\ written pre = [].
Proof.
  unfold Legacy.save_file, entry_path.
  destruct (fd_path entry) as [p|]; cbn [default fst snd].
  2:{ exists []. split; [now rewrite !List.app_nil_r | reflexivity]. }
  destruct (ensure_dir_ops (fun _ => True) cwd (Path.dirname (Path.join outputDir p)) fs I I)
    as (pre & Hlog & Hpre & _).
  destruct (ensure_dir cwd (Path.dirname (Path.join outputDir p)) fs) as [[|] fs1];
    cbn [fst snd] in *.
  2:{ exists pre. split; [now rewrite List.app_nil_r | exact Hpre]. }
  exists pre. split; [|exact Hpre].
  assert (Hwrite : forall data,
            log (snd (attempt (writeFileSync cwd (Path.join outputDir p) data fs1) fs1))
            = (log fs ++ pre
                 ++ match fst (attempt (writeFileSync cwd (Path.join outputDir p) data fs1)
                                 fs1) with
                    | Completed => [WriteFileSync (Path.join outputDir p) data]
                    | Thrown => []
                    end)%list).
  { intros data. destruct (writeFileSync cwd (Path.join outputDir p) data fs1)
      as [fs2|] eqn:Hw; cbn [attempt fst snd].
    - destruct (writeFileSync_some _ _ _ _ _ Hw) as (-> & _).
      now rewrite Hlog, <- List.app_assoc.
    - now rewrite List.app_nil_r. }
  destruct (fd_payload entry) as [content|content|content|]; cbn [decoded fst snd].
  - apply Hwrite.
  - apply Hwrite.
  - apply Hwrite.
  - now rewrite List.app_nil_r.
Qed.

(** The loop writes the entries it handles, in order, and nothing else. *)
Lemma legacy_save_files_ops (entries : list FileData) (fs : FileSystem) :
  exists handled rest ops,
    entries = (handled ++ rest)%list
    /\ log (snd (Legacy.save_files cwd outputDir entries fs)) = (log fs ++ ops)%list
    /\ written ops
       = map (fun entry => (Path.join outputDir (entry_path entry),
                            decoded (fd_payload entry))) handled
    /\ match fst (Legacy.save_files cwd outputDir entries fs) with
       | Completed => rest = []
       | Thrown => rest <> []
       end.
Proof.
  revert fs. induction entries as [|entry entries IH]; intros fs.
  { exists [], [], []. cbn. repeat split. now rewrite List.app_nil_r. }
  cbn [Legacy.save_files].
  destruct (legacy_save_file_ops fs entry) as (pre & Hlog1 & Hpre).
  destruct (Legacy.save_file cwd outputDir fs entry) as [[|] fs1]; cbn [fst snd] in *.
  - destruct (IH fs1) as (handled & rest & ops & Hsplit & Hlog2 & Hops & Hc).
    exists (entry :: handled), rest. eexists. split; [now rewrite Hsplit|].
    split; [rewrite Hlog2, Hlog1, <- !List.app_assoc; reflexivity|].
    split; [|exact Hc].
    rewrite !written_app, Hpre, Hops. reflexivity.
  - exists [], (entry :: entries), pre. split; [reflexivity|].
    split; [now rewrite Hlog1, List.app_nil_r|]. split; [exact Hpre | discriminate].
Qed.

(** An entry on which the first turn completes is among the writes. *)
Lemma legacy_first_entry_written (entry : FileData) (after : list FileData)
    (fs : FileSystem) :
  fst (Legacy.save_file cwd outputDir fs entry) = Completed ->
  exists ops,
    log (snd (Legacy.save_files cwd outputDir (entry :: after) fs)) = (log fs ++ ops)%list
    /\ (Path.join outputDir (entry_path entry), decoded (fd_payload entry)) ∈ written ops.
Proof.
  intros Hdone. cbn [Legacy.save_files].
  destruct (legacy_save_file_ops fs entry) as (pre & Hlog1 & _).
  destruct (Legacy.save_file cwd outputDir fs entry) as [[|] fs1]; cbn [fst snd] in *;
    [|discriminate Hdone].
  destruct (legacy_save_files_ops after fs1) as (_ & _ & ops & _ & Hlog2 & _).
  eexists. split; [rewrite Hlog2, Hlog1, <- !List.app_assoc; reflexivity|].
  rewrite !written_app. apply elem_of_app. right. apply elem_of_app. left.
  cbn. apply list_elem_of_here.
Qed.
End Loop.

(** The log of the earlier [POST /api/create-zip]: the calls that make the
    output directory, those of the loop, then, when the loop completed, the
    stream of the archive. *)
Lemma legacy_create_zip_log `{Codec} (cwd __dirname message : string)
    (events : list StreamEvent) (body : CreateZipBody) (fs : FileSystem) :
  let outputDir := Legacy.join3 (TEMP_DIR __dirname) (sessionId body) "output" in
  let result := Legacy.create_zip cwd __dirname message events body fs in
  (fst (ensure_dir cwd outputDir fs) = Thrown
   /\ fst result = ErrorJson 500 message
   /\ written (log_since fs (snd result)) = [])
  \/ (exists fs1 tail,
        ensure_dir cwd outputDir fs = (Completed, fs1)
        /\ log (snd result)
           = (log (snd (Legacy.save_files cwd outputDir (body_files body) fs1)) ++ tail)%list
        /\ written tail = []
        /\ (fst (Legacy.save_files cwd outputDir (body_files body) fs1) = Thrown ->
            fst result = ErrorJson 500 message)).
Proof.
  intros outputDir result. subst result. unfold Legacy.create_zip. fold outputDir.
  destruct (ensure_dir_ops (fun _ => True) cwd outputDir fs I I) as (pre & Hlog & Hpre & _).
  destruct (ensure_dir cwd outputDir fs) as [[|] fs1]; cbn [fst snd] in *.
  2:{ left. split; [reflexivity|]. split; [reflexivity|].
      now rewrite (log_since_app _ _ _ Hlog). }
  right. exists fs1.
  destruct (Legacy.save_files cwd outputDir (body_files body) fs1) as [[|] fs2];
    cbn [fst snd].
  2:{ exists []. split; [reflexivity|]. split; [now rewrite List.app_nil_r|].
      split; reflexivity. }
  set (zipPath := Legacy.join3 (TEMP_DIR __dirname) (sessionId body) "ar_output.zip").
  destruct (createZip_spec cwd events outputDir zipPath fs2) as (_ & Hzip & _).
  destruct (createZip cwd events outputDir zipPath fs2) as [outcome fs3].
  cbn [snd] in Hzip. exists [CreateWriteStream zipPath].
  split; [reflexivity|]. split; [now destruct outcome|]. split; [reflexivity | discriminate].
Qed.

End LegacyFacts.

(** X23: the download route of the earlier server does no containment
    check: asked for the session [..] it serves any file of the application
    directory itself, outside [TEMP_DIR], the source of the server among
    them. *)
Theorem legacy_download_leaves_temp (cwd : string) (D : list string) (f : string)
    (K : list string) (fs : FileSystem) (data : list byte) :
  Forall (fun s => is_ordinary s = true) D ->
  Forall (fun s => is_ordinary s = true) (f :: K) ->
  f <> "temp" ->
  files fs !! abs_path (D ++ f :: K) = Some data ->
  fst (Legacy.download cwd (abs_path D) ".." (JS.join_with "/" (f :: K)) fs)
  = Download (abs_path (D ++ f :: K)) (JS.join_with "/" (f :: K)) data
  /\ ~ path_within (TEMP_DIR (abs_path D)) (abs_path (D ++ f :: K)).
Proof.
  intros HD HK Hf Hfile.
  assert (HDK : Forall (fun s => is_ordinary s = true) (D ++ f :: K))
    by (apply Forall_app; now split).
  assert (Hne : JS.join_with "/" (f :: K) <> "").
  { intros Hempty. apply NormalizeFacts.join_with_eq_empty in Hempty; [discriminate|].
    now apply ResolveFacts.ordinary_nonempty. }
  split.
  - unfold Legacy.download. rewrite (HandlerFacts.TEMP_DIR_eq D HD).
    rewrite LegacyFacts.join3_absolute by (discriminate || exact Hne).
    change (JS.join_with "/" [".."; JS.join_with "/" (f :: K)])
      with (JS.join_with "/" (repeat ".." (length ["temp"]) ++ f :: K)).
    rewrite (LegacyFacts.normalize_climb D ["temp"] (f :: K))
      by (exact (HandlerFacts.temp_ordinary D HD) || exact HK || discriminate).
    unfold existsSync. cbv zeta.
    rewrite (ResolveFacts.resolve_abs_path_plain cwd _ HDK).
    rewrite (bool_decide_eq_true_2 (is_Some (files fs !! abs_path (D ++ f :: K))))
      by (rewrite Hfile; eauto).
    rewrite orb_true_r. cbn [record_op files]. now rewrite Hfile.
  - unfold path_within. rewrite (HandlerFacts.TEMP_DIR_eq D HD).
    rewrite (ResolveFacts.segments_abs_path _ (HandlerFacts.temp_ordinary D HD)),
      (ResolveFacts.segments_abs_path _ HDK).
    intros Hpre. apply prefix_app_inv, prefix_cons_inv_1 in Hpre. congruence.
Qed.

Lemma legacy_download_leaves_temp_witness :
  fst (Legacy.download "/srv" (abs_path ["srv"; "app"]) ".." "server.js"
         {| dirs := ∅; files := {[ "/srv/app/server.js" := [x2f; x2f] ]}; log := [] |})
  = Download "/srv/app/server.js" "server.js" [x2f; x2f].
Proof.
  apply (proj1 (legacy_download_leaves_temp "/srv" ["srv"; "app"] "server.js" []
                  {| dirs := ∅; files := {[ "/srv/app/server.js" := [x2f; x2f] ]};
                     log := [] |}
                  [x2f; x2f] ltac:(repeat constructor) ltac:(repeat constructor)
                  ltac:(discriminate) eq_refl)).
Defined.

(** X24: the earlier server writes the entries of a batch in order, each
    at the path [path.join] gives, whatever the path and however large the
    content, and skips none: it stops only at an entry on which a step
    throws, and then answers with status 500.  On a success response every
    entry of the batch was written.  An entry whose path is
    [../../../<name>] is written, once the loop handled it, into the
    application directory, outside [TEMP_DIR]; it is handled when it comes
    first, its content can be decoded, no path holds a NUL, no regular file
    sits at the output directory or above it, and [<name>] is not a
    directory. *)
Theorem legacy_create_zip_writes_every_entry `{Codec} (cwd : string) (D : list string)
    (message : string) (events : list StreamEvent) (body : CreateZipBody)
    (fs : FileSystem) :
  Forall (fun s => is_ordinary s = true) D ->
  is_ordinary (sessionId body) = true ->
  let result := Legacy.create_zip cwd (abs_path D) message events body fs in
  let fs' := snd result in
  let outputDir := abs_path (D ++ ["temp"; sessionId body; "output"]) in
  let target := fun entry =>
    (Path.join outputDir (entry_path entry), decoded (fd_payload entry)) in
  (exists handled rest,
     body_files body = (handled ++ rest)%list
     /\ written (log_since fs fs') = map target handled
     /\ (rest <> [] -> fst result = ErrorJson 500 message)
     /\ forall entry name,
          entry ∈ handled -> is_ordinary name = true ->
          fd_path entry = Some ("../../../" +:+ name) ->
          (abs_path (D ++ [name]), decoded (fd_payload entry))
          ∈ written (log_since fs fs'))
  /\ (forall url, fst result = ZipReady url ->
        written (log_since fs fs') = map target (body_files body))
  /\ forall entry after name,
       body_files body = entry :: after ->
       fd_path entry = Some ("../../../" +:+ name) ->
       is_ordinary name = true -> D <> [] ->
       fd_payload entry <> Undecodable ->
       has_nul outputDir = false -> has_nul (abs_path (D ++ [name])) = false ->
       clear_of_files fs (D ++ ["temp"; sessionId body; "output"]) ->
       name <> "temp" -> abs_path (D ++ [name]) ∉ dirs fs ->
       (abs_path (D ++ [name]), decoded (fd_payload entry)) ∈ written (log_since fs fs').
Proof.
  intros HD Hsid result fs' outputDir target.
  assert (Hout : Forall (fun s => is_ordinary s = true)
                   (D ++ ["temp"; sessionId body; "output"])).
  { apply Forall_app. split; [exact HD | now repeat constructor]. }
  assert (Hjoin : Legacy.join3 (TEMP_DIR (abs_path D)) (sessionId body) "output" = outputDir).
  { rewrite (HandlerFacts.TEMP_DIR_eq D HD).
    rewrite (LegacyFacts.join3_below (D ++ ["temp"]) (sessionId body) "output")
      by (now rewrite <- List.app_assoc).
    now rewrite <- List.app_assoc. }
  assert (Hclimb : forall name, is_ordinary name = true ->
            Path.join outputDir ("../../../" +:+ name) = abs_path (D ++ [name])).
  { intros name Hname. unfold Path.join, outputDir.
    change (String.eqb (abs_path (D ++ ["temp"; sessionId body; "output"])) "") with false.
    change (String.eqb ("../../../" +:+ name) "") with false. cbv iota.
    change ("../../../" +:+ name)
      with (JS.join_with "/"
              (repeat ".." (length ["temp"; sessionId body; "output"]) ++ [name])).
    apply (LegacyFacts.normalize_climb D ["temp"; sessionId body; "output"] [name]);
      [exact Hout | now repeat constructor | discriminate]. }
  pose proof (LegacyFacts.legacy_create_zip_log cwd (abs_path D) message events body fs)
    as Hshape. cbv zeta in Hshape. rewrite Hjoin in Hshape.
  fold result in Hshape. fold fs' in Hshape.
  assert (Hprefix : exists handled rest,
     body_files body = (handled ++ rest)%list
     /\ written (log_since fs fs') = map target handled
     /\ (rest <> [] -> fst result = ErrorJson 500 message)).
  { destruct Hshape as [(_ & Hresp & Hw) | (fs1 & tail & Hdir & Hlog & Htail & Hthrown)].
    - exists [], (body_files body). split; [reflexivity|]. split; [exact Hw|].
      intros _. exact Hresp.
    - destruct (LoopFacts.ensure_dir_ops (fun _ => True) cwd outputDir fs I I)
        as (pre & Hlog0 & Hpre & _).
      rewrite Hdir in Hlog0. cbn [snd] in Hlog0.
      destruct (LegacyFacts.legacy_save_files_ops cwd outputDir (body_files body) fs1)
        as (handled & rest & ops & Hsplit & Hlog1 & Hops & Hc).
      exists handled, rest. split; [exact Hsplit|]. split.
      + rewrite (LoopFacts.log_since_app fs fs' (pre ++ ops ++ tail)).
        * rewrite !LoopFacts.written_app, Hpre, Hops, Htail. cbn [app].
          now rewrite List.app_nil_r.
        * rewrite Hlog, Hlog1, Hlog0, <- !List.app_assoc. reflexivity.
      + intros Hrest. apply Hthrown.
        destruct (fst (Legacy.save_files cwd outputDir (body_files body) fs1));
          [contradiction | reflexivity]. }
  split; [|split].
  - destruct Hprefix as (handled & rest & Hsplit & Hw & Hresp).
    exists handled, rest. split; [exact Hsplit|]. split; [exact Hw|].
    split; [exact Hresp|].
    intros entry name Hin Hname Hpath. rewrite Hw.
    apply list_elem_of_In, in_map_iff. exists entry. split; [|now apply list_elem_of_In].
    unfold target, entry_path. rewrite Hpath. cbn [default]. f_equal. now apply Hclimb.
  - intros url Hready.
    destruct Hprefix as (handled & rest & Hsplit & Hw & Hresp).
    destruct rest as [|bad rest].
    + now rewrite Hw, Hsplit, List.app_nil_r.
    + rewrite Hresp in Hready by discriminate. discriminate Hready.
  - intros entry after name Hbatch Hpath Hname HDne Hdecodable Hnul Hnul' Hclear
      Hname' Hnodir.
    assert (Houtne : (D ++ ["temp"; sessionId body; "output"])%list <> [])
      by (now destruct D).
    destruct (WriteFacts.ensure_dir_goes_through cwd _ fs Hout Houtne Hnul Hclear)
      as (fs1 & Hdir1 & Hfiles1 & _ & _ & Hdirs1 & pre & Hlog0 & Hpre).
    fold outputDir in Hdir1.
    destruct Hshape as [(Hthrown & _) | (fs1' & tail & Hdir & Hlog & Htail & _)].
    { rewrite Hdir1 in Hthrown. discriminate Hthrown. }
    rewrite Hdir1 in Hdir. injection Hdir as <-.
    assert (Hall : Forall (fun s => is_ordinary s = true) (D ++ [name])).
    { apply Forall_app. split; [exact HD | now repeat constructor]. }
    assert (Hdone : fst (Legacy.save_file cwd outputDir fs1 entry) = Completed).
    { unfold Legacy.save_file. rewrite Hpath, (Hclimb name Hname).
      rewrite (WriteFacts.dirname_abs_path D name Hall HDne).
      destruct (WriteFacts.ensure_dir_goes_through cwd D fs1 HD HDne)
        as (fs2 & -> & Hfiles2 & Hin2 & _ & Hdirs2 & _).
      { now apply (WriteFacts.has_nul_parent D name HDne). }
      { apply (WriteFacts.clear_same_files fs); [exact Hfiles1|].
        now apply (WriteFacts.clear_prefix fs D ["temp"; sessionId body; "output"]). }
      assert (Hgoes : writeFileSync_throws cwd (abs_path (D ++ [name])) fs2 = false).
      { apply WriteFacts.writeFileSync_goes_through;
          [exact Hall | exact HDne | exact Hnul' | | exact Hin2 |].
        - apply (WriteFacts.clear_same_files fs); [now rewrite Hfiles2|].
          now apply (WriteFacts.clear_prefix fs D ["temp"; sessionId body; "output"]).
        - intros Hq. apply Hdirs2 in Hq as [Hq | (k & Hk & Hq)].
          + apply Hdirs1 in Hq as [Hq | (k & Hk & Hq)]; [now apply Hnodir|].
            apply WriteFacts.abs_path_inj in Hq; [| exact Hall | now apply Forall_take].
            assert (Hlen : k = length D + 1).
            { apply (f_equal (@length string)) in Hq.
              rewrite length_take, !List.length_app in Hq. cbn [length] in *. lia. }
            subst k. rewrite take_app_ge in Hq by lia.
            replace (length D + 1 - length D) with 1 in Hq by lia.
            cbn [take] in Hq. apply app_inv_head in Hq. congruence.
          + apply WriteFacts.abs_path_inj in Hq; [| exact Hall | now apply Forall_take].
            apply (f_equal (@length string)) in Hq.
            rewrite length_take, List.length_app in Hq. cbn [length] in Hq. lia. }
      unfold writeFileSync. rewrite Hgoes.
      destruct (fd_payload entry); [reflexivity | reflexivity | reflexivity | contradiction]. }
    destruct (LegacyFacts.legacy_first_entry_written cwd outputDir entry after fs1 Hdone)
      as (ops & Hlog1 & Hin).
    rewrite Hbatch in Hlog.
    rewrite (LoopFacts.log_since_app fs fs' (pre ++ ops ++ tail)).
    + rewrite !LoopFacts.written_app. apply elem_of_app. right. apply elem_of_app. left.
      unfold entry_path in Hin. rewrite Hpath in Hin. cbn [default] in Hin.
      rewrite <- (Hclimb name Hname). exact Hin.
    + rewrite Hlog, Hlog1, Hlog0, <- !List.app_assoc. reflexivity.
Qed.

Lemma legacy_create_zip_writes_every_entry_witness :
  ("/srv/app/server.js", [x78])
  ∈ written (log_since Examples.empty_fs
       (snd (@Legacy.create_zip Examples.text_codec "/srv" (abs_path ["srv"; "app"])
               "failed" [OutputClose]
               {| sessionId := "s1";
                  body_files := [{| fd_path := Some "../../../server.js";
                                    fd_payload := Raw "x" |}] |}
               Examples.empty_fs))).
Proof.
  apply (proj2 (proj2 (@legacy_create_zip_writes_every_entry Examples.text_codec "/srv"
                         ["srv"; "app"] "failed" [OutputClose]
                         {| sessionId := "s1";
                            body_files := [{| fd_path := Some "../../../server.js";
                                              fd_payload := Raw "x" |}] |}
                         Examples.empty_fs ltac:(repeat constructor) eq_refl))
           {| fd_path := Some "../../../server.js"; fd_payload := Raw "x" |} []
           "server.js");
    [reflexivity | reflexivity | reflexivity | discriminate | discriminate
    | reflexivity | reflexivity | intros k _; apply lookup_empty | discriminate
    | apply not_elem_of_empty].
Defined.

(** ** Well-formed entries *)

Module AcceptFacts.
Import StrFacts PathFacts NormalizeFacts SanitizeFacts ResolveFacts HandlerFacts.

(** A relative path of plain segments is kept by [sanitizePath] and joined
    below the base as it is written. *)
Lemma plain_path_joined (B segs : list string) :
  Forall (fun s => is_ordinary s = true) B ->
  segs <> [] -> Forall (fun s => is_plain s = true) segs ->
  sanitizePath (JS.join_with "/" segs) = JS.join_with "/" segs
  /\ JS.join_with "/" segs <> ""
  /\ Path.join (abs_path B) (JS.join_with "/" segs) = abs_path (B ++ segs).
Proof.
  intros HB Hne Hplain.
  pose proof (SanitizeMoreFacts.plain_ordinary _ Hplain) as Hord.
  assert (Hfull : JS.join_with "/" segs <> "").
  { intros E. apply join_with_eq_empty in E; [contradiction|].
    now apply ordinary_nonempty. }
  split; [|split; [exact Hfull|]].
  - rewrite sanitizePath_eq.
    pose proof (SanitizeMoreFacts.normalize_relative 0 segs Hne Hplain) as Hnorm.
    cbn [repeat app] in Hnorm. rewrite Hnorm.
    now apply SanitizeMoreFacts.replace_leading_parents_plain.
  - unfold Path.join. change (String.eqb (abs_path B) "") with false. cbv iota.
    destruct (String.eqb_spec (JS.join_with "/" segs) ""); [contradiction|].
    rewrite <- (List.app_nil_r B) at 1.
    apply (LegacyFacts.normalize_climb B [] segs); [|exact Hord | exact Hne].
    now rewrite List.app_nil_r.
Qed.

End AcceptFacts.

(** X25: an entry whose path is a relative path of plain segments, at most
    255 characters long, ending in a file name [stem.ext] with [ext] one of
    [glb], [mind] and [json] in any case, passes every check on the path, and
    its place is below the output directory at the path as written.  When
    its content can be decoded, the path holds no NUL, no regular file sits
    at its directory or above it and no directory sits at its place,
    [save_file] completes on it: the entry is skipped when its content is
    oversized, and is otherwise on disk, at that place, with its decoded
    bytes. *)
Theorem well_formed_entries_are_accepted `{Codec} (cwd : string) (B folders : list string)
    (stem ext : string) (entry : FileData) (fs : FileSystem) :
  Forall (fun s => is_ordinary s = true) B -> B <> [] ->
  Forall (fun s => is_plain s = true) (folders ++ [stem +:+ "." +:+ ext]) ->
  stem <> "" -> no_dot_no_slash ext = true -> ext <> "" ->
  JS.toLowerCase ext = "glb" \/ JS.toLowerCase ext = "mind" \/ JS.toLowerCase ext = "json" ->
  String.length (JS.join_with "/" (folders ++ [stem +:+ "." +:+ ext])) <= 255 ->
  fd_path entry = Some (JS.join_with "/" (folders ++ [stem +:+ "." +:+ ext])) ->
  let place := abs_path (B ++ folders ++ [stem +:+ "." +:+ ext]) in
  (fails_path_checks cwd (abs_path B) entry = false
   /\ saved_as (abs_path B) entry = (place, decoded (fd_payload entry))
   /\ fails_validation cwd (abs_path B) entry = oversized (fd_payload entry))
  /\ (fd_payload entry <> Undecodable ->
      has_nul place = false ->
      clear_of_files fs (B ++ folders) ->
      place ∉ dirs fs ->
      exists fs',
        save_file cwd (abs_path B) fs entry = (Completed, fs')
        /\ files fs'
           = if oversized (fd_payload entry) then files fs
             else <[place := decoded (fd_payload entry)]> (files fs)).
Proof.
  intros HB HBne Hplain Hstem Hext Hextne Hallowed Hlen Hpath place.
  set (name := stem +:+ "." +:+ ext) in *.
  assert (Hne : (folders ++ [name])%list <> []) by (now destruct folders).
  destruct (AcceptFacts.plain_path_joined B _ HB Hne Hplain) as (Hsan & Hfull & Hjoin).
  pose proof (SanitizeMoreFacts.plain_ordinary _ Hplain) as Hord.
  assert (Hall : Forall (fun s => is_ordinary s = true) (B ++ folders ++ [name]))
    by (apply Forall_app; now split).
  assert (Hstemns : no_slash stem = true).
  { apply Forall_app in Hord as [_ Hname]. inversion Hname as [|? ? Hn _]; subst.
    apply PathFacts.is_ordinary_inv in Hn as (_ & _ & _ & Hns).
    unfold no_slash, name in Hns. rewrite WriteFacts.all_chars_app in Hns.
    now apply andb_true_iff in Hns as [Hs _]. }
  assert (Htyped : entry_path entry = JS.join_with "/" (folders ++ [name]))
    by (unfold entry_path; now rewrite Hpath).
  assert (Hallowed' : isAllowedFileExtension (abs_path (B ++ folders ++ [name])) = true).
  { rewrite List.app_assoc, <- (StrFacts.str_app_nil_r (abs_path (_ ++ [name]))).
    rewrite EntryFacts.abs_path_snoc by (now destruct B).
    rewrite StrFacts.str_app_nil_r. unfold isAllowedFileExtension, name.
    change (stem +:+ "." +:+ ext) with (stem +:+ String "." ext).
    rewrite (ExtnameFacts.extname_of_name _ stem ext Hstemns Hext Hstem Hextne).
    rewrite ExtnameFacts.toLowerCase_dot.
    destruct Hallowed as [-> | [-> | ->]]; reflexivity. }
  pose proof Hlen as Hlen'. apply Nat.ltb_ge in Hlen'.
  assert (Hchecks : fails_path_checks cwd (abs_path B) entry = false).
  { unfold fails_path_checks. rewrite Htyped, Hsan, Hjoin.
    destruct (String.eqb_spec (JS.join_with "/" (folders ++ [name])) "");
      [contradiction|].
    rewrite Hlen'.
    rewrite (HandlerFacts.validatePath_below cwd B _ HBne Hall). cbn [negb orb].
    apply negb_false_iff. exact Hallowed'. }
  assert (Hsaved : saved_as (abs_path B) entry = (place, decoded (fd_payload entry))).
  { unfold saved_as. now rewrite Htyped, Hsan, Hjoin. }
  assert (Hvalid : fails_validation cwd (abs_path B) entry = oversized (fd_payload entry)).
  { unfold fails_validation. now rewrite Hchecks. }
  split; [split; [exact Hchecks | split; [exact Hsaved | exact Hvalid]]|].
  intros Hdecodable Hnul Hclear Hnodir.
  assert (Hplace : place = abs_path ((B ++ folders) ++ [name]))
    by (subst place; now rewrite <- List.app_assoc).
  assert (Hall' : Forall (fun s => is_ordinary s = true) ((B ++ folders) ++ [name]))
    by (now rewrite <- List.app_assoc).
  assert (Hdirs : Forall (fun s => is_ordinary s = true) (B ++ folders)).
  { now apply Forall_app in Hall' as [? _]. }
  assert (Hbne : (B ++ folders)%list <> []) by (now destruct B).
  assert (Hdone : fst (save_file cwd (abs_path B) fs entry) = Completed).
  { unfold save_file. rewrite Hpath, Hsan, Hjoin.
    destruct (String.eqb_spec (JS.join_with "/" (folders ++ [name])) "");
      [contradiction|].
    rewrite Hlen', (HandlerFacts.validatePath_below cwd B _ HBne Hall), Hallowed'.
    cbn [negb]. fold place. rewrite Hplace.
    rewrite (WriteFacts.dirname_abs_path _ _ Hall' Hbne).
    destruct (WriteFacts.ensure_dir_goes_through cwd (B ++ folders) fs Hdirs Hbne)
      as (fs1 & -> & Hfiles1 & Hin1 & _ & Hdirs1 & _);
      [apply (WriteFacts.has_nul_parent _ name Hbne); now rewrite <- Hplace | exact Hclear|].
    assert (Hthrows : forall data,
              attempt (writeFileSync cwd (abs_path ((B ++ folders) ++ [name])) data fs1) fs1
              = (Completed,
                 record_op (WriteFileSync (abs_path ((B ++ folders) ++ [name])) data)
                   {| dirs := dirs fs1;
                      files := <[Path.resolve cwd (abs_path ((B ++ folders) ++ [name]))
                                 := data]> (files fs1);
                      log := log fs1 |})).
    { intros data. unfold writeFileSync.
      rewrite (WriteFacts.writeFileSync_goes_through cwd (B ++ folders) name fs1);
        [reflexivity | exact Hall' | exact Hbne | now rewrite <- Hplace
        | now apply (WriteFacts.clear_same_files fs) | exact Hin1 |].
      intros Hq. apply Hdirs1 in Hq as [Hq | (k & Hk & Hq)].
      - apply Hnodir. now rewrite Hplace.
      - apply WriteFacts.abs_path_inj in Hq;
          [| exact Hall' | now apply Forall_take].
        apply (f_equal (@length string)) in Hq.
        rewrite List.length_app, length_take in Hq. cbn [length] in Hq. lia. }
    destruct (fd_payload entry) as [content|content|content|];
      [| | |contradiction].
    - destruct (Z.of_nat (String.length content) >? MAX_FILE_BYTES)%Z; [reflexivity|].
      destruct (Z.of_nat (length (Buffer_from_base64 (strip_data_url content)))
                >? MAX_FILE_BYTES)%Z; [reflexivity|].
      now rewrite Hthrows.
    - destruct (Z.of_nat (length (Buffer_from (JSON_stringify content)))
                >? MAX_FILE_BYTES)%Z; [reflexivity|].
      now rewrite Hthrows.
    - destruct (Z.of_nat (length (Buffer_from content)) >? MAX_FILE_BYTES)%Z;
        [reflexivity|].
      now rewrite Hthrows. }
  pose proof (BatchFacts.save_file_files cwd (abs_path B) fs entry) as Hfiles.
  rewrite Hdone, Hvalid, Hsaved in Hfiles. cbn [fst snd] in Hfiles.
  subst place. rewrite (ResolveFacts.resolve_abs_path_plain cwd _ Hall) in Hfiles.
  exists (snd (save_file cwd (abs_path B) fs entry)). split; [|exact Hfiles].
  rewrite <- Hdone. now destruct (save_file cwd (abs_path B) fs entry).
Qed.

Lemma well_formed_entries_are_accepted_witness :
  exists fs',
    @save_file Examples.text_codec "/srv" (abs_path ["srv"; "out"]) Examples.empty_fs
      Examples.good_entry = (Completed, fs')
    /\ files fs' = {[ "/srv/out/a/b.json" := [x7b; x7d] ]}.
Proof.
  destruct (proj2 (@well_formed_entries_are_accepted Examples.text_codec "/srv"
                     ["srv"; "out"] ["a"] "b" "json" Examples.good_entry
                     Examples.empty_fs
                     ltac:(repeat constructor) ltac:(discriminate)
                     ltac:(repeat constructor) ltac:(discriminate) eq_refl
                     ltac:(discriminate) (or_intror (or_intror eq_refl))
                     ltac:(vm_compute; lia) eq_refl)
              ltac:(discriminate) eq_refl ltac:(intros k _; apply lookup_empty)
              ltac:(apply not_elem_of_empty))
    as (fs' & Hrun & Hfiles).
  exists fs'. split; [exact Hrun|]. rewrite Hfiles. vm_compute. reflexivity.
Defined.
